(** * Meal-image mapping: the matching engine of [index.js] and the
    dietary classifier of [vegetarian-detection.js], embedded in Rocq.

    JavaScript values are modelled as follows.
    - Strings are [string]: sequences of bytes holding UTF-8 text.
      In the classifier [toLowerCase] acts on the ASCII letters, which is
      what JavaScript does on ASCII text; the text scorer reads a text
      character by character and knows the white space and the capitals
      outside ASCII that its regular expressions can tell from other
      characters. An absent (undefined, null) string argument of the
      classifier is the empty string, which the guards [!x] and [x || '']
      of the source do not distinguish from it.
    - A run of the handler is followed for a given number of iterations of
      its batch loop, and is [None] when the loop is still running after
      them.
    - Numbers are IEEE 754 binary64 values: [float], with the kernel's
      correctly rounded [+], [*], [/] and [sqrt].
    - A thrown exception is the [Err] case of [result].
    - Logging ([console.log]) and time stamps ([processedAt],
      [executionTimeMs]) carry no behaviour and are left out. *)

From Stdlib Require Import ZArith Ascii String Floats Uint63 Lia.
From stdpp Require Import base option list gmap sets strings.

Local Open Scope string_scope.
Local Open Scope list_scope.

(* Decimal literals such as 0.2 denote the nearest binary64 value, as in
   JavaScript. *)
Set Warnings "-inexact-float".

(** ** JavaScript string primitives *)

Module JsString.

Definition isUpper (c : ascii) : bool :=
  let n := nat_of_ascii c in (65 <=? n)%nat && (n <=? 90)%nat.

Definition isLower (c : ascii) : bool :=
  let n := nat_of_ascii c in (97 <=? n)%nat && (n <=? 122)%nat.

Definition isDigit (c : ascii) : bool :=
  let n := nat_of_ascii c in (48 <=? n)%nat && (n <=? 57)%nat.

(** The ASCII members of the regular expression class [\s]:
    tab, line feed, vertical tab, form feed, carriage return, space. *)
Definition isSpace (c : ascii) : bool :=
  let n := nat_of_ascii c in ((9 <=? n)%nat && (n <=? 13)%nat) || (n =? 32)%nat.

Definition lowerChar (c : ascii) : ascii :=
  if isUpper c then ascii_of_nat (nat_of_ascii c + 32) else c.

(** [s.toLowerCase()] *)
Fixpoint toLowerCase (s : string) : string :=
  match s with
  | EmptyString => EmptyString
  | String c r => String (lowerChar c) (toLowerCase r)
  end.

(** [s.startsWith(p)] *)
Fixpoint startsWith (s p : string) {struct p} : bool :=
  match p, s with
  | EmptyString, _ => true
  | String _ _, EmptyString => false
  | String a p', String b s' => Ascii.eqb a b && startsWith s' p'
  end.

(** [text.includes(indicator)]: [indicator] occurs somewhere in [text]. *)
Fixpoint includes (text indicator : string) : bool :=
  startsWith text indicator ||
  match text with
  | EmptyString => false
  | String _ rest => includes rest indicator
  end.

(** JavaScript truthiness of a string: non-empty. *)
Definition truthy (s : string) : bool :=
  match s with EmptyString => false | String _ _ => true end.

End JsString.

(** ** vegetarian-detection.js *)

Module VegetarianDetection.
Import JsString.

Definition VEGETARIAN_INDICATORS : list string :=
  ["paneer"; "tofu"; "soy"; "beans"; "lentils"; "dal"; "chickpeas"; "rajma";
   "chana"; "moong"; "masoor"; "urad"; "toor"; "black beans"; "kidney beans";
   "white beans"; "tempeh"; "seitan"; "quinoa"; "nuts"; "almonds"; "cashews";
   "peanuts"; "vegetable"; "veggie"; "potato"; "onion"; "tomato"; "carrot";
   "spinach"; "palak"; "cabbage"; "cauliflower"; "broccoli"; "peas"; "corn";
   "bell pepper"; "capsicum"; "eggplant"; "brinjal"; "okra"; "lady finger";
   "bitter gourd"; "bottle gourd"; "ridge gourd"; "snake gourd"; "pumpkin";
   "sweet potato"; "beetroot"; "radish"; "cucumber"; "lettuce"; "cabbage";
   "mushroom"; "ginger"; "garlic"; "coriander"; "mint"; "curry leaves";
   "fenugreek"; "methi"; "dill"; "basil"; "oregano"; "rice"; "wheat";
   "flour"; "atta"; "maida"; "semolina"; "rava"; "sooji"; "oats"; "barley";
   "millet"; "bajra"; "jowar"; "ragi"; "corn flour"; "milk"; "curd";
   "yogurt"; "dahi"; "butter"; "ghee"; "cheese"; "cream"; "buttermilk";
   "lassi"; "paneer"; "cottage cheese"; "turmeric"; "cumin"; "coriander";
   "cardamom"; "cinnamon"; "cloves"; "pepper"; "chili"; "red chili";
   "green chili"; "mustard"; "fenugreek"; "asafoetida"; "hing"; "bay leaves";
   "curry leaves"; "mint leaves"; "coriander leaves"; "steamed"; "boiled";
   "roasted"; "grilled"; "baked"; "stir-fried"; "sautéed"; "vegetarian";
   "veggie"; "vegan"; "sabzi"; "subzi"; "curry"; "masala"; "tikka";
   "biryani"; "pulao"; "fried rice"; "noodles"; "pasta"; "sandwich"; "wrap";
   "salad"; "soup"; "stew"; "gravy"; "sauce"; "chutney"; "pickle"; "raita";
   "dal"; "sambar"; "rasam"; "kadhi"; "korma"; "butter masala";
   "tikka masala"; "palak paneer"; "mutter paneer"; "chana masala";
   "rajma masala"; "aloo gobi"; "baingan bharta"; "aloo matar";
   "mushroom curry"; "vegetable biryani"; "paneer biryani";
   "mushroom biryani"; "vegetable pulao"; "jeera rice"; "coconut rice";
   "lemon rice"; "tamarind rice"; "curd rice"; "bisi bele bath"; "upma";
   "poha"; "idli"; "dosa"; "uttapam"; "pancake"; "paratha"; "roti"; "naan";
   "kulcha"; "poori"; "chapati"; "phulka"; "thepla"; "methi thepla";
   "aloo paratha"; "gobi paratha"; "paneer paratha"; "onion paratha";
   "apple"; "banana"; "orange"; "mango"; "grapes"; "strawberry"; "blueberry";
   "pineapple"; "papaya"; "guava"; "pomegranate"; "watermelon"; "muskmelon";
   "coconut"; "dates"; "figs"; "raisins"; "dry fruits"; "nuts"; "tea";
   "coffee"; "milk"; "lassi"; "buttermilk"; "juice"; "smoothie"; "lemonade";
   "coconut water"; "tender coconut"].

Definition NON_VEGETARIAN_INDICATORS : list string :=
  ["chicken"; "mutton"; "lamb"; "beef"; "pork"; "duck"; "turkey"; "goat";
   "meat"; "flesh"; "protein"; "animal"; "fish"; "salmon"; "tuna"; "prawn";
   "shrimp"; "crab"; "lobster"; "oyster"; "mussel"; "clam"; "squid";
   "octopus"; "seafood"; "marine"; "sea food"; "egg"; "eggs"; "omelette";
   "scrambled"; "boiled egg"; "fried egg"; "egg curry"; "egg biryani";
   "egg roll"; "egg sandwich"; "non-vegetarian"; "non veg"; "nonveg";
   "nonvegetarian"; "meat curry"; "chicken curry"; "mutton curry";
   "fish curry"; "prawn curry"; "egg curry"; "chicken biryani";
   "mutton biryani"; "fish biryani"; "prawn biryani"; "egg biryani";
   "chicken tikka"; "mutton tikka"; "fish tikka"; "prawn tikka";
   "chicken masala"; "mutton masala"; "fish masala"; "prawn masala";
   "chicken korma"; "mutton korma"; "fish korma"; "prawn korma";
   "chicken tandoori"; "mutton tandoori"; "fish tandoori"; "prawn tandoori";
   "chicken 65"; "mutton 65"; "fish 65"; "prawn 65"; "chicken lollipop";
   "mutton seekh"; "fish fry"; "prawn fry"; "chicken fry"; "mutton fry";
   "chicken roll"; "mutton roll"; "fish roll"; "prawn roll"; "egg roll";
   "chicken sandwich"; "mutton sandwich"; "fish sandwich"; "prawn sandwich";
   "egg sandwich"; "chicken burger"; "mutton burger"; "fish burger";
   "prawn burger"; "egg burger"; "chicken pizza"; "mutton pizza";
   "fish pizza"; "prawn pizza"; "egg pizza"; "chicken pasta"; "mutton pasta";
   "fish pasta"; "prawn pasta"; "egg pasta"; "chicken noodles";
   "mutton noodles"; "fish noodles"; "prawn noodles"; "egg noodles";
   "chicken soup"; "mutton soup"; "fish soup"; "prawn soup"; "egg soup";
   "chicken stew"; "mutton stew"; "fish stew"; "prawn stew"; "egg stew";
   "chicken gravy"; "mutton gravy"; "fish gravy"; "prawn gravy"; "egg gravy";
   "chicken sauce"; "mutton sauce"; "fish sauce"; "prawn sauce"; "egg sauce";
   "chicken chutney"; "mutton chutney"; "fish chutney"; "prawn chutney";
   "egg chutney"; "chicken pickle"; "mutton pickle"; "fish pickle";
   "prawn pickle"; "egg pickle"; "chicken raita"; "mutton raita";
   "fish raita"; "prawn raita"; "egg raita"; "grilled chicken";
   "roasted chicken"; "baked chicken"; "fried chicken"; "steamed fish";
   "grilled fish"; "roasted fish"; "baked fish"; "fried fish";
   "grilled mutton"; "roasted mutton"; "baked mutton"; "fried mutton";
   "grilled prawn"; "roasted prawn"; "baked prawn"; "fried prawn";
   "grilled egg"; "roasted egg"; "baked egg"; "fried egg"; "butter chicken";
   "chicken tikka masala"; "mutton tikka masala"; "fish tikka masala";
   "prawn tikka masala"; "egg tikka masala"; "chicken korma"; "mutton korma";
   "fish korma"; "prawn korma"; "egg korma"; "chicken vindaloo";
   "mutton vindaloo"; "fish vindaloo"; "prawn vindaloo"; "egg vindaloo";
   "chicken jalfrezi"; "mutton jalfrezi"; "fish jalfrezi"; "prawn jalfrezi";
   "egg jalfrezi"; "chicken dopiaza"; "mutton dopiaza"; "fish dopiaza";
   "prawn dopiaza"; "egg dopiaza"; "chicken makhani"; "mutton makhani";
   "fish makhani"; "prawn makhani"; "egg makhani"; "chicken kadai";
   "mutton kadai"; "fish kadai"; "prawn kadai"; "egg kadai";
   "chicken chettinad"; "mutton chettinad"; "fish chettinad";
   "prawn chettinad"; "egg chettinad"; "chicken hyderabadi";
   "mutton hyderabadi"; "fish hyderabadi"; "prawn hyderabadi";
   "egg hyderabadi"; "chicken kerala"; "mutton kerala"; "fish kerala";
   "prawn kerala"; "egg kerala"; "chicken goan"; "mutton goan"; "fish goan";
   "prawn goan"; "egg goan"; "chicken bengali"; "mutton bengali";
   "fish bengali"; "prawn bengali"; "egg bengali"; "chicken punjabi";
   "mutton punjabi"; "fish punjabi"; "prawn punjabi"; "egg punjabi";
   "chicken south indian"; "mutton south indian"; "fish south indian";
   "prawn south indian"; "egg south indian"; "chicken north indian";
   "mutton north indian"; "fish north indian"; "prawn north indian";
   "egg north indian"; "chicken west indian"; "mutton west indian";
   "fish west indian"; "prawn west indian"; "egg west indian";
   "chicken east indian"; "mutton east indian"; "fish east indian";
   "prawn east indian"; "egg east indian"].

Definition STRONG_VEGETARIAN_INDICATORS : list string :=
  ["vegetarian"; "veggie"; "vegan"; "pure veg"; "pure vegetarian"; "sattvic";
   "jain"; "brahmin"; "pure veg restaurant"].

Definition STRONG_NON_VEGETARIAN_INDICATORS : list string :=
  ["non-vegetarian"; "non veg"; "nonveg"; "nonvegetarian"; "meat"; "chicken";
   "mutton"; "fish"; "prawn"; "egg"; "seafood"; "maas"].

(** The two counting loops: one point per listed indicator found in the
    text; an indicator listed twice counts twice. *)
Definition countIndicators (text : string) (indicators : list string) : nat :=
  length (filter (fun indicator => includes text indicator = true) indicators).

(** The part of both detectors after the text has been built. *)
Definition classifyText (text : string) : bool :=
  if existsb (includes text) STRONG_NON_VEGETARIAN_INDICATORS then false
  else if existsb (includes text) STRONG_VEGETARIAN_INDICATORS then true
  else
    let vegetarianScore := countIndicators text VEGETARIAN_INDICATORS in
    let nonVegetarianScore := countIndicators text NON_VEGETARIAN_INDICATORS in
    if (vegetarianScore =? 0)%nat && (nonVegetarianScore =? 0)%nat then true
    else (nonVegetarianScore <=? vegetarianScore)%nat.

Definition mealText (mealName description : string) : string :=
  toLowerCase (mealName ++ " " ++ description).

Definition detectMealVegetarian (mealName description : string) : bool :=
  if negb (truthy mealName) then true
  else classifyText (mealText mealName description).

Definition imageText (imageUrl imageName description : string) : string :=
  toLowerCase (imageUrl ++ " " ++ imageName ++ " " ++ description).

Definition detectImageVegetarian (imageUrl imageName description : string) : bool :=
  if negb (truthy imageUrl) then true
  else classifyText (imageText imageUrl imageName description).

End VegetarianDetection.

(** ** index.js: the similarity scorers *)

Module Similarity.
Import JsString.

(** A thrown JavaScript exception. The message of the [Error] thrown by
    [calculateCosineSimilarity] is kept by its two lengths; the two
    [TypeError]s are reading a property of [null] and of [undefined]. *)
Inductive exn : Type :=
  | VectorLengthMismatch (lengthA lengthB : nat)
  | TypeErrorOfNull (property : string)
  | TypeErrorOfUndefined (property : string)
  | ErrorMessage (message : string).

Inductive result (A : Type) : Type :=
  | Ok (value : A)
  | Err (error : exn).
Arguments Ok {A} value.
Arguments Err {A} error.

Definition bind {A B : Type} (r : result A) (k : A -> result B) : result B :=
  match r with
  | Ok a => k a
  | Err e => Err e
  end.

(** *** Text as characters

    [calculateTextSimilarity] works character by character, and among the
    characters outside ASCII it tells the white space of the class [\s], and
    the two capitals whose lower case is an ASCII letter, from the rest. A
    text is read as the list of its characters, each one the string of its
    UTF-8 bytes. *)

Definition ofBytes (bytes : list nat) : string :=
  fold_right (fun b s => String (ascii_of_nat b) s) EmptyString bytes.

(** The number of bytes of the character that starts with [lead]. *)
Definition sequenceLength (lead : ascii) : nat :=
  let n := nat_of_ascii lead in
  if (n <? 192)%nat then 1
  else if (n <? 224)%nat then 2
  else if (n <? 240)%nat then 3
  else if (n <? 248)%nat then 4
  else 1.

Definition isContinuation (b : ascii) : bool :=
  let n := nat_of_ascii b in (128 <=? n)%nat && (n <? 192)%nat.

(** [cur] holds the bytes read of the character under way and [need] the
    number of continuation bytes it still lacks. *)
Fixpoint charactersFrom (s cur : string) (need : nat) : list string :=
  match s with
  | EmptyString => if truthy cur then [cur] else []
  | String b r =>
      if (0 <? need)%nat && isContinuation b then
        let cur := (cur ++ String b EmptyString)%string in
        if (need =? 1)%nat then cur :: charactersFrom r EmptyString 0
        else charactersFrom r cur (need - 1)
      else
        let before := if truthy cur then [cur] else [] in
        if (sequenceLength b =? 1)%nat then
          before ++ String b EmptyString :: charactersFrom r EmptyString 0
        else before ++ charactersFrom r (String b EmptyString) (sequenceLength b - 1)
  end.

Definition characters (text : string) : list string := charactersFrom text EmptyString 0.

(** U+212A KELVIN SIGN and U+0130 LATIN CAPITAL LETTER I WITH DOT ABOVE:
    the characters outside ASCII whose lower case holds an ASCII letter
    ([k], and [i] followed by U+0307). *)
Definition kelvinSign : string := ofBytes [226; 132; 170].
Definition capitalIWithDot : string := ofBytes [196; 176].
Definition combiningDotAbove : string := ofBytes [204; 135].

(** [toLowerCase] on one character. Every other character outside ASCII
    has a lower case outside ASCII that is no white space, and white space
    has no case; such a character stands for its lower case here, the
    replacement that follows removes either. *)
Definition lowerCharacter (c : string) : list string :=
  match c with
  | String a EmptyString => [String (lowerChar a) EmptyString]
  | _ =>
      if String.eqb c kelvinSign then ["k"]
      else if String.eqb c capitalIWithDot then ["i"; combiningDotAbove]
      else [c]
  end.

(** The members of the class [\s] outside ASCII: U+00A0, U+1680,
    U+2000 to U+200A, U+2028, U+2029, U+202F, U+205F, U+3000, U+FEFF. *)
Definition unicodeWhiteSpace : list string :=
  map ofBytes
    [ [194; 160]; [225; 154; 128];
      [226; 128; 128]; [226; 128; 129]; [226; 128; 130]; [226; 128; 131];
      [226; 128; 132]; [226; 128; 133]; [226; 128; 134]; [226; 128; 135];
      [226; 128; 136]; [226; 128; 137]; [226; 128; 138];
      [226; 128; 168]; [226; 128; 169]; [226; 128; 175]; [226; 129; 159];
      [227; 128; 128]; [239; 187; 191] ].

Definition member (c : string) (l : list string) : bool := existsb (String.eqb c) l.

(** [\s] *)
Definition isWhiteSpace (c : string) : bool :=
  match c with
  | String a EmptyString => isSpace a
  | _ => member c unicodeWhiteSpace
  end.

(** [[a-z0-9\s]]: the characters the replacement
    [/[^a-z0-9\s]/g -> ''] keeps. *)
Definition keptChar (c : string) : bool :=
  match c with
  | String a EmptyString => isLower a || isDigit a || isSpace a
  | _ => isWhiteSpace c
  end.

Definition stripChars (text : list string) : list string :=
  filter (fun c => keptChar c = true) text.

Fixpoint trimStart (text : list string) : list string :=
  match text with
  | [] => []
  | c :: r => if isWhiteSpace c then trimStart r else text
  end.

Fixpoint trimEnd (text : list string) : list string :=
  match text with
  | [] => []
  | c :: r =>
      match trimEnd r with
      | [] => if isWhiteSpace c then [] else [c]
      | r' => c :: r'
      end
  end.

Definition trim (text : list string) : list string := trimEnd (trimStart text).

(** [s.split(/\s+/)]: the pieces between maximal runs of white space; the
    piece before a leading run and the piece after a trailing run are empty
    strings, and the empty string splits into one empty piece. [cur] is
    the piece being read, [inSep] tells that a run of white space is being
    skipped. *)
Fixpoint splitAux (text : list string) (cur : string) (inSep : bool) : list string :=
  match text with
  | [] => [cur]
  | c :: r =>
      if isWhiteSpace c then
        if inSep then splitAux r cur true else cur :: splitAux r EmptyString true
      else splitAux r (cur ++ c)%string false
  end.

Definition splitSpaces (text : list string) : list string := splitAux text EmptyString false.

(** [text.toLowerCase().replace(/[^a-z0-9\s]/g, '').trim().split(/\s+/)
    .filter(w => w.length > 0)] *)
Definition normalize (text : string) : list string :=
  filter (fun word => truthy word = true)
    (splitSpaces (trim (stripChars (flat_map lowerCharacter (characters text))))).

(** A JavaScript [Set] of strings: its elements in insertion order, without
    repetition. *)
Definition has (set : list string) (word : string) : bool := bool_decide (word ∈ set).

Definition add (set : list string) (word : string) : list string :=
  if has set word then set else set ++ [word].

Definition newSet (words : list string) : list string := fold_left add words [].

(** A collection size as a JavaScript number. *)
Definition ofNat (n : nat) : float := PrimFloat.of_uint63 (Uint63.of_Z (Z.of_nat n)).

Definition calculateTextSimilarity (text1 text2 : string) : float :=
  let words1 := normalize text1 in
  let words2 := normalize text2 in
  if (length words1 =? 0)%nat && (length words2 =? 0)%nat then 1%float
  else if (length words1 =? 0)%nat || (length words2 =? 0)%nat then 0%float
  else
    let set1 := newSet words1 in
    let set2 := newSet words2 in
    let intersection := newSet (filter (fun word => has set2 word = true) set1) in
    let union := newSet (set1 ++ set2) in
    (ofNat (length intersection) / ofNat (length union))%float.

(** The spec's reading of the text scorer: the two word sets as finite
    sets, and their Jaccard index. *)
Definition wordSet (text : string) : gset string := list_to_set (normalize text).

Definition jaccardIndex (A B : gset string) : float :=
  if decide (A = ∅ ∧ B = ∅) then 1%float
  else if decide (A = ∅ ∨ B = ∅) then 0%float
  else (ofNat (size (A ∩ B)) / ofNat (size (A ∪ B)))%float.

(** The spec's reading of normalization, one pass over the characters:
    a lower-case letter or a digit goes into the word being read, a capital
    goes into it as its lower-case letter, white space ends the word, and
    every other character is passed over. The alphabets are written out. *)
Definition letters : string := "abcdefghijklmnopqrstuvwxyz".
Definition capitals : string := "ABCDEFGHIJKLMNOPQRSTUVWXYZ".
Definition digits : string := "0123456789".

Fixpoint occurs (c : ascii) (s : string) : bool :=
  match s with
  | EmptyString => false
  | String d r => Ascii.eqb c d || occurs c r
  end.

Fixpoint translate (from to : string) (c : ascii) : option ascii :=
  match from, to with
  | String f from', String t to' =>
      if Ascii.eqb c f then Some t else translate from' to' c
  | _, _ => None
  end.

Definition whiteSpace : list string :=
  map ofBytes [[9]; [10]; [11]; [12]; [13]; [32]] ++ unicodeWhiteSpace.

Inductive characterKind : Type :=
  | WordCharacter (c : ascii)
  | Separator
  | Ignored.

Definition kindOf (c : string) : characterKind :=
  match c with
  | String a EmptyString =>
      if occurs a letters || occurs a digits then WordCharacter a
      else
        match translate capitals letters a with
        | Some l => WordCharacter l
        | None => if member c whiteSpace then Separator else Ignored
        end
  | _ =>
      if String.eqb c kelvinSign then WordCharacter "k"
      else if String.eqb c capitalIWithDot then WordCharacter "i"
      else if member c whiteSpace then Separator else Ignored
  end.

Fixpoint wordsFrom (kinds : list characterKind) (cur : string) : list string :=
  match kinds with
  | [] => if truthy cur then [cur] else []
  | WordCharacter c :: r => wordsFrom r (cur ++ String c EmptyString)%string
  | Separator :: r =>
      if truthy cur then cur :: wordsFrom r EmptyString else wordsFrom r EmptyString
  | Ignored :: r => wordsFrom r cur
  end.

Definition wordsOf (text : string) : list string :=
  wordsFrom (map kindOf (characters text)) EmptyString.

(** A normalized word: non-empty, made of the characters [a-z0-9]. *)
Definition wordChar (c : ascii) : bool := occurs c letters || occurs c digits.

Fixpoint allChars (p : ascii -> bool) (s : string) : bool :=
  match s with
  | EmptyString => true
  | String c r => p c && allChars p r
  end.

Definition isWord (w : string) : bool := truthy w && allChars wordChar w.

(** [calculateCosineSimilarity]: the loop runs over the common indices of
    two arrays of equal length. *)
Definition cosineLoop (vectorA vectorB : list float) : float * float * float :=
  fold_left
    (fun '(dotProduct, normA, normB) '(a, b) =>
       ((dotProduct + a * b)%float, (normA + a * a)%float, (normB + b * b)%float))
    (zip vectorA vectorB) (0%float, 0%float, 0%float).

Definition calculateCosineSimilarity (vectorA vectorB : list float) : result float :=
  if negb (length vectorA =? length vectorB)%nat then
    Err (VectorLengthMismatch (length vectorA) (length vectorB))
  else
    let '(dotProduct, normA, normB) := cosineLoop vectorA vectorB in
    let magnitude := (PrimFloat.sqrt normA * PrimFloat.sqrt normB)%float in
    Ok (if (magnitude =? 0)%float then 0%float else (dotProduct / magnitude)%float).

(** The spec's reading of the cosine scorer: the dot product and the sums
    of squares as separate left-to-right sums. *)
Definition dot (a b : list float) : float :=
  fold_left (fun acc '(x, y) => (acc + x * y)%float) (zip a b) 0%float.

Definition sumSquares (a : list float) : float :=
  fold_left (fun acc x => (acc + x * x)%float) a 0%float.

Definition norm (a : list float) : float := PrimFloat.sqrt (sumSquares a).

(** A zero entry ([0] or [-0]), and a number that is neither [NaN] nor
    infinite. *)
Definition isZero (x : float) : Prop := x = 0%float \/ x = (-0)%float.

Definition isFinite (x : float) : bool :=
  match Prim2SF x with
  | S754_zero _ | S754_finite _ _ _ => true
  | _ => false
  end.

End Similarity.

(** ** index.js: configuration, catalog and the match selector *)

Module Matching.
Import JsString VegetarianDetection Similarity.

(** [CONFIG]: the thresholds and the batch size, an integer of either
    sign. *)
Record Config : Type := {
  COSINE_SIMILARITY_THRESHOLD : float;
  TEXT_SIMILARITY_THRESHOLD : float;
  MAX_MEALS_PER_BATCH : Z
}.

(** [x || d] on numbers: [0], [-0] and [NaN] are falsy. *)
Definition orDefault (x d : float) : float :=
  if (x =? 0)%float || PrimFloat.is_nan x then d else x.

(** [CONFIG] as the module builds it from the environment. [cosineEnv] and
    [textEnv] are the values of [parseFloat(process.env...)], [NaN] for an
    unset or unreadable variable; [batchEnv] is the value of
    [parseInt(process.env.MAX_MEALS_PER_BATCH)], [None] for [NaN]. In
    [parseInt(...) || 50] the integer [0] is falsy as [NaN] is; a negative
    integer is kept. *)
Definition makeConfig (cosineEnv textEnv : float) (batchEnv : option Z) : Config :=
  {| COSINE_SIMILARITY_THRESHOLD := orDefault cosineEnv 0.2%float;
     TEXT_SIMILARITY_THRESHOLD := orDefault textEnv 0.2%float;
     MAX_MEALS_PER_BATCH :=
       match batchEnv with
       | Some n => if (n =? 0)%Z then 50%Z else n
       | None => 50%Z
       end |}.

Definition defaultConfig : Config := makeConfig nan nan None.

(** One record of [image-embeddings.json]. [name] and [isVegetarian] may be
    absent ([None] is [undefined]). *)
Record ImageEmbedding : Type := {
  img_name : option string;
  img_url : string;
  img_description : string;
  img_embedding : list float;
  img_isVegetarian : option bool
}.

(** One record of [cuisines.json]. *)
Record Cuisine : Type := {
  cuisine_name : string;
  cuisine_imageUrl : string
}.

(** [cuisineMap] is a [Map] object whose entries are never used: the loader
    stores each cuisine as a property of the object itself, and the selector
    reads it back with [cuisineMap[name]]. The object is modelled by its own
    string-keyed properties; a property read that finds no own property
    continues along the prototype chain, [Map.prototype] and then
    [Object.prototype], whose string keys (Node.js 18) are listed here. *)
Definition inheritedKeys : list string :=
  ["constructor"; "get"; "set"; "has"; "delete"; "clear"; "entries";
   "forEach"; "keys"; "size"; "values";
   "__defineGetter__"; "__defineSetter__"; "hasOwnProperty";
   "__lookupGetter__"; "__lookupSetter__"; "isPrototypeOf";
   "propertyIsEnumerable"; "toString"; "valueOf"; "__proto__";
   "toLocaleString"].

(** What [cuisineMap[key]] evaluates to: a stored cuisine, a value found on
    the prototype chain (a function, the number [size], the prototype
    itself), or [undefined]. *)
Inductive property : Type :=
  | OwnCuisine (cuisine : Cuisine)
  | InheritedValue
  | Undefined.

Definition getProperty (cuisineMap : gmap string Cuisine) (key : string) : property :=
  match cuisineMap !! key with
  | Some cuisine => OwnCuisine cuisine
  | None => if bool_decide (key ∈ inheritedKeys) then InheritedValue else Undefined
  end.

(** The property key that a value of [bestMatch.name] is converted to. *)
Definition propertyKey (name : option string) : string := default "undefined" name.

(** [cuisineMap[cuisine.name] = cuisine]: an ordinary assignment creates or
    replaces an own property. Two keys are intercepted by the prototype
    chain and create none: [size] is a getter without a setter, so the
    assignment is ignored, and [__proto__] is the prototype setter (the
    change of prototype it makes is not modelled). *)
Definition setProperty (cuisineMap : gmap string Cuisine) (cuisine : Cuisine)
  : gmap string Cuisine :=
  let key := cuisine_name cuisine in
  if bool_decide (key = "size" ∨ key = "__proto__") then cuisineMap
  else <[key := cuisine]> cuisineMap.

(** [loadCuisineMap]. [cuisines] is the parsed content of [cuisines.json],
    [None] when the bucket is not configured, the download fails or the
    content does not parse: every failure ends in the [catch] that returns
    an empty map. *)
Definition loadCuisineMap (cuisines : option (list Cuisine)) : gmap string Cuisine :=
  match cuisines with
  | None => ∅
  | Some cuisines =>
      fold_left
        (fun cuisineMap cuisine =>
           if truthy (cuisine_name cuisine) && truthy (cuisine_imageUrl cuisine)
           then setProperty cuisineMap cuisine else cuisineMap)
        cuisines ∅
  end.

Inductive method : Type := none | cosine | text | error.

Definition method_eqb (a b : method) : bool :=
  match a, b with
  | none, none | cosine, cosine | text, text | error, error => true
  | _, _ => false
  end.

(** The [reason] string: ["No suitable match found"],
    ["Cosine similarity <score.toFixed(3)> >= <threshold>"] or
    ["Text similarity <score.toFixed(3)> >= <threshold>"], kept by its
    parts. *)
Inductive reason : Type :=
  | NoSuitableMatch
  | CosineReason (score threshold : float)
  | TextReason (score threshold : float).

(** The local variables of [findBestImageMatch]. *)
Record MatchState : Type := {
  st_bestMatch : option ImageEmbedding;
  st_bestCosineScore : float;
  st_bestTextScore : float;
  st_method : method;
  st_reason : reason
}.

Definition initialState : MatchState :=
  {| st_bestMatch := None; st_bestCosineScore := 0%float;
     st_bestTextScore := 0%float; st_method := none;
     st_reason := NoSuitableMatch |}.

(** The vegetarian flag of an image: the catalog's when present, else
    detected from its url, name and description. *)
Definition imageIsVegetarian (image : ImageEmbedding) : bool :=
  match img_isVegetarian image with
  | Some flag => flag
  | None =>
      detectImageVegetarian (img_url image) (default "" (img_name image))
        (img_description image)
  end.

(** The object [findBestImageMatch] returns. *)
Record MatchResult : Type := {
  bestMatch : option ImageEmbedding;
  cosineScore : float;
  textScore : float;
  matchMethod : method;
  matchReason : reason;
  url : option string
}.

Section Selector.
Variable CONFIG : Config.
Variable cuisineMap : gmap string Cuisine.

(** The assignments of the two branches of the loop body. *)
Definition selectCosine (st : MatchState) (image : ImageEmbedding)
    (cosineScore : float) : MatchState :=
  {| st_bestMatch := Some image;
     st_bestCosineScore := cosineScore;
     st_bestTextScore := st_bestTextScore st;
     st_method := cosine;
     st_reason := CosineReason cosineScore (COSINE_SIMILARITY_THRESHOLD CONFIG) |}.

Definition selectText (st : MatchState) (image : ImageEmbedding)
    (textScore : float) : MatchState :=
  {| st_bestMatch := Some image;
     st_bestCosineScore := st_bestCosineScore st;
     st_bestTextScore := textScore;
     st_method := text;
     st_reason := TextReason textScore (TEXT_SIMILARITY_THRESHOLD CONFIG) |}.

(** One iteration of the [for ... of imageEmbeddings] loop. *)
Definition matchStep (mealName : string) (mealEmbedding : list float)
    (mealIsVegetarian : bool) (st : MatchState) (image : ImageEmbedding)
  : result MatchState :=
  if mealIsVegetarian && negb (imageIsVegetarian image) then Ok st
  else
    bind (calculateCosineSimilarity mealEmbedding (img_embedding image))
      (fun cosineScore =>
         let textScore := calculateTextSimilarity mealName (default "" (img_name image)) in
         if (COSINE_SIMILARITY_THRESHOLD CONFIG <=? cosineScore)%float
            && (st_bestCosineScore st <? cosineScore)%float
         then Ok (selectCosine st image cosineScore)
         else if negb (method_eqb (st_method st) cosine)
                 && (TEXT_SIMILARITY_THRESHOLD CONFIG <=? textScore)%float
                 && (st_bestTextScore st <? textScore)%float
         then Ok (selectText st image textScore)
         else Ok st).

Fixpoint matchLoop (mealName : string) (mealEmbedding : list float)
    (mealIsVegetarian : bool) (imageEmbeddings : list ImageEmbedding)
    (st : MatchState) : result MatchState :=
  match imageEmbeddings with
  | [] => Ok st
  | image :: rest =>
      bind (matchStep mealName mealEmbedding mealIsVegetarian st image)
        (matchLoop mealName mealEmbedding mealIsVegetarian rest)
  end.

(** The result object is built after the loop; its [url] field reads
    [cuisineMap[bestMatch.name].imageUrl], which throws when [bestMatch] is
    [null] and when the property read gives [undefined]. *)
Definition findBestImageMatch (mealName : string) (mealEmbedding : list float)
    (mealIsVegetarian : bool) (imageEmbeddings : list ImageEmbedding)
  : result MatchResult :=
  bind (matchLoop mealName mealEmbedding mealIsVegetarian imageEmbeddings initialState)
    (fun st =>
       let build (url : option string) :=
         {| bestMatch := st_bestMatch st;
            cosineScore := st_bestCosineScore st;
            textScore := st_bestTextScore st;
            matchMethod := st_method st;
            matchReason := st_reason st;
            url := url |} in
       match st_bestMatch st with
       | None => Err (TypeErrorOfNull "name")
       | Some image =>
           match getProperty cuisineMap (propertyKey (img_name image)) with
           | OwnCuisine cuisine => Ok (build (Some (cuisine_imageUrl cuisine)))
           | InheritedValue => Ok (build None)
           | Undefined => Err (TypeErrorOfUndefined "imageUrl")
           end
       end).

End Selector.

End Matching.

(** ** index.js: batch processing and the handler *)

Module Orchestrator.
Import JsString VegetarianDetection Similarity Matching.

(** A meal id: [request_<index>_<Date.now()>] for a requested meal, the
    store's string otherwise. *)
Inductive mealId : Type :=
  | RequestMealId (index : nat)
  | StoredMealId (id : string).

Record Meal : Type := {
  meal_id : mealId;
  meal_name : string;
  meal_isVegetarian : bool;
  meal_description : string;
  meal_cuisine : string;
  meal_day : option string;
  meal_mealType : option string;
  meal_weekStartDate : option string;
  meal_userId : option string;
  meal_originalDocId : option string
}.

(** One entry of the [results] array; a field the entry does not have is
    [None], as is a field holding [null]. *)
Record MappingResult : Type := {
  r_mealId : mealId;
  r_mealName : string;
  r_imageUrl : option string;
  r_imageName : option string;
  r_cosineScore : option float;
  r_textScore : option float;
  r_method : method;
  r_reason : option reason;
  r_error : option exn;
  r_mealIsVegetarian : option bool;
  r_imageIsVegetarian : option bool;
  r_day : option string;
  r_mealType : option string;
  r_weekStartDate : option string;
  r_userId : option string;
  r_originalDocId : option string
}.

(** [x || null] on an optional string. *)
Definition orNull (x : option string) : option string :=
  match x with
  | Some s => if truthy s then Some s else None
  | None => None
  end.

(** The entry pushed by the [try] block. *)
Definition matchedResult (meal : Meal) (matchResult : MatchResult) : MappingResult :=
  {| r_mealId := meal_id meal;
     r_mealName := meal_name meal;
     r_imageUrl := orNull (url matchResult);
     r_imageName := orNull (bestMatch matchResult ≫= img_name);
     r_cosineScore := Some (cosineScore matchResult);
     r_textScore := Some (textScore matchResult);
     r_method := matchMethod matchResult;
     r_reason := Some (matchReason matchResult);
     r_error := None;
     r_mealIsVegetarian := Some (meal_isVegetarian meal);
     r_imageIsVegetarian := imageIsVegetarian <$> bestMatch matchResult;
     r_day := orNull (meal_day meal);
     r_mealType := orNull (meal_mealType meal);
     r_weekStartDate := orNull (meal_weekStartDate meal);
     r_userId := orNull (meal_userId meal);
     r_originalDocId := orNull (meal_originalDocId meal) |}.

(** The entry pushed by the [catch] block; [error] stands for its
    message. *)
Definition errorResult (meal : Meal) (e : exn) : MappingResult :=
  {| r_mealId := meal_id meal;
     r_mealName := meal_name meal;
     r_imageUrl := None;
     r_imageName := None;
     r_cosineScore := None;
     r_textScore := None;
     r_method := error;
     r_reason := None;
     r_error := Some e;
     r_mealIsVegetarian := None;
     r_imageIsVegetarian := None;
     r_day := orNull (meal_day meal);
     r_mealType := orNull (meal_mealType meal);
     r_weekStartDate := orNull (meal_weekStartDate meal);
     r_userId := orNull (meal_userId meal);
     r_originalDocId := orNull (meal_originalDocId meal) |}.

(** An element of the [mealNames] array: a string, or a value that the
    template literal [`${mealName} ...`] cannot convert to a string, such as
    an object whose [toString] and [valueOf] are no functions. The elements
    of other types (numbers, booleans, [null], objects that convert) are
    left out. *)
Inductive requestedName : Type :=
  | NameString (mealName : string)
  | NameUnconvertible.

(** [processRequestMeals]: [mealNames.map(...)], from the element of index
    [index] on. The [TypeError] that [detectMealVegetarian] throws on an
    unconvertible element ends the [map]; the [catch] logs and rethrows
    it. *)
Fixpoint processRequestMealsFrom (index : nat) (mealNames : list requestedName)
  : result (list Meal) :=
  match mealNames with
  | [] => Ok []
  | NameUnconvertible :: _ =>
      Err (ErrorMessage "Cannot convert object to primitive value")
  | NameString mealName :: rest =>
      let meal :=
        {| meal_id := RequestMealId index;
           meal_name := mealName;
           meal_isVegetarian := detectMealVegetarian mealName "";
           meal_description := "Requested meal: " ++ mealName;
           meal_cuisine := "Indian";
           meal_day := None; meal_mealType := None; meal_weekStartDate := None;
           meal_userId := None; meal_originalDocId := None |} in
      bind (processRequestMealsFrom (S index) rest) (fun meals => Ok (meal :: meals))
  end.

Definition processRequestMeals (mealNames : list requestedName) : result (list Meal) :=
  processRequestMealsFrom 0 mealNames.

(** [event.body]: absent (or the empty string), a text on which
    [JSON.parse] or the read of [mealNames] throws, or a parsed value;
    [mealNames] is [None] unless the property holds an array. *)
Inductive requestBody : Type :=
  | NoBody
  | Unparsable
  | Parsed (mealNames : option (list requestedName)).

Inductive mode : Type := fetch | request.

Inductive responseBody : Type :=
  | NothingToProcess (message : string) (mode : mode) (processedCount : nat)
  | Completed (message : string) (mode : mode) (processedCount : nat)
      (successfulMappings : nat) (results : list MappingResult)
      (mealImageMappings : option (gmap string string))
  | Failed (error : exn) (mode : mode) (processedCount : nat).

Record Response : Type := {
  statusCode : Z;
  body : responseBody
}.

(** [r.imageUrl && r.method !== 'error'] *)
Definition isMapped (r : MappingResult) : bool :=
  match r_imageUrl r with
  | Some _ => negb (method_eqb (r_method r) error)
  | None => false
  end.

(** The external world: the embedding provider, the document store, the
    blob store and the invocation's clock. Every call takes the world and
    returns the next one. *)
Section Handler.
Context {World : Type}.
Variable generateMealEmbedding : string -> World -> result (list float) * World.
Variable fetchUnmappedMeals : World -> result (list Meal) * World.
Variable addDoc : MappingResult -> World -> result unit * World.
Variable getRemainingTimeInMillis : World -> Z * World.
Variable fetchCuisines : World -> option (list Cuisine) * World.
Variable loadEmbeddings : World -> result (list ImageEmbedding) * World.
Variable CONFIG : Config.

(** The body of the [for ... of meals] loop: the [try] and its [catch]. *)
Definition processMeal (cuisineMap : gmap string Cuisine)
    (imageEmbeddings : list ImageEmbedding) (meal : Meal) (w : World)
  : MappingResult * World :=
  let '(embedding, w) := generateMealEmbedding (meal_name meal) w in
  match embedding with
  | Err e => (errorResult meal e, w)
  | Ok mealEmbedding =>
      match findBestImageMatch CONFIG cuisineMap (meal_name meal) mealEmbedding
              (meal_isVegetarian meal) imageEmbeddings with
      | Ok matchResult => (matchedResult meal matchResult, w)
      | Err e => (errorResult meal e, w)
      end
  end.

Fixpoint processMealBatch (cuisineMap : gmap string Cuisine) (meals : list Meal)
    (imageEmbeddings : list ImageEmbedding) (w : World)
  : list MappingResult * World :=
  match meals with
  | [] => ([], w)
  | meal :: rest =>
      let '(r, w) := processMeal cuisineMap imageEmbeddings meal w in
      let '(rs, w) := processMealBatch cuisineMap rest imageEmbeddings w in
      (r :: rs, w)
  end.

(** [updateFirestoreMappings]: one document per mapped result; the first
    failing write is rethrown. *)
Fixpoint updateFirestoreMappings (results : list MappingResult) (w : World)
  : result unit * World :=
  match results with
  | [] => (Ok tt, w)
  | r :: rest =>
      if isMapped r then
        let '(written, w) := addDoc r w in
        match written with
        | Ok _ => updateFirestoreMappings rest w
        | Err e => (Err e, w)
        end
      else updateFirestoreMappings rest w
  end.

(** [array.slice(start, end)]: a negative index counts from the end of the
    array, and either index is clamped to the array. *)
Definition slice {A : Type} (array : list A) (start stop : Z) : list A :=
  let len := Z.of_nat (length array) in
  let from := if (start <? 0)%Z then Z.max (len + start) 0 else Z.min start len in
  let to := if (stop <? 0)%Z then Z.max (len + stop) 0 else Z.min stop len in
  take (Z.to_nat (to - from)) (drop (Z.to_nat from) array).

(** The batch loop of the handler,
    [for (let i = 0; i < mealsToProcess.length; i += batchSize)], from the
    test of [i] on. The outcome is the results so far and [processedCount],
    or the exception of a failed write with the [processedCount] reached.
    [fuel] is the number of iterations the loop is followed for; [None]
    tells that it is still running after them. *)
Fixpoint batchLoop (fuel : nat) (cuisineMap : gmap string Cuisine)
    (imageEmbeddings : list ImageEmbedding) (mealsToProcess : list Meal) (i : Z)
    (allResults : list MappingResult) (processedCount : nat) (w : World)
  : option ((list MappingResult * nat + exn * nat) * World) :=
  if (i <? Z.of_nat (length mealsToProcess))%Z then
    match fuel with
    | O => None
    | S fuel =>
        let '(remainingTime, w) := getRemainingTimeInMillis w in
        if (remainingTime <? 30000)%Z then Some (inl (allResults, processedCount), w)
        else
          let batchSize := MAX_MEALS_PER_BATCH CONFIG in
          let batch := slice mealsToProcess i (i + batchSize) in
          let '(batchResults, w) := processMealBatch cuisineMap batch imageEmbeddings w in
          let allResults := allResults ++ batchResults in
          let processedCount := processedCount + length batch in
          let '(updated, w) := updateFirestoreMappings batchResults w in
          match updated with
          | Err e => Some (inr (e, processedCount), w)
          | Ok _ =>
              batchLoop fuel cuisineMap imageEmbeddings mealsToProcess (i + batchSize)
                allResults processedCount w
          end
    end
  else Some (inl (allResults, processedCount), w).

(** The module-level [cuisineMap] and [imageEmbeddings]: [None] until an
    invocation has loaded both. *)
Definition Globals : Type := option (gmap string Cuisine * list ImageEmbedding).

(** [mealImageMappings], a plain object: the assignment of a string to
    its [__proto__] stores nothing. *)
Definition mealImageMappingsOf (allResults : list MappingResult) : gmap string string :=
  fold_left
    (fun mappings r =>
       match r_imageUrl r with
       | Some imageUrl =>
           if isMapped r && negb (String.eqb (r_mealName r) "__proto__")
           then <[r_mealName r := imageUrl]> mappings else mappings
       | None => mappings
       end)
    allResults ∅.

(** The part of the handler after the catalog is loaded. When
    [processRequestMeals] throws, the [catch] around [JSON.parse] takes the
    exception after [mode] was set to [request], and [mealsToProcess] stays
    empty. *)
Definition handleLoaded (fuel : nat) (eventBody : requestBody)
    (cuisineMap : gmap string Cuisine) (imageEmbeddings : list ImageEmbedding)
    (w : World) : option (Response * World) :=
  let '(mode, requested) :=
    match eventBody with
    | Parsed (Some (mealName :: mealNames)) =>
        (request,
         match processRequestMeals (mealName :: mealNames) with
         | Ok meals => meals
         | Err _ => []
         end)
    | _ => (fetch, [])
    end in
  let '(resolved, w) :=
    match mode with
    | fetch => fetchUnmappedMeals w
    | request => (Ok requested, w)
    end in
  match resolved with
  | Err e => Some ({| statusCode := 500; body := Failed e mode 0 |}, w)
  | Ok [] =>
      let message :=
        match mode with
        | request => "No meal names provided in request"
        | fetch => "No unmapped meals found"
        end in
      Some ({| statusCode := 200; body := NothingToProcess message mode 0 |}, w)
  | Ok mealsToProcess =>
      match batchLoop fuel cuisineMap imageEmbeddings mealsToProcess 0 [] 0 w with
      | None => None
      | Some (inr (e, processedCount), w) =>
          Some ({| statusCode := 500; body := Failed e mode processedCount |}, w)
      | Some (inl (allResults, processedCount), w) =>
          let successfulMappings := length (filter (fun r => isMapped r = true) allResults) in
          let mealImageMappings :=
            match mode with
            | request => Some (mealImageMappingsOf allResults)
            | fetch => None
            end in
          Some ({| statusCode := 200;
                   body := Completed "Meal-image mapping completed" mode processedCount
                             successfulMappings allResults mealImageMappings |}, w)
      end
  end.

(** [exports.handler], followed for [fuel] iterations of its batch
    loop. *)
Definition handler (fuel : nat) (eventBody : requestBody) (globals : Globals) (w : World)
  : option (Response * Globals * World) :=
  match globals with
  | Some (cuisineMap, imageEmbeddings) =>
      match handleLoaded fuel eventBody cuisineMap imageEmbeddings w with
      | Some (response, w) => Some (response, globals, w)
      | None => None
      end
  | None =>
      let '(cuisines, w) := fetchCuisines w in
      let '(embeddings, w) := loadEmbeddings w in
      match embeddings with
      | Err e => Some ({| statusCode := 500; body := Failed e fetch 0 |}, None, w)
      | Ok imageEmbeddings =>
          let cuisineMap := loadCuisineMap cuisines in
          match handleLoaded fuel eventBody cuisineMap imageEmbeddings w with
          | Some (response, w) => Some (response, Some (cuisineMap, imageEmbeddings), w)
          | None => None
          end
      end
  end.

End Handler.

End Orchestrator.

Import JsString VegetarianDetection Similarity Matching Orchestrator.

(** What a response reports. *)
Definition responseMessage (b : responseBody) : option string :=
  match b with
  | NothingToProcess message _ _ | Completed message _ _ _ _ _ => Some message
  | Failed _ _ _ => None
  end.

Definition responseMode (b : responseBody) : mode :=
  match b with
  | NothingToProcess _ mode _ | Completed _ mode _ _ _ _ | Failed _ mode _ => mode
  end.

Definition responseProcessedCount (b : responseBody) : nat :=
  match b with
  | NothingToProcess _ _ n | Completed _ _ n _ _ _ | Failed _ _ n => n
  end.

(** ** vegetarian-detection.js: validation, catalog filter, confidence *)

Module VegetarianTools.

(** The [reason] of a validation; the first one stands for
    [Vegetarian meal "<mealName>" cannot be mapped to non-vegetarian image
    "<imageUrl>"]. *)
Inductive validationReason : Type :=
  | CannotBeMapped (mealName imageUrl : string)
  | BothVegetarian
  | NonVegetarianMealVegetarianImage
  | BothNonVegetarian.

Record Validation : Type := {
  isValid : bool;
  v_mealIsVegetarian : bool;
  v_imageIsVegetarian : bool;
  v_reason : validationReason
}.

Definition validateVegetarianConstraint
    (mealName mealDescription imageUrl imageName imageDescription : string)
  : Validation :=
  let mealVegetarian := detectMealVegetarian mealName mealDescription in
  let imageVegetarian := detectImageVegetarian imageUrl imageName imageDescription in
  let valid := negb mealVegetarian || imageVegetarian in
  {| isValid := valid;
     v_mealIsVegetarian := mealVegetarian;
     v_imageIsVegetarian := imageVegetarian;
     v_reason :=
       if negb valid then CannotBeMapped mealName imageUrl
       else if mealVegetarian && imageVegetarian then BothVegetarian
       else if negb mealVegetarian && imageVegetarian then NonVegetarianMealVegetarianImage
       else BothNonVegetarian |}.

(** An image as [filterImagesByVegetarianConstraint] returns it: the record
    with its [isVegetarian] set, and the detected flag beside it. *)
Record FilteredImage : Type := {
  f_image : ImageEmbedding;
  detectedVegetarian : bool
}.

(** The [map] step: [{...image, isVegetarian, detectedVegetarian}]. *)
Definition annotate (image : ImageEmbedding) : FilteredImage :=
  let detected :=
    detectImageVegetarian (img_url image) (default "" (img_name image))
      (img_description image) in
  let flag :=
    match img_isVegetarian image with
    | Some catalogFlag => catalogFlag
    | None => detected
    end in
  {| f_image :=
       {| img_name := img_name image; img_url := img_url image;
          img_description := img_description image;
          img_embedding := img_embedding image;
          img_isVegetarian := Some flag |};
     detectedVegetarian := detected |}.

(** [!mealIsVegetarian || image.isVegetarian] *)
Definition allowed (mealVegetarian : bool) (image : FilteredImage) : bool :=
  negb mealVegetarian || default false (img_isVegetarian (f_image image)).

Definition filterImagesByVegetarianConstraint (images : list ImageEmbedding)
    (mealName mealDescription : string) : list FilteredImage :=
  let mealVegetarian := detectMealVegetarian mealName mealDescription in
  filter (fun image => allowed mealVegetarian image = true) (map annotate images).

(** One counting loop of [getVegetarianConfidence]: [score] and
    [totalIndicators] grow together, by [weight] per indicator found. *)
Definition confidenceLoop (lowerText : string) (weight : nat)
    (indicators : list string) (counters : nat * nat) : nat * nat :=
  fold_left
    (fun '(score, totalIndicators) indicator =>
       if includes lowerText indicator
       then (score + weight, totalIndicators + weight)
       else (score, totalIndicators))
    indicators counters.

Definition confidenceCounters (text : string) (isVegetarian : bool) : nat * nat :=
  let lowerText := toLowerCase text in
  if isVegetarian then
    confidenceLoop lowerText 2 STRONG_VEGETARIAN_INDICATORS
      (confidenceLoop lowerText 1 VEGETARIAN_INDICATORS (0, 0))
  else
    confidenceLoop lowerText 2 STRONG_NON_VEGETARIAN_INDICATORS
      (confidenceLoop lowerText 1 NON_VEGETARIAN_INDICATORS (0, 0)).

Definition getVegetarianConfidence (text : string) (isVegetarian : bool) : float :=
  let '(score, totalIndicators) := confidenceCounters text isVegetarian in
  if (0 <? totalIndicators)%nat then (ofNat score / ofNat totalIndicators)%float
  else 0%float.

End VegetarianTools.

(** ** index.js: the meals [fetchUnmappedMeals] builds from the store *)

Module MealStore.

Inductive day : Type :=
  sunday | monday | tuesday | wednesday | thursday | friday | saturday.

Inductive mealType : Type :=
  breakfast | lunch | dinner | morningSnack | eveningSnack.

Definition days : list day :=
  [sunday; monday; tuesday; wednesday; thursday; friday; saturday].

Definition mealTypes : list mealType :=
  [breakfast; lunch; dinner; morningSnack; eveningSnack].

Definition dayName (d : day) : string :=
  match d with
  | sunday => "sunday" | monday => "monday" | tuesday => "tuesday"
  | wednesday => "wednesday" | thursday => "thursday" | friday => "friday"
  | saturday => "saturday"
  end.

Definition mealTypeName (t : mealType) : string :=
  match t with
  | breakfast => "breakfast" | lunch => "lunch" | dinner => "dinner"
  | morningSnack => "morningSnack" | eveningSnack => "eveningSnack"
  end.

(** The value of [mealData.meals[day][mealType]]: a string, an object with
    its [name] (empty when absent), or anything else. *)
Inductive mealItem : Type :=
  | ItemString (s : string)
  | ItemObject (name : string)
  | ItemOther.

(** The data of a document of [mealPlans]: the weekly plan ([None] when
    [meals] is falsy, and per day when the day is), the fields of the legacy
    format, and the fields a legacy document may carry that the spread
    [...mealData] copies over the ones just built. *)
Record MealData : Type := {
  md_meals : option (day -> option (mealType -> mealItem));
  md_name : string;
  md_description : string;
  md_cuisine : string;
  md_weekStartDate : option string;
  md_userId : option string;
  md_id : option string;
  md_isVegetarian : option bool;
  md_day : option string;
  md_mealType : option string;
  md_originalDocId : option string
}.

(** The set of [mealName]s of [mealImageMappings]; a document without one
    contributes nothing. *)
Definition existingMappings (mealNames : list string) : gset string :=
  list_to_set (filter (fun mealName => truthy mealName = true) mealNames).

Definition itemName (item : mealItem) : option string :=
  match item with
  | ItemString s => Some s
  | ItemObject name => if truthy name then Some name else None
  | ItemOther => None
  end.

(** The meal of one slot of a weekly plan, when it has a name that is not
    mapped yet. *)
Definition slotMeal (existing : gset string) (docId : string) (data : MealData)
    (d : day) (t : mealType) (item : mealItem) : list Meal :=
  match itemName item with
  | None => []
  | Some mealName =>
      if truthy mealName && negb (bool_decide (mealName ∈ existing)) then
        [{| meal_id := StoredMealId (docId ++ "_" ++ dayName d ++ "_" ++ mealTypeName t);
            meal_name := mealName;
            meal_isVegetarian := detectMealVegetarian mealName "";
            meal_description := mealTypeName t ++ " for " ++ dayName d;
            meal_cuisine := "Indian";
            meal_day := Some (dayName d);
            meal_mealType := Some (mealTypeName t);
            meal_weekStartDate := md_weekStartDate data;
            meal_userId := md_userId data;
            meal_originalDocId := Some docId |}]
      else []
  end.

(** The meal of a document in the legacy format. *)
Definition legacyMeal (docId : string) (data : MealData) : Meal :=
  {| meal_id := StoredMealId (default docId (md_id data));
     meal_name := md_name data;
     meal_isVegetarian :=
       default (detectMealVegetarian (md_name data) (md_description data))
         (md_isVegetarian data);
     meal_description := md_description data;
     meal_cuisine := md_cuisine data;
     meal_day := md_day data;
     meal_mealType := md_mealType data;
     meal_weekStartDate := md_weekStartDate data;
     meal_userId := md_userId data;
     meal_originalDocId := md_originalDocId data |}.

Definition documentMeals (existing : gset string) (doc : string * MealData) : list Meal :=
  let '(docId, data) := doc in
  match md_meals data with
  | Some plan =>
      flat_map
        (fun d =>
           match plan d with
           | Some dayPlan =>
               flat_map (fun t => slotMeal existing docId data d t (dayPlan t)) mealTypes
           | None => []
           end)
        days
  | None =>
      if truthy (md_name data) && negb (bool_decide (md_name data ∈ existing))
      then [legacyMeal docId data] else []
  end.

(** [unmappedMeals] as [fetchUnmappedMeals] fills it from the two
    snapshots: [docs] are the documents of [mealPlans] with their ids,
    [mappedNames] the [mealName] fields of [mealImageMappings]. *)
Definition unmappedMealsOf (docs : list (string * MealData))
    (mappedNames : list string) : list Meal :=
  flat_map (documentMeals (existingMappings mappedNames)) docs.

End MealStore.

(** ** Relating the selector to a catalog filtered beforehand *)

Module Resolved.
Import VegetarianTools.

(** The image record as the catalog filter hands it on. *)
Definition resolveImage (image : ImageEmbedding) : ImageEmbedding :=
  f_image (annotate image).

Definition resolveState (st : MatchState) : MatchState :=
  {| st_bestMatch := resolveImage <$> st_bestMatch st;
     st_bestCosineScore := st_bestCosineScore st;
     st_bestTextScore := st_bestTextScore st;
     st_method := st_method st;
     st_reason := st_reason st |}.

Definition resolveResult (r : MatchResult) : MatchResult :=
  {| bestMatch := resolveImage <$> bestMatch r;
     cosineScore := cosineScore r;
     textScore := textScore r;
     matchMethod := matchMethod r;
     matchReason := matchReason r;
     url := url r |}.

Definition mapResult {A B : Type} (f : A -> B) (r : result A) : result B :=
  match r with
  | Ok a => Ok (f a)
  | Err e => Err e
  end.

(** The images the loop of [findBestImageMatch] does not skip. *)
Definition kept (mealIsVegetarian : bool) (image : ImageEmbedding) : bool :=
  negb (mealIsVegetarian && negb (imageIsVegetarian image)).

(** What the scores and the reason of a state say of its best match:
    under the method [cosine] they are the cosine score of the image held,
    at or above the threshold; under [text] its text score, at or above the
    text threshold, beside a cosine score still 0; under [none] no image is
    held and both scores are 0. *)
Definition scoresReported (CONFIG : Config) (mealName : string)
    (mealEmbedding : list float) (st : MatchState) : Prop :=
  match st_method st with
  | none =>
      st_bestMatch st = None /\ st_bestCosineScore st = 0%float
      /\ st_bestTextScore st = 0%float /\ st_reason st = NoSuitableMatch
  | cosine =>
      exists image,
        st_bestMatch st = Some image
        /\ calculateCosineSimilarity mealEmbedding (img_embedding image)
           = Ok (st_bestCosineScore st)
        /\ (COSINE_SIMILARITY_THRESHOLD CONFIG <=? st_bestCosineScore st)%float = true
        /\ st_reason st
           = CosineReason (st_bestCosineScore st) (COSINE_SIMILARITY_THRESHOLD CONFIG)
  | text =>
      exists image,
        st_bestMatch st = Some image
        /\ st_bestTextScore st
           = calculateTextSimilarity mealName (default "" (img_name image))
        /\ (TEXT_SIMILARITY_THRESHOLD CONFIG <=? st_bestTextScore st)%float = true
        /\ st_bestCosineScore st = 0%float
        /\ st_reason st
           = TextReason (st_bestTextScore st) (TEXT_SIMILARITY_THRESHOLD CONFIG)
  | error => False
  end.

End Resolved.

(** ** Sample data *)

Module Samples.

Definition image (name : string) (embedding : list float) (isVegetarian : bool)
  : ImageEmbedding :=
  {| img_name := Some name; img_url := "https://cdn.example/" ++ name;
     img_description := ""; img_embedding := embedding;
     img_isVegetarian := Some isVegetarian |}.

Definition mealEmbedding : list float := [1%float; 0%float].

Definition dalImage : ImageEmbedding := image "Dal" [(-1)%float; 5%float] true.
Definition paneerImage : ImageEmbedding := image "Paneer Tikka" [1%float; 0%float] true.
Definition chickenImage : ImageEmbedding := image "Chicken Curry" [1%float; 0%float] false.
Definition constructorImage : ImageEmbedding := image "constructor" [1%float; 0%float] true.
Definition shortImage : ImageEmbedding := image "Chicken Curry" [1%float] false.

Definition cuisineOf (name : string) : Cuisine :=
  {| cuisine_name := name; cuisine_imageUrl := "https://img.example/" ++ name |}.

Definition cuisines : gmap string Cuisine :=
  loadCuisineMap (Some [cuisineOf "Dal"; cuisineOf "Paneer Tikka"; cuisineOf "Chicken Curry"]).

(** A threshold of [-0.5] set through the environment. *)
Definition negativeConfig : Config := makeConfig (-0.5)%float nan None.

Definition meal (name : string) : Meal :=
  {| meal_id := StoredMealId name; meal_name := name;
     meal_isVegetarian := detectMealVegetarian name "";
     meal_description := ""; meal_cuisine := "";
     meal_day := None; meal_mealType := None; meal_weekStartDate := None;
     meal_userId := None; meal_originalDocId := None |}.

(** A world without state: the embedding provider fails on the name
    ["Bad"] and answers [mealEmbedding] otherwise, the store holds one
    unmapped meal, every write succeeds and five minutes remain. *)
Definition generateMealEmbedding (mealName : string) (w : unit)
  : result (list float) * unit :=
  (if String.eqb mealName "Bad" then Err (ErrorMessage "OpenAI API error: 500")
   else Ok mealEmbedding, w).

Definition fetchUnmappedMeals (w : unit) : result (list Meal) * unit :=
  (Ok [meal "Paneer Tikka"], w).

Definition fetchNoMeals (w : unit) : result (list Meal) * unit := (Ok [], w).

Definition addDoc (r : MappingResult) (w : unit) : result unit * unit := (Ok tt, w).

Definition getRemainingTimeInMillis (w : unit) : Z * unit := (300000%Z, w).

Definition fetchCuisines (w : unit) : option (list Cuisine) * unit :=
  (Some [cuisineOf "Dal"; cuisineOf "Paneer Tikka"; cuisineOf "Chicken Curry"], w).

Definition loadEmbeddings (w : unit) : result (list ImageEmbedding) * unit :=
  (Ok [dalImage; paneerImage; chickenImage], w).

End Samples.

(** * Properties *)

(** ** String primitives *)

Lemma append_cons (c : ascii) (s t : string) :
  (String c s ++ t)%string = String c (s ++ t).
Proof. reflexivity. Qed.

Lemma append_empty (t : string) : ("" ++ t)%string = t.
Proof. reflexivity. Qed.

Lemma startsWith_app (indicator post : string) :
  startsWith (indicator ++ post) indicator = true.
Proof.
  induction indicator as [|c k IH]; [reflexivity|].
  rewrite append_cons. cbn [startsWith]. rewrite Ascii.eqb_refl. exact IH.
Qed.

Lemma includes_app (pre indicator post : string) :
  includes (pre ++ indicator ++ post) indicator = true.
Proof.
  induction pre as [|c pre IH].
  - rewrite append_empty.
    destruct indicator; [rewrite append_empty; destruct post; reflexivity|].
    rewrite append_cons. cbn [includes]. rewrite <- append_cons.
    rewrite startsWith_app. reflexivity.
  - rewrite append_cons. cbn [includes]. rewrite IH. apply orb_true_r.
Qed.

(** ** The dietary classifier *)

Lemma classifyText_strong_non_vegetarian (text : string) :
  existsb (includes text) STRONG_NON_VEGETARIAN_INDICATORS = true ->
  classifyText text = false.
Proof. intros H. unfold classifyText. rewrite H. reflexivity. Qed.

Lemma classifyText_counts (text : string) :
  existsb (includes text) STRONG_NON_VEGETARIAN_INDICATORS = false ->
  existsb (includes text) STRONG_VEGETARIAN_INDICATORS = false ->
  classifyText text =
    (countIndicators text NON_VEGETARIAN_INDICATORS
       <=? countIndicators text VEGETARIAN_INDICATORS)%nat.
Proof.
  intros Hnon Hveg. unfold classifyText. rewrite Hnon, Hveg.
  generalize (countIndicators text VEGETARIAN_INDICATORS) as v.
  generalize (countIndicators text NON_VEGETARIAN_INDICATORS) as n.
  intros [|n] [|v]; reflexivity.
Qed.

Lemma detectMealVegetarian_named (mealName description : string) :
  mealName <> "" ->
  detectMealVegetarian mealName description =
    classifyText (mealText mealName description).
Proof.
  intros Hname. unfold detectMealVegetarian.
  destruct mealName; [contradiction|reflexivity].
Qed.

(** C7, as the claim states it, fails on a meal without a name: the guard
    [if (!mealName) return true] answers before the text is built, so a
    strong non-vegetarian keyword in the description is never looked at. *)
Lemma detectMealVegetarian_unnamed_counterexample :
  existsb (includes (mealText "" "chicken curry"))
    STRONG_NON_VEGETARIAN_INDICATORS = true
  /\ detectMealVegetarian "" "chicken curry" = true.
Proof. split; vm_compute; reflexivity. Qed.

(** C7 (amended): for a non-empty meal name, [detectMealVegetarian] decides
    on the lower-cased text [name ++ " " ++ description]: a strong
    non-vegetarian keyword gives [false], also when a strong vegetarian
    keyword is present; when neither strong list matches, the answer is
    [true] exactly when the vegetarian count is at least the non-vegetarian
    count (ties, and two zero counts, give [true]); and the three named
    meals are classified as the claim says. *)
Theorem detectMealVegetarian_spec (mealName description : string) :
  mealName <> "" ->
  (existsb (includes (mealText mealName description))
     STRONG_NON_VEGETARIAN_INDICATORS = true ->
   detectMealVegetarian mealName description = false)
  /\ (existsb (includes (mealText mealName description))
        STRONG_NON_VEGETARIAN_INDICATORS = false ->
      existsb (includes (mealText mealName description))
        STRONG_VEGETARIAN_INDICATORS = false ->
      detectMealVegetarian mealName description =
        (countIndicators (mealText mealName description) NON_VEGETARIAN_INDICATORS
           <=? countIndicators (mealText mealName description) VEGETARIAN_INDICATORS)%nat)
  /\ detectMealVegetarian "Chicken Biryani" "" = false
  /\ detectMealVegetarian "Dal Makhani" "" = true
  /\ detectMealVegetarian "Unknown Dish XYZ" "" = true
  /\ detectMealVegetarian "Vegetarian Chicken Curry" "" = false.
Proof.
  intros Hname. rewrite (detectMealVegetarian_named _ _ Hname).
  split; [apply classifyText_strong_non_vegetarian|].
  split; [apply classifyText_counts|].
  repeat split; vm_compute; reflexivity.
Qed.

Lemma detectMealVegetarian_spec_witness :
  detectMealVegetarian "Chicken Tikka" "with rice" = false
  /\ detectMealVegetarian "Lamb Rice Bowl" "" =
       (countIndicators (mealText "Lamb Rice Bowl" "") NON_VEGETARIAN_INDICATORS
          <=? countIndicators (mealText "Lamb Rice Bowl" "") VEGETARIAN_INDICATORS)%nat.
Proof.
  destruct (detectMealVegetarian_spec "Chicken Tikka" "with rice")
    as (Hstrong & _); [discriminate|].
  destruct (detectMealVegetarian_spec "Lamb Rice Bowl" "")
    as (_ & Hcount & _); [discriminate|].
  split.
  - apply Hstrong. vm_compute. reflexivity.
  - apply Hcount; vm_compute; reflexivity.
Defined.

(** C10, as the claim states it, fails on a meal without a name: the text
    [" eggplant"] holds the strong indicator [egg] inside a longer word, and
    the guard on the empty name answers [true]. *)
Lemma strong_substring_unnamed_counterexample :
  mealText "" "eggplant" = (" " ++ "egg" ++ "plant")%string
  /\ In "egg" STRONG_NON_VEGETARIAN_INDICATORS
  /\ detectMealVegetarian "" "eggplant" = true.
Proof. repeat split; vm_compute; auto 20. Qed.

(** C10 (amended): for a non-empty meal name, a strong non-vegetarian
    indicator found anywhere in the lower-cased text, also inside a longer
    word, gives [false]; so "Eggplant Curry" is classified non-vegetarian
    through [egg], although [eggplant] is a vegetarian indicator. *)
Theorem strong_indicator_is_substring_match
    (mealName description pre indicator post : string) :
  mealName <> "" ->
  In indicator STRONG_NON_VEGETARIAN_INDICATORS ->
  mealText mealName description = (pre ++ indicator ++ post)%string ->
  detectMealVegetarian mealName description = false
  /\ detectMealVegetarian "Eggplant Curry" "" = false
  /\ In "eggplant" VEGETARIAN_INDICATORS.
Proof.
  intros Hname Hin Htext. split.
  - rewrite (detectMealVegetarian_named _ _ Hname).
    apply classifyText_strong_non_vegetarian.
    apply existsb_exists. exists indicator. split; [exact Hin|].
    rewrite Htext. apply includes_app.
  - split; [vm_compute; reflexivity|].
    vm_compute. do 38 right. left. reflexivity.
Qed.

Lemma strong_indicator_is_substring_match_witness :
  detectMealVegetarian "Fishball Soup" "" = false
  /\ detectMealVegetarian "Eggplant Curry" "" = false
  /\ In "eggplant" VEGETARIAN_INDICATORS.
Proof.
  apply (strong_indicator_is_substring_match "Fishball Soup" "" "" "fish" "ball soup ").
  - discriminate.
  - vm_compute. auto 20.
  - reflexivity.
Defined.

(** ** The text scorer *)

Section SetModel.
Implicit Types (set words : list string) (w x : string).

Lemma elem_of_add set w x : x ∈ add set w <-> x ∈ set \/ x = w.
Proof.
  unfold add, has. case_bool_decide as Hin.
  - split; [auto|]. intros [H | ->]; assumption.
  - rewrite elem_of_app, list_elem_of_singleton. reflexivity.
Qed.

Lemma NoDup_add set w : NoDup set -> NoDup (add set w).
Proof.
  intros Hnd. unfold add, has. case_bool_decide as Hin; [exact Hnd|].
  apply NoDup_app. split; [exact Hnd|]. split.
  - intros x Hx Hw. apply list_elem_of_singleton in Hw as ->. contradiction.
  - apply NoDup_singleton.
Qed.

Lemma fold_add_spec words set :
  NoDup set ->
  NoDup (fold_left add words set)
  /\ forall x, x ∈ fold_left add words set <-> x ∈ set \/ x ∈ words.
Proof.
  revert set. induction words as [|w words IH]; intros set Hnd; cbn [fold_left].
  - split; [exact Hnd|]. intros x. rewrite elem_of_nil. tauto.
  - destruct (IH (add set w) (NoDup_add _ _ Hnd)) as [Hnd' Hin].
    split; [exact Hnd'|]. intros x.
    rewrite Hin, elem_of_add, elem_of_cons. tauto.
Qed.

Lemma NoDup_newSet words : NoDup (newSet words).
Proof. apply fold_add_spec, NoDup_nil_2. Qed.

Lemma elem_of_newSet words x : x ∈ newSet words <-> x ∈ words.
Proof.
  unfold newSet. destruct (fold_add_spec words [] (NoDup_nil_2)) as [_ H].
  rewrite H, elem_of_nil. tauto.
Qed.

Lemma list_to_set_newSet words :
  (list_to_set (newSet words) : gset string) = list_to_set words.
Proof.
  apply set_eq. intros x. rewrite !elem_of_list_to_set. apply elem_of_newSet.
Qed.

(** The size of a JavaScript [Set] built from a list is the number of
    distinct elements of the list. *)
Lemma length_newSet words :
  length (newSet words) = size (list_to_set words : gset string).
Proof.
  rewrite <- list_to_set_newSet. symmetry.
  apply size_list_to_set, NoDup_newSet.
Qed.

Lemma intersection_newSet words1 words2 :
  (list_to_set (filter (fun word => has (newSet words2) word = true) (newSet words1))
     : gset string)
  = list_to_set words1 ∩ list_to_set words2.
Proof.
  apply set_eq. intros x.
  rewrite elem_of_intersection, !elem_of_list_to_set, list_elem_of_filter.
  unfold has. rewrite bool_decide_eq_true, !elem_of_newSet. tauto.
Qed.

Lemma union_newSet words1 words2 :
  (list_to_set (newSet words1 ++ newSet words2) : gset string)
  = list_to_set words1 ∪ list_to_set words2.
Proof.
  rewrite list_to_set_app_L, !list_to_set_newSet. reflexivity.
Qed.

Lemma list_to_set_cons_nonempty w words :
  (list_to_set (w :: words) : gset string) <> ∅.
Proof. cbn [list_to_set foldr]. set_solver. Qed.

End SetModel.

Lemma calculateTextSimilarity_eq_jaccard (text1 text2 : string) :
  calculateTextSimilarity text1 text2 =
    jaccardIndex (wordSet text1) (wordSet text2).
Proof.
  unfold calculateTextSimilarity, jaccardIndex, wordSet.
  rewrite !length_newSet, intersection_newSet, union_newSet.
  destruct (normalize text1) as [|w1 words1], (normalize text2) as [|w2 words2];
    cbn [length Nat.eqb andb orb].
  - rewrite decide_True; [reflexivity | split; reflexivity].
  - rewrite decide_False, decide_True; [reflexivity | left; reflexivity |].
    intros [_ H]. exact (list_to_set_cons_nonempty _ _ H).
  - rewrite decide_False, decide_True; [reflexivity | right; reflexivity |].
    intros [H _]. exact (list_to_set_cons_nonempty _ _ H).
  - rewrite !decide_False; [reflexivity | |].
    + intros [H | H]; exact (list_to_set_cons_nonempty _ _ H).
    + intros [H _]. exact (list_to_set_cons_nonempty _ _ H).
Qed.

(** The code's normalization against the one-pass reading. *)

Lemma eqb_long_single (a b c : ascii) (r : string) :
  String.eqb (String a (String b r)) (String c "") = false.
Proof. cbn. destruct (Ascii.eqb a c); reflexivity. Qed.

Lemma member_whiteSpace_long (a b : ascii) (r : string) :
  member (String a (String b r)) whiteSpace
  = member (String a (String b r)) unicodeWhiteSpace.
Proof.
  unfold whiteSpace, member. rewrite existsb_app.
  cbn [map ofBytes fold_right existsb]. rewrite !eqb_long_single. reflexivity.
Qed.

(** What lower-casing and stripping leave of one character, by its kind. *)
Lemma stripChars_lowerCharacter (c : string) :
  match kindOf c with
  | WordCharacter a =>
      stripChars (lowerCharacter c) = [String a ""]
      /\ wordChar a = true
      /\ isWhiteSpace (String a "") = false
      /\ kindOf (String a "") = WordCharacter a
  | Separator =>
      exists ws, stripChars (lowerCharacter c) = [ws]
                 /\ isWhiteSpace ws = true /\ kindOf ws = Separator
  | Ignored => stripChars (lowerCharacter c) = []
  end.
Proof.
  destruct c as [|a [|b r]].
  - reflexivity.
  - destruct a as [[] [] [] [] [] [] [] []]; vm_compute;
      first [ reflexivity
            | repeat split; reflexivity
            | eexists; repeat split; reflexivity ].
  - unfold kindOf, lowerCharacter.
    destruct (String.eqb_spec (String a (String b r)) kelvinSign) as [_|Hk].
    { repeat split; reflexivity. }
    destruct (String.eqb_spec (String a (String b r)) capitalIWithDot) as [_|Hi].
    { repeat split; reflexivity. }
    rewrite member_whiteSpace_long. unfold stripChars.
    rewrite filter_cons, filter_nil. cbn [keptChar isWhiteSpace].
    destruct (member (String a (String b r)) unicodeWhiteSpace) eqn:Hm.
    + rewrite decide_True by reflexivity. eexists. split; [reflexivity|].
      split; [exact Hm|]. unfold kindOf.
      destruct (String.eqb_spec (String a (String b r)) kelvinSign); [contradiction|].
      destruct (String.eqb_spec (String a (String b r)) capitalIWithDot); [contradiction|].
      rewrite member_whiteSpace_long, Hm. reflexivity.
    + rewrite decide_False by discriminate. reflexivity.
Qed.

Section Normalization.

(** A character that lower-casing and stripping leave: white space, or a
    letter or digit. *)
Abbreviation stripped :=
  (fun c : string =>
     (isWhiteSpace c = true /\ kindOf c = Separator)
     \/ (exists a, c = String a "" /\ isWhiteSpace c = false
                   /\ kindOf c = WordCharacter a)).

Lemma stripChars_flat_map (f : string -> list string) (text : list string) :
  stripChars (flat_map f text) = flat_map (fun c => stripChars (f c)) text.
Proof.
  unfold stripChars. induction text as [|c text IH]; [reflexivity|].
  cbn [flat_map]. rewrite filter_app, IH. reflexivity.
Qed.

Lemma wordsFrom_stripped (text : list string) (cur : string) :
  wordsFrom (map kindOf (flat_map (fun c => stripChars (lowerCharacter c)) text)) cur
  = wordsFrom (map kindOf text) cur
  /\ Forall stripped (flat_map (fun c => stripChars (lowerCharacter c)) text).
Proof.
  revert cur. induction text as [|c text IH]; intros cur.
  - split; [reflexivity | apply Forall_nil_2].
  - cbn [flat_map map]. pose proof (stripChars_lowerCharacter c) as Hc.
    destruct (kindOf c) as [a| |].
    + destruct Hc as (-> & _ & Hws & Hkind). cbn [app map]. rewrite Hkind.
      cbn [wordsFrom]. split; [apply IH|].
      apply Forall_cons. split; [|apply (IH cur)].
      right. exists a. auto.
    + destruct Hc as (ws & -> & Hws & Hkind). cbn [app map]. rewrite Hkind.
      cbn [wordsFrom]. split.
      * destruct (truthy cur); [f_equal|]; apply IH.
      * apply Forall_cons. split; [|apply (IH cur)]. left. auto.
    + rewrite Hc. cbn [app wordsFrom]. apply IH.
Qed.

Lemma splitAux_wordsFrom (text : list string) (cur : string) (inSep : bool) :
  Forall stripped text ->
  (inSep = true -> cur = "") ->
  filter (fun word => truthy word = true) (splitAux text cur inSep)
  = wordsFrom (map kindOf text) cur.
Proof.
  intros Hall. revert cur inSep.
  induction Hall as [|c text Hc _ IH]; intros cur inSep Hsep.
  - cbn [splitAux map wordsFrom]. rewrite filter_cons, filter_nil.
    destruct (truthy cur); [rewrite decide_True by reflexivity
                           | rewrite decide_False by discriminate]; reflexivity.
  - cbn [splitAux map].
    destruct Hc as [[Hws Hkind] | (a & -> & Hws & Hkind)]; rewrite Hws, Hkind;
      cbn [wordsFrom].
    + destruct inSep.
      * rewrite (Hsep eq_refl). cbn [truthy]. apply IH. reflexivity.
      * rewrite filter_cons, (IH "" true (fun _ => eq_refl)).
        destruct (truthy cur); [rewrite decide_True by reflexivity
                               | rewrite decide_False by discriminate]; reflexivity.
    + apply IH. discriminate.
Qed.

Lemma Forall_trimStart (text : list string) :
  Forall stripped text -> Forall stripped (trimStart text).
Proof.
  induction 1 as [|c text Hc Hall IH]; [apply Forall_nil_2|].
  pose proof (Forall_cons_2 stripped _ _ Hc Hall) as Hfull.
  cbn [trimStart]. destruct (isWhiteSpace c); [exact IH | exact Hfull].
Qed.

Lemma Forall_trimEnd (text : list string) :
  Forall stripped text -> Forall stripped (trimEnd text).
Proof.
  induction 1 as [|c text Hc Hall IH]; [apply Forall_nil_2|].
  cbn [trimEnd]. destruct (trimEnd text) as [|d r].
  - pose proof (Forall_cons_2 stripped _ _ Hc (Forall_nil_2 _)) as Hone.
    destruct (isWhiteSpace c); [apply Forall_nil_2 | exact Hone].
  - exact (Forall_cons_2 stripped _ _ Hc IH).
Qed.

Lemma wordsFrom_trimStart (text : list string) :
  Forall stripped text ->
  wordsFrom (map kindOf (trimStart text)) "" = wordsFrom (map kindOf text) "".
Proof.
  induction 1 as [|c text Hc Hall IH]; [reflexivity|].
  cbn [trimStart map].
  destruct Hc as [[Hws Hkind] | (a & -> & Hws & Hkind)]; rewrite Hws.
  - rewrite Hkind. cbn [wordsFrom truthy]. exact IH.
  - reflexivity.
Qed.

Lemma wordsFrom_trimEnd (text : list string) (cur : string) :
  Forall stripped text ->
  wordsFrom (map kindOf (trimEnd text)) cur = wordsFrom (map kindOf text) cur.
Proof.
  intros Hall. revert cur. induction Hall as [|c text Hc Hall IH]; intros cur;
    [reflexivity|].
  cbn [trimEnd map]. destruct (trimEnd text) as [|d r] eqn:Hend.
  - destruct Hc as [[Hws Hkind] | (a & -> & Hws & Hkind)]; rewrite Hws.
    + rewrite Hkind. cbn [map wordsFrom]. rewrite <- IH. cbn [map wordsFrom truthy].
      destruct (truthy cur); reflexivity.
    + cbn [map]. rewrite Hkind. cbn [wordsFrom]. rewrite <- IH. reflexivity.
  - cbn [map]. destruct (kindOf c); cbn [wordsFrom]; rewrite <- ?IH; reflexivity.
Qed.

End Normalization.

Lemma normalize_wordsOf (text : string) : normalize text = wordsOf text.
Proof.
  unfold normalize, wordsOf, splitSpaces, trim.
  rewrite stripChars_flat_map.
  destruct (wordsFrom_stripped (characters text) "") as [Hwords Hall].
  rewrite splitAux_wordsFrom; [|apply Forall_trimEnd, Forall_trimStart, Hall|discriminate].
  rewrite wordsFrom_trimEnd by (apply Forall_trimStart, Hall).
  rewrite wordsFrom_trimStart by exact Hall.
  exact Hwords.
Qed.

(** Normalization yields words over [a-z0-9] only. *)

Lemma allChars_app (p : ascii -> bool) (s t : string) :
  allChars p (s ++ t) = allChars p s && allChars p t.
Proof.
  induction s as [|c s IH]; [reflexivity|].
  rewrite append_cons. cbn [allChars]. rewrite IH. apply andb_assoc.
Qed.

Lemma wordsFrom_words (text : list string) (cur : string) :
  allChars wordChar cur = true ->
  Forall (fun w => isWord w = true) (wordsFrom (map kindOf text) cur).
Proof.
  revert cur. induction text as [|c text IH]; intros cur Hcur.
  - cbn [map wordsFrom]. destruct (truthy cur) eqn:Ht; [|apply Forall_nil_2].
    apply Forall_cons. split; [|apply Forall_nil_2].
    unfold isWord. rewrite Ht, Hcur. reflexivity.
  - cbn [map]. pose proof (stripChars_lowerCharacter c) as Hc.
    destruct (kindOf c) as [a| |]; cbn [wordsFrom].
    + destruct Hc as (_ & Ha & _). apply IH.
      rewrite allChars_app, Hcur. cbn [allChars]. rewrite Ha. reflexivity.
    + destruct (truthy cur) eqn:Ht; [|apply IH; reflexivity].
      apply Forall_cons. split; [|apply IH; reflexivity].
      unfold isWord. rewrite Ht, Hcur. reflexivity.
    + apply IH, Hcur.
Qed.

Lemma normalize_words (text : string) :
  Forall (fun w => isWord w = true) (normalize text).
Proof. rewrite normalize_wordsOf. apply wordsFrom_words. reflexivity. Qed.

(** C5: [calculateTextSimilarity] is the Jaccard index of the two word
    sets: 1 when both are empty, 0 when exactly one is, and otherwise the
    size of the intersection over the size of the union, duplicates
    ignored. The words of a text are what one pass over its characters
    collects: lower-case letters and digits are kept, capitals are kept as
    their lower-case letters, white space separates the words, and every
    other character is dropped without separating; each word is a non-empty
    run of [a-z0-9]. The score depends on the word sets only, so the order
    of the words does not matter, and ["Chicken Biryani"] against
    ["Biryani Chicken"] scores 1. *)
Theorem calculateTextSimilarity_spec :
  (forall text1 text2,
     calculateTextSimilarity text1 text2 =
       jaccardIndex (wordSet text1) (wordSet text2))
  /\ (forall A B : gset string,
        jaccardIndex A B =
          if decide (A = ∅ /\ B = ∅) then 1%float
          else if decide (A = ∅ \/ B = ∅) then 0%float
          else (ofNat (size (A ∩ B)) / ofNat (size (A ∪ B)))%float)
  /\ (forall text, normalize text = wordsOf text)
  /\ (forall text, Forall (fun w => isWord w = true) (normalize text))
  /\ (forall text1 text1' text2 text2',
        wordSet text1 = wordSet text1' -> wordSet text2 = wordSet text2' ->
        calculateTextSimilarity text1 text2 = calculateTextSimilarity text1' text2')
  /\ normalize "Chicken Biryani" = ["chicken"; "biryani"]
  /\ normalize "Biryani Chicken" = ["biryani"; "chicken"]
  /\ normalize "Chicken 65 (Spicy!)" = ["chicken"; "65"; "spicy"]
  /\ normalize "  Aloo-Gobi 2x  " = ["aloogobi"; "2x"]
  /\ normalize ("Paneer" ++ ofBytes [194; 160] ++ "Tikka")%string = ["paneer"; "tikka"]
  /\ calculateTextSimilarity "Chicken Biryani" "Biryani Chicken" = 1%float
  /\ calculateTextSimilarity "a b c" "a a d" = 0.25%float
  /\ calculateTextSimilarity "Chicken 65" "65 chicken" = 1%float
  /\ calculateTextSimilarity "Chicken 65" "Chicken 99" = (1 / 3)%float
  /\ calculateTextSimilarity "!?" "..." = 1%float
  /\ calculateTextSimilarity "" "Dal" = 0%float.
Proof.
  split; [exact calculateTextSimilarity_eq_jaccard|].
  split; [reflexivity|].
  split; [exact normalize_wordsOf|].
  split; [exact normalize_words|].
  split.
  - intros text1 text1' text2 text2' H1 H2.
    rewrite !calculateTextSimilarity_eq_jaccard, H1, H2. reflexivity.
  - repeat split; vm_compute; reflexivity.
Qed.

(** Two spellings of the same two words, in either order, score alike
    against any text. *)
Lemma calculateTextSimilarity_spec_witness :
  calculateTextSimilarity "Chicken  Biryani!" "Veg Biryani"
  = calculateTextSimilarity "biryani CHICKEN" "Veg Biryani".
Proof.
  destruct calculateTextSimilarity_spec as (_ & _ & _ & _ & Horder & _).
  apply Horder; [|reflexivity].
  unfold wordSet.
  change (normalize "Chicken  Biryani!") with ["chicken"; "biryani"].
  change (normalize "biryani CHICKEN") with ["biryani"; "chicken"].
  apply set_eq. intros w. rewrite !elem_of_list_to_set, !elem_of_cons. tauto.
Defined.

(** ** The cosine scorer *)

Lemma cosineLoop_from (a b : list float) (d na nb : float) :
  length a = length b ->
  fold_left
    (fun '(dotProduct, normA, normB) '(x, y) =>
       ((dotProduct + x * y)%float, (normA + x * x)%float, (normB + y * y)%float))
    (zip a b) (d, na, nb)
  = (fold_left (fun acc '(x, y) => (acc + x * y)%float) (zip a b) d,
     fold_left (fun acc x => (acc + x * x)%float) a na,
     fold_left (fun acc x => (acc + x * x)%float) b nb).
Proof.
  revert b d na nb. induction a as [|x a IH]; intros [|y b] d na nb Hlen;
    try discriminate; [reflexivity|].
  cbn [zip zip_with fold_left]. apply IH. cbn [length] in Hlen. lia.
Qed.

Lemma cosineLoop_eq (a b : list float) :
  length a = length b -> cosineLoop a b = (dot a b, sumSquares a, sumSquares b).
Proof. apply cosineLoop_from. Qed.

Lemma calculateCosineSimilarity_mismatch (a b : list float) :
  length a <> length b ->
  calculateCosineSimilarity a b = Err (VectorLengthMismatch (length a) (length b)).
Proof.
  intros Hne. unfold calculateCosineSimilarity.
  apply Nat.eqb_neq in Hne. rewrite Hne. reflexivity.
Qed.

Lemma calculateCosineSimilarity_match (a b : list float) :
  length a = length b ->
  calculateCosineSimilarity a b =
    Ok (if (norm a * norm b =? 0)%float then 0%float
        else (dot a b / (norm a * norm b))%float).
Proof.
  intros Hlen. unfold calculateCosineSimilarity.
  rewrite (cosineLoop_eq _ _ Hlen).
  apply Nat.eqb_eq in Hlen. rewrite Hlen. reflexivity.
Qed.

Lemma sumSquares_zero (a : list float) : Forall isZero a -> sumSquares a = 0%float.
Proof.
  unfold sumSquares. induction 1 as [|x a [-> | ->] _ IH]; [reflexivity| |];
    cbn [fold_left]; exact IH.
Qed.

Lemma zero_mul_finite (y : float) :
  isFinite y = true -> (0 * y =? 0)%float = true /\ (y * 0 =? 0)%float = true.
Proof.
  unfold isFinite. intros H. rewrite !FloatAxioms.eqb_spec, !FloatAxioms.mul_spec.
  destruct (Prim2SF y); try discriminate; split; reflexivity.
Qed.

Lemma threshold_positive (t s : float) :
  (0 <? t)%float = true -> (t <=? s)%float = true -> (0 <? s)%float = true.
Proof.
  rewrite !FloatAxioms.ltb_spec, FloatAxioms.leb_spec. change (Prim2SF 0) with (S754_zero false).
  destruct (Prim2SF t) as [st|st| |st mt et], (Prim2SF s) as [ss|ss| |ss ms es];
    cbn; try discriminate; try reflexivity;
    destruct st, ss; cbn; try discriminate; reflexivity.
Qed.

(** ** The match selector *)

Section SelectorFacts.
Variable CONFIG : Config.
Variable mealName : string.
Variable mealEmbedding : list float.
Variable mealIsVegetarian : bool.

Abbreviation step := (matchStep CONFIG mealName mealEmbedding mealIsVegetarian).
Abbreviation loop := (matchLoop CONFIG mealName mealEmbedding mealIsVegetarian).
Abbreviation cosineThreshold := (COSINE_SIMILARITY_THRESHOLD CONFIG).

(** What one iteration can do: skip the image, select it by its cosine
    score, select it by its text score, or leave the state. *)
Lemma matchStep_inv (st st' : MatchState) (image : ImageEmbedding) :
  step st image = Ok st' ->
  (mealIsVegetarian && negb (imageIsVegetarian image) = true /\ st' = st)
  \/ (mealIsVegetarian && negb (imageIsVegetarian image) = false
      /\ exists c,
           calculateCosineSimilarity mealEmbedding (img_embedding image) = Ok c
           /\ (((cosineThreshold <=? c)%float && (st_bestCosineScore st <? c)%float = true
                /\ st' = selectCosine CONFIG st image c)
               \/ ((cosineThreshold <=? c)%float && (st_bestCosineScore st <? c)%float = false
                   /\ st_method st <> cosine
                   /\ st' = selectText CONFIG st image
                              (calculateTextSimilarity mealName (default "" (img_name image))))
               \/ ((cosineThreshold <=? c)%float && (st_bestCosineScore st <? c)%float = false
                   /\ st' = st))).
Proof.
  unfold matchStep.
  destruct (mealIsVegetarian && negb (imageIsVegetarian image)) eqn:Hskip.
  - intros [= <-]. left. split; reflexivity.
  - destruct (calculateCosineSimilarity mealEmbedding (img_embedding image))
      as [c|e]; [|discriminate].
    cbn [bind]. intros H. right. split; [reflexivity|]. exists c.
    split; [reflexivity|].
    destruct ((cosineThreshold <=? c)%float && (st_bestCosineScore st <? c)%float).
    + injection H as <-. left. split; reflexivity.
    + destruct (negb (method_eqb (st_method st) cosine)
                && (TEXT_SIMILARITY_THRESHOLD CONFIG <=?
                      calculateTextSimilarity mealName (default "" (img_name image)))%float
                && (st_bestTextScore st <?
                      calculateTextSimilarity mealName (default "" (img_name image)))%float)
        eqn:Htext; injection H as <-.
      * right. left. split; [reflexivity|]. split; [|reflexivity].
        destruct (st_method st); cbn in Htext; try discriminate; discriminate.
      * right. right. split; reflexivity.
Qed.

(** The image held as best match was not skipped by the filter. *)
Lemma matchStep_bestMatch (st st' : MatchState) (image best : ImageEmbedding) :
  step st image = Ok st' ->
  st_bestMatch st' = Some best ->
  st_bestMatch st = Some best
  \/ (best = image /\ mealIsVegetarian && negb (imageIsVegetarian image) = false).
Proof.
  intros Hstep Hbest.
  destruct (matchStep_inv _ _ _ Hstep)
    as [[_ ->] | (Hskip & c & _ & [[_ ->] | [(_ & _ & ->) | [_ ->]]])];
    cbn in Hbest; auto; injection Hbest as <-; auto.
Qed.

Lemma matchLoop_bestMatch (images : list ImageEmbedding) (st st' : MatchState)
    (best : ImageEmbedding) :
  loop images st = Ok st' ->
  st_bestMatch st' = Some best ->
  st_bestMatch st = Some best
  \/ (best ∈ images /\ mealIsVegetarian && negb (imageIsVegetarian best) = false).
Proof.
  revert st. induction images as [|image images IH]; intros st; cbn [matchLoop].
  - intros [= <-] Hbest. left. exact Hbest.
  - destruct (step st image) as [st1|e] eqn:Hstep; [|discriminate].
    cbn [bind]. intros Hloop Hbest.
    destruct (IH _ Hloop Hbest) as [Hprev | [Hin Hkept]].
    + destruct (matchStep_bestMatch _ _ _ _ Hstep Hprev) as [H | [-> H]];
        [left; exact H | right; split; [apply list_elem_of_here | exact H]].
    + right. split; [apply list_elem_of_further; exact Hin | exact Hkept].
Qed.

(** A vegetarian meal skips a catalog of non-vegetarian images whole. *)
Lemma matchLoop_all_skipped (images : list ImageEmbedding) (st : MatchState) :
  mealIsVegetarian = true ->
  Forall (fun image => imageIsVegetarian image = false) images ->
  loop images st = Ok st.
Proof.
  intros Hveg Hall. induction Hall as [|image images Himage _ IH]; [reflexivity|].
  assert (Hstep : step st image = Ok st).
  { unfold matchStep. rewrite Hveg, Himage. reflexivity. }
  cbn [matchLoop]. rewrite Hstep. exact IH.
Qed.

(** Once the method is [cosine] it stays [cosine]. *)
Lemma matchStep_cosine_stays (st st' : MatchState) (image : ImageEmbedding) :
  st_method st = cosine -> step st image = Ok st' -> st_method st' = cosine.
Proof.
  intros Hm Hstep.
  destruct (matchStep_inv _ _ _ Hstep)
    as [[_ ->] | (_ & c & _ & [[_ ->] | [(_ & Hne & _) | [_ ->]]])];
    auto; contradiction.
Qed.

Lemma matchLoop_cosine_stays (images : list ImageEmbedding) (st st' : MatchState) :
  st_method st = cosine -> loop images st = Ok st' -> st_method st' = cosine.
Proof.
  revert st. induction images as [|image images IH]; intros st Hm; cbn [matchLoop].
  - intros [= <-]. exact Hm.
  - destruct (step st image) as [st1|e] eqn:Hstep; [|discriminate].
    cbn [bind]. apply IH. exact (matchStep_cosine_stays _ _ _ Hm Hstep).
Qed.

(** Until the method is [cosine], the best cosine score is the initial 0. *)
Lemma matchStep_zero_score (st st' : MatchState) (image : ImageEmbedding) :
  (st_method st <> cosine -> st_bestCosineScore st = 0%float) ->
  step st image = Ok st' ->
  st_method st' <> cosine -> st_bestCosineScore st' = 0%float.
Proof.
  intros Hinv Hstep.
  destruct (matchStep_inv _ _ _ Hstep)
    as [[_ ->] | (_ & c & _ & [[_ ->] | [(_ & Hne & ->) | [_ ->]]])];
    cbn; auto. intros H. contradiction.
Qed.

Lemma matchLoop_zero_score (images : list ImageEmbedding) (st st' : MatchState) :
  (st_method st <> cosine -> st_bestCosineScore st = 0%float) ->
  loop images st = Ok st' ->
  st_method st' <> cosine -> st_bestCosineScore st' = 0%float.
Proof.
  revert st. induction images as [|image images IH]; intros st Hinv; cbn [matchLoop].
  - intros [= <-]. exact Hinv.
  - destruct (step st image) as [st1|e] eqn:Hstep; [|discriminate].
    cbn [bind]. apply IH. exact (matchStep_zero_score _ _ _ Hinv Hstep).
Qed.

(** Under a positive threshold, an image that is not skipped and whose
    cosine score reaches the threshold is selected by the cosine branch
    from any state that no cosine match has touched. *)
Lemma matchStep_qualifying (st : MatchState) (image : ImageEmbedding) (c : float) :
  (0 <? cosineThreshold)%float = true ->
  st_method st <> cosine ->
  st_bestCosineScore st = 0%float ->
  mealIsVegetarian && negb (imageIsVegetarian image) = false ->
  calculateCosineSimilarity mealEmbedding (img_embedding image) = Ok c ->
  (cosineThreshold <=? c)%float = true ->
  step st image = Ok (selectCosine CONFIG st image c).
Proof.
  intros Hpos Hm Hzero Hkept Hcos Hq. unfold matchStep.
  rewrite Hkept, Hcos. cbn [bind].
  rewrite Hq, Hzero, (threshold_positive _ _ Hpos Hq). reflexivity.
Qed.

Lemma matchLoop_no_qualifying (images : list ImageEmbedding) (st st' : MatchState) :
  (0 <? cosineThreshold)%float = true ->
  (st_method st <> cosine -> st_bestCosineScore st = 0%float) ->
  loop images st = Ok st' ->
  st_method st' <> cosine ->
  forall image c,
    image ∈ images ->
    mealIsVegetarian && negb (imageIsVegetarian image) = false ->
    calculateCosineSimilarity mealEmbedding (img_embedding image) = Ok c ->
    (cosineThreshold <=? c)%float = false.
Proof.
  intros Hpos. revert st.
  induction images as [|image images IH]; intros st Hinv Hloop Hfinal x c Hin Hkept Hcos.
  - apply elem_of_nil in Hin. contradiction.
  - cbn [matchLoop] in Hloop.
    destruct (step st image) as [st1|e] eqn:Hstep; [|discriminate].
    cbn [bind] in Hloop.
    assert (Hst1 : st_method st1 <> cosine).
    { intros H. exact (Hfinal (matchLoop_cosine_stays _ _ _ H Hloop)). }
    apply elem_of_cons in Hin as [-> | Hin].
    + destruct (cosineThreshold <=? c)%float eqn:Hq; [|reflexivity].
      assert (Hst : st_method st <> cosine).
      { intros H. exact (Hst1 (matchStep_cosine_stays _ _ _ H Hstep)). }
      rewrite (matchStep_qualifying st image c Hpos Hst (Hinv Hst) Hkept Hcos Hq) in Hstep.
      injection Hstep as <-. exfalso. apply Hst1. reflexivity.
    + exact (IH st1 (matchStep_zero_score _ _ _ Hinv Hstep) Hloop Hfinal x c Hin Hkept Hcos).
Qed.

(** A best match is held exactly when the method is not [none]. *)
Lemma matchStep_method_none (st st' : MatchState) (image : ImageEmbedding) :
  (st_bestMatch st = None <-> st_method st = none) ->
  step st image = Ok st' ->
  (st_bestMatch st' = None <-> st_method st' = none).
Proof.
  intros Hinv Hstep.
  destruct (matchStep_inv _ _ _ Hstep)
    as [[_ ->] | (_ & c & _ & [[_ ->] | [(_ & _ & ->) | [_ ->]]])];
    auto; cbn; split; discriminate.
Qed.

Lemma matchLoop_method_none (images : list ImageEmbedding) (st st' : MatchState) :
  (st_bestMatch st = None <-> st_method st = none) ->
  loop images st = Ok st' ->
  (st_bestMatch st' = None <-> st_method st' = none).
Proof.
  revert st. induction images as [|image images IH]; intros st Hinv; cbn [matchLoop].
  - intros [= <-]. exact Hinv.
  - destruct (step st image) as [st1|e] eqn:Hstep; [|discriminate].
    cbn [bind]. apply IH. exact (matchStep_method_none _ _ _ Hinv Hstep).
Qed.

End SelectorFacts.

Lemma initialState_method_none :
  st_bestMatch initialState = None <-> st_method initialState = none.
Proof. split; reflexivity. Qed.

Lemma findBestImageMatch_inv (CONFIG : Config) (cuisineMap : gmap string Cuisine)
    (mealName : string) (mealEmbedding : list float) (mealIsVegetarian : bool)
    (images : list ImageEmbedding) (r : MatchResult) :
  findBestImageMatch CONFIG cuisineMap mealName mealEmbedding mealIsVegetarian images = Ok r ->
  exists st image,
    matchLoop CONFIG mealName mealEmbedding mealIsVegetarian images initialState = Ok st
    /\ st_bestMatch st = Some image
    /\ bestMatch r = Some image
    /\ matchMethod r = st_method st
    /\ getProperty cuisineMap (propertyKey (img_name image)) <> Undefined.
Proof.
  unfold findBestImageMatch.
  destruct (matchLoop CONFIG mealName mealEmbedding mealIsVegetarian images initialState)
    as [st|e]; [|discriminate].
  cbn [bind]. destruct (st_bestMatch st) as [image|] eqn:Hbest; [|discriminate].
  intros H. exists st, image.
  destruct (getProperty cuisineMap (propertyKey (img_name image)));
    [| |discriminate]; injection H as <-; cbn; repeat split; auto; discriminate.
Qed.

Lemma findBestImageMatch_null (CONFIG : Config) (cuisineMap : gmap string Cuisine)
    (mealName : string) (mealEmbedding : list float) (mealIsVegetarian : bool)
    (images : list ImageEmbedding) (st : MatchState) :
  matchLoop CONFIG mealName mealEmbedding mealIsVegetarian images initialState = Ok st ->
  st_bestMatch st = None ->
  findBestImageMatch CONFIG cuisineMap mealName mealEmbedding mealIsVegetarian images
    = Err (TypeErrorOfNull "name").
Proof.
  intros Hloop Hbest. unfold findBestImageMatch. rewrite Hloop. cbn [bind].
  rewrite Hbest. reflexivity.
Qed.

(** C1: the filter itself holds: whatever [findBestImageMatch] returns for
    a vegetarian meal holds an image of the catalog whose resolved flag is
    [true]. The no-match half fails on the code: with a catalog of
    non-vegetarian images only, no image is selected and building the
    result reads [bestMatch.name] of [null], a [TypeError], where the claim
    expects a result with [method = "none"]. *)
Theorem vegetarian_failsafe :
  (forall CONFIG cuisineMap mealName mealEmbedding images r best,
     findBestImageMatch CONFIG cuisineMap mealName mealEmbedding true images = Ok r ->
     bestMatch r = Some best ->
     best ∈ images /\ imageIsVegetarian best = true)
  /\ (forall CONFIG cuisineMap mealName mealEmbedding images,
        Forall (fun image => imageIsVegetarian image = false) images ->
        findBestImageMatch CONFIG cuisineMap mealName mealEmbedding true images
          = Err (TypeErrorOfNull "name"))
  /\ imageIsVegetarian Samples.chickenImage = false
  /\ findBestImageMatch defaultConfig Samples.cuisines "Paneer Tikka"
       Samples.mealEmbedding true [Samples.chickenImage]
     = Err (TypeErrorOfNull "name").
Proof.
  split; [|split; [|split]].
  - intros CONFIG cuisineMap mealName mealEmbedding images r best Hr Hbest.
    destruct (findBestImageMatch_inv _ _ _ _ _ _ _ Hr)
      as (st & image & Hloop & Hst & Hr' & _).
    rewrite Hbest in Hr'. injection Hr' as <-.
    destruct (matchLoop_bestMatch _ _ _ _ _ _ _ _ Hloop Hst) as [H | [Hin Hkept]];
      [discriminate|].
    split; [exact Hin|]. cbn [andb] in Hkept.
    destruct (imageIsVegetarian best); [reflexivity | discriminate].
  - intros CONFIG cuisineMap mealName mealEmbedding images Hall.
    apply (findBestImageMatch_null _ _ _ _ _ _ initialState); [|reflexivity].
    apply matchLoop_all_skipped; [reflexivity | exact Hall].
  - reflexivity.
  - vm_compute. reflexivity.
Qed.

(** C2: the no-match result is never returned. When the loop ends without
    a best match (an empty catalog, a catalog filtered out whole, no image
    reaching a threshold) the [url] field reads [bestMatch.name] of [null]
    and [findBestImageMatch] throws a [TypeError]; every result it does
    return holds an image and a method other than [none]. *)
Theorem no_match_throws :
  (forall CONFIG cuisineMap mealName mealEmbedding mealIsVegetarian,
     findBestImageMatch CONFIG cuisineMap mealName mealEmbedding mealIsVegetarian []
       = Err (TypeErrorOfNull "name"))
  /\ (forall CONFIG cuisineMap mealName mealEmbedding mealIsVegetarian images st,
        matchLoop CONFIG mealName mealEmbedding mealIsVegetarian images initialState = Ok st ->
        st_bestMatch st = None ->
        st_method st = none /\
        findBestImageMatch CONFIG cuisineMap mealName mealEmbedding mealIsVegetarian images
          = Err (TypeErrorOfNull "name"))
  /\ (forall CONFIG cuisineMap mealName mealEmbedding mealIsVegetarian images r,
        findBestImageMatch CONFIG cuisineMap mealName mealEmbedding mealIsVegetarian images
          = Ok r ->
        bestMatch r <> None /\ matchMethod r <> none)
  /\ findBestImageMatch defaultConfig Samples.cuisines "Idli" [0%float; 1%float] false
       [Samples.paneerImage]
     = Err (TypeErrorOfNull "name").
Proof.
  split; [|split; [|split]].
  - reflexivity.
  - intros CONFIG cuisineMap mealName mealEmbedding mealIsVegetarian images st Hloop Hbest.
    split; [|exact (findBestImageMatch_null _ _ _ _ _ _ _ Hloop Hbest)].
    apply (matchLoop_method_none _ _ _ _ _ _ _ initialState_method_none
             Hloop), Hbest.
  - intros CONFIG cuisineMap mealName mealEmbedding mealIsVegetarian images r Hr.
    destruct (findBestImageMatch_inv _ _ _ _ _ _ _ Hr)
      as (st & image & Hloop & Hst & Hr' & Hm & _).
    split; [rewrite Hr'; discriminate|].
    rewrite Hm. intros Hnone.
    apply (matchLoop_method_none _ _ _ _ _ _ _ initialState_method_none
             Hloop) in Hnone.
    rewrite Hst in Hnone. discriminate.
  - vm_compute. reflexivity.
Qed.

(** C4, as the claim states it, fails under a negative cosine threshold:
    with the threshold at -0.5 an image whose cosine score is about -0.196
    reaches the threshold, yet the cosine branch also asks for a score above
    the running best, which starts at 0; the image is then taken by its
    text score and the final method is [text]. *)
Lemma negative_threshold_counterexample :
  match calculateCosineSimilarity Samples.mealEmbedding
          (img_embedding Samples.dalImage) with
  | Ok c => (COSINE_SIMILARITY_THRESHOLD Samples.negativeConfig <=? c)%float
  | Err _ => false
  end = true
  /\ (match findBestImageMatch Samples.negativeConfig Samples.cuisines "Dal"
              Samples.mealEmbedding false [Samples.dalImage] with
      | Ok r => Some (matchMethod r, bestMatch r)
      | Err _ => None
      end) = Some (text, Some Samples.dalImage).
Proof. split; vm_compute; reflexivity. Qed.

(** C4 (amended): under a positive cosine threshold (the default 0.2 is
    one), the method stays [cosine] once an image was selected by its cosine
    score, so no later image is selected by its text score; a returned
    method [text] means that no image kept by the vegetarian filter has a
    cosine score at or above the threshold; and an image with such a score
    replaces a best match held by the text method. *)
Theorem selection_priority (CONFIG : Config) (cuisineMap : gmap string Cuisine)
    (mealName : string) (mealEmbedding : list float) (mealIsVegetarian : bool) :
  (0 <? COSINE_SIMILARITY_THRESHOLD CONFIG)%float = true ->
  (forall st image st',
     st_method st = cosine ->
     matchStep CONFIG mealName mealEmbedding mealIsVegetarian st image = Ok st' ->
     st_method st' = cosine)
  /\ (forall images r image c,
        findBestImageMatch CONFIG cuisineMap mealName mealEmbedding mealIsVegetarian images
          = Ok r ->
        matchMethod r = text ->
        image ∈ images ->
        mealIsVegetarian && negb (imageIsVegetarian image) = false ->
        calculateCosineSimilarity mealEmbedding (img_embedding image) = Ok c ->
        (COSINE_SIMILARITY_THRESHOLD CONFIG <=? c)%float = false)
  /\ (forall earlier st image c,
        matchLoop CONFIG mealName mealEmbedding mealIsVegetarian earlier initialState = Ok st ->
        st_method st = text ->
        mealIsVegetarian && negb (imageIsVegetarian image) = false ->
        calculateCosineSimilarity mealEmbedding (img_embedding image) = Ok c ->
        (COSINE_SIMILARITY_THRESHOLD CONFIG <=? c)%float = true ->
        matchStep CONFIG mealName mealEmbedding mealIsVegetarian st image
          = Ok (selectCosine CONFIG st image c)).
Proof.
  intros Hpos. split; [|split].
  - intros st image st'. apply matchStep_cosine_stays.
  - intros images r image c Hr Hm Hin Hkept Hcos.
    destruct (findBestImageMatch_inv _ _ _ _ _ _ _ Hr)
      as (st & best & Hloop & _ & _ & Hm' & _).
    refine (matchLoop_no_qualifying CONFIG mealName mealEmbedding mealIsVegetarian
              images initialState st Hpos (fun _ => eq_refl) Hloop _
              image c Hin Hkept Hcos).
    rewrite <- Hm', Hm. discriminate.
  - intros earlier st image c Hloop Hm Hkept Hcos Hq.
    assert (Hne : st_method st <> cosine) by (rewrite Hm; discriminate).
    apply matchStep_qualifying; auto.
    exact (matchLoop_zero_score CONFIG mealName mealEmbedding mealIsVegetarian
             earlier initialState st (fun _ => eq_refl) Hloop Hne).
Qed.

Lemma selection_priority_witness :
  matchStep defaultConfig "Dal" Samples.mealEmbedding false
    (selectText defaultConfig initialState Samples.dalImage 1%float)
    Samples.paneerImage
  = Ok (selectCosine defaultConfig
          (selectText defaultConfig initialState Samples.dalImage 1%float)
          Samples.paneerImage 1%float).
Proof.
  destruct (selection_priority defaultConfig Samples.cuisines "Dal"
              Samples.mealEmbedding false) as (_ & _ & Hreplace);
    [vm_compute; reflexivity|].
  apply (Hreplace [Samples.dalImage]); vm_compute; reflexivity.
Defined.

(** ** Batch processing *)

Section BatchFacts.
Context {World : Type}.
Variable generateMealEmbedding : string -> World -> result (list float) * World.
Variable CONFIG : Config.
Variable cuisineMap : gmap string Cuisine.
Variable images : list ImageEmbedding.

Abbreviation perMeal := (processMeal generateMealEmbedding CONFIG cuisineMap images).
Abbreviation perBatch :=
  (fun meals => processMealBatch generateMealEmbedding CONFIG cuisineMap meals images).

Lemma processMeal_embedding_error (meal : Meal) (w w' : World) (e : exn) :
  generateMealEmbedding (meal_name meal) w = (Err e, w') ->
  perMeal meal w = (errorResult meal e, w').
Proof. intros H. unfold processMeal. rewrite H. reflexivity. Qed.

Lemma processMeal_match_error (meal : Meal) (w w' : World)
    (mealEmbedding : list float) (e : exn) :
  generateMealEmbedding (meal_name meal) w = (Ok mealEmbedding, w') ->
  findBestImageMatch CONFIG cuisineMap (meal_name meal) mealEmbedding
    (meal_isVegetarian meal) images = Err e ->
  perMeal meal w = (errorResult meal e, w').
Proof. intros H He. unfold processMeal. rewrite H, He. reflexivity. Qed.

Lemma processMeal_matched (meal : Meal) (w w' : World)
    (mealEmbedding : list float) (r : MatchResult) :
  generateMealEmbedding (meal_name meal) w = (Ok mealEmbedding, w') ->
  findBestImageMatch CONFIG cuisineMap (meal_name meal) mealEmbedding
    (meal_isVegetarian meal) images = Ok r ->
  perMeal meal w = (matchedResult meal r, w').
Proof. intros H Hr. unfold processMeal. rewrite H, Hr. reflexivity. Qed.

Lemma processMeal_id (meal : Meal) (w : World) :
  r_mealId (perMeal meal w).1 = meal_id meal
  /\ r_mealName (perMeal meal w).1 = meal_name meal.
Proof.
  unfold processMeal.
  destruct (generateMealEmbedding (meal_name meal) w) as [[mealEmbedding|e] w'];
    [|split; reflexivity].
  destruct (findBestImageMatch CONFIG cuisineMap (meal_name meal) mealEmbedding
              (meal_isVegetarian meal) images); split; reflexivity.
Qed.

(** The results of a batch are the results of its meals, in order, each
    meal starting in the world the one before it left. *)
Lemma processMealBatch_split (before after : list Meal) (meal : Meal)
    (w w1 w2 w3 : World) (rs1 rs2 : list MappingResult) (r : MappingResult) :
  perBatch before w = (rs1, w1) ->
  perMeal meal w1 = (r, w2) ->
  perBatch after w2 = (rs2, w3) ->
  perBatch (before ++ meal :: after) w = (rs1 ++ r :: rs2, w3).
Proof.
  revert w rs1. induction before as [|m before IH]; intros w rs1 Hbefore Hmeal Hafter.
  - cbn in Hbefore. injection Hbefore as <- <-.
    cbn [app processMealBatch]. rewrite Hmeal, Hafter. reflexivity.
  - cbn [app processMealBatch] in *.
    destruct (perMeal m w) as [r0 w0].
    destruct (processMealBatch generateMealEmbedding CONFIG cuisineMap before images w0)
      as [rs0 w0'] eqn:Hrest.
    injection Hbefore as <- <-.
    rewrite (IH w0 rs0 Hrest Hmeal Hafter). reflexivity.
Qed.

Lemma processMealBatch_ids (meals : list Meal) (w : World) :
  map r_mealId (perBatch meals w).1 = map meal_id meals.
Proof.
  revert w. induction meals as [|meal meals IH]; intros w; [reflexivity|].
  cbn [processMealBatch].
  pose proof (processMeal_id meal w) as [Hid _].
  destruct (perMeal meal w) as [r w1].
  specialize (IH w1).
  destruct (processMealBatch generateMealEmbedding CONFIG cuisineMap meals images w1)
    as [rs w2].
  cbn in *. rewrite Hid, IH. reflexivity.
Qed.

End BatchFacts.

(** C8: a batch yields one result per meal, in the order of the meals;
    a meal whose embedding cannot be generated, or whose matching throws,
    gets the [error] result with the exception's message, and the meals
    after it are processed as they would be otherwise. *)
Theorem per_meal_error_isolation :
  forall (World : Type)
    (generateMealEmbedding : string -> World -> result (list float) * World)
    (CONFIG : Config) (cuisineMap : gmap string Cuisine)
    (images : list ImageEmbedding),
  (forall meals w,
     map r_mealId
       (processMealBatch generateMealEmbedding CONFIG cuisineMap meals images w).1
       = map meal_id meals
     /\ length (processMealBatch generateMealEmbedding CONFIG cuisineMap meals images w).1
        = length meals)
  /\ (forall before meal after w w1 w2 w3 rs1 rs2 e,
        processMealBatch generateMealEmbedding CONFIG cuisineMap before images w = (rs1, w1) ->
        generateMealEmbedding (meal_name meal) w1 = (Err e, w2) ->
        processMealBatch generateMealEmbedding CONFIG cuisineMap after images w2 = (rs2, w3) ->
        processMealBatch generateMealEmbedding CONFIG cuisineMap
          (before ++ meal :: after) images w
          = (rs1 ++ errorResult meal e :: rs2, w3))
  /\ (forall before meal after w w1 w2 w3 rs1 rs2 mealEmbedding e,
        processMealBatch generateMealEmbedding CONFIG cuisineMap before images w = (rs1, w1) ->
        generateMealEmbedding (meal_name meal) w1 = (Ok mealEmbedding, w2) ->
        findBestImageMatch CONFIG cuisineMap (meal_name meal) mealEmbedding
          (meal_isVegetarian meal) images = Err e ->
        processMealBatch generateMealEmbedding CONFIG cuisineMap after images w2 = (rs2, w3) ->
        processMealBatch generateMealEmbedding CONFIG cuisineMap
          (before ++ meal :: after) images w
          = (rs1 ++ errorResult meal e :: rs2, w3))
  /\ (forall meal e,
        r_method (errorResult meal e) = error
        /\ r_error (errorResult meal e) = Some e
        /\ r_mealId (errorResult meal e) = meal_id meal
        /\ r_imageUrl (errorResult meal e) = None).
Proof.
  intros World generateMealEmbedding CONFIG cuisineMap images.
  split; [|split; [|split]].
  - intros meals w.
    pose proof (processMealBatch_ids generateMealEmbedding CONFIG cuisineMap images meals w)
      as Hids.
    split; [exact Hids|].
    apply (f_equal length) in Hids. rewrite !length_map in Hids. exact Hids.
  - intros before meal after w w1 w2 w3 rs1 rs2 e Hbefore Hgen Hafter.
    apply (processMealBatch_split _ _ _ _ _ _ _ _ w1 w2 _ _ _ _ Hbefore); [|exact Hafter].
    apply processMeal_embedding_error, Hgen.
  - intros before meal after w w1 w2 w3 rs1 rs2 mealEmbedding e Hbefore Hgen Herr Hafter.
    apply (processMealBatch_split _ _ _ _ _ _ _ _ w1 w2 _ _ _ _ Hbefore); [|exact Hafter].
    exact (processMeal_match_error _ _ _ _ _ _ _ _ _ Hgen Herr).
  - intros meal e. repeat split.
Qed.

(** The sample batch: the second meal's embedding fails, the first and the
    third are matched. *)
Lemma per_meal_error_isolation_witness :
  map r_method
    (processMealBatch Samples.generateMealEmbedding defaultConfig Samples.cuisines
       [Samples.meal "Paneer Tikka"; Samples.meal "Bad"; Samples.meal "Dal"]
       [Samples.dalImage; Samples.paneerImage; Samples.chickenImage] tt).1
  = [cosine; error; cosine].
Proof.
  destruct (per_meal_error_isolation unit Samples.generateMealEmbedding defaultConfig
              Samples.cuisines
              [Samples.dalImage; Samples.paneerImage; Samples.chickenImage])
    as (_ & Hfail & _).
  erewrite (Hfail [Samples.meal "Paneer Tikka"] (Samples.meal "Bad") [Samples.meal "Dal"]);
    [| vm_compute; reflexivity ..].
  vm_compute. reflexivity.
Defined.

(** C9, as the claim states it, fails on an image whose name is a key of
    the prototype chain: with the empty map of a failed load, an image named
    ["constructor"] is not a key of the map, yet [cuisineMap["constructor"]]
    is the inherited [Map] function; its [imageUrl] is [undefined], nothing
    is thrown, and the meal is recorded with the method [cosine] and no
    image url. *)
Lemma inherited_key_counterexample :
  loadCuisineMap None !! propertyKey (img_name Samples.constructorImage) = None
  /\ (match findBestImageMatch defaultConfig (loadCuisineMap None) "Soup"
              Samples.mealEmbedding false [Samples.constructorImage] with
      | Ok r => Some (matchMethod r, bestMatch r, url r)
      | Err _ => None
      end) = Some (cosine, Some Samples.constructorImage, None)
  /\ (let r := (processMeal Samples.generateMealEmbedding defaultConfig
                  (loadCuisineMap None) [Samples.constructorImage]
                  (Samples.meal "Soup") tt).1 in
      (r_method r, r_imageUrl r, r_imageName r))
     = (cosine, None, Some "constructor").
Proof. repeat split; vm_compute; reflexivity. Qed.

(** C9 (amended): when the loop ends with a best match whose name is
    neither an own key of the cuisine map nor a key inherited from the
    prototype chain, reading [imageUrl] of [undefined] throws a [TypeError];
    [findBestImageMatch] returns no result, and the per-meal [catch] records
    the meal with the method [error] and no image, although an image
    qualified. A failed load leaves the map empty. *)
Theorem missing_cuisine_throws {World : Type}
    (generateMealEmbedding : string -> World -> result (list float) * World)
    (CONFIG : Config) (cuisineMap : gmap string Cuisine)
    (images : list ImageEmbedding) (meal : Meal) (w w' : World)
    (mealEmbedding : list float) (st : MatchState) (image : ImageEmbedding) :
  generateMealEmbedding (meal_name meal) w = (Ok mealEmbedding, w') ->
  matchLoop CONFIG (meal_name meal) mealEmbedding (meal_isVegetarian meal) images
    initialState = Ok st ->
  st_bestMatch st = Some image ->
  cuisineMap !! propertyKey (img_name image) = None ->
  propertyKey (img_name image) ∉ inheritedKeys ->
  findBestImageMatch CONFIG cuisineMap (meal_name meal) mealEmbedding
    (meal_isVegetarian meal) images = Err (TypeErrorOfUndefined "imageUrl")
  /\ processMeal generateMealEmbedding CONFIG cuisineMap images meal w
     = (errorResult meal (TypeErrorOfUndefined "imageUrl"), w')
  /\ r_method (errorResult meal (TypeErrorOfUndefined "imageUrl")) = error
  /\ r_imageUrl (errorResult meal (TypeErrorOfUndefined "imageUrl")) = None
  /\ loadCuisineMap None = ∅.
Proof.
  intros Hgen Hloop Hbest Hown Hinherited.
  assert (Herr : findBestImageMatch CONFIG cuisineMap (meal_name meal) mealEmbedding
                   (meal_isVegetarian meal) images = Err (TypeErrorOfUndefined "imageUrl")).
  { unfold findBestImageMatch. rewrite Hloop. cbn [bind]. rewrite Hbest.
    unfold getProperty. rewrite Hown, bool_decide_eq_false_2; [reflexivity|exact Hinherited]. }
  split; [exact Herr|].
  split; [exact (processMeal_match_error _ _ _ _ _ _ _ _ _ Hgen Herr)|].
  repeat split.
Qed.

Lemma missing_cuisine_throws_witness :
  findBestImageMatch defaultConfig (loadCuisineMap None) "Paneer Tikka"
    Samples.mealEmbedding true [Samples.chickenImage; Samples.paneerImage]
  = Err (TypeErrorOfUndefined "imageUrl")
  /\ processMeal Samples.generateMealEmbedding defaultConfig (loadCuisineMap None)
       [Samples.chickenImage; Samples.paneerImage] (Samples.meal "Paneer Tikka") tt
     = (errorResult (Samples.meal "Paneer Tikka") (TypeErrorOfUndefined "imageUrl"), tt).
Proof.
  destruct (missing_cuisine_throws Samples.generateMealEmbedding defaultConfig
              (loadCuisineMap None) [Samples.chickenImage; Samples.paneerImage]
              (Samples.meal "Paneer Tikka") tt tt Samples.mealEmbedding
              (selectCosine defaultConfig initialState Samples.paneerImage 1%float)
              Samples.paneerImage)
    as (Hthrow & Hmeal & _).
  - reflexivity.
  - vm_compute. reflexivity.
  - reflexivity.
  - reflexivity.
  - vm_compute. intros H. repeat (inversion H as [|? ? ? H']; clear H; rename H' into H).
  - split; [exact Hthrow | exact Hmeal].
Defined.

(** C6, as the claim states it, fails when a sum of squares overflows: the
    vector [[0]] has norm zero, the squares of [[1e200]] sum to [Infinity],
    the magnitude [0 * Infinity] is [NaN], which is not [=== 0], and the
    result [0 / NaN] is [NaN]. *)
Lemma zero_norm_overflow_counterexample :
  length [0%float] = length [1e200%float]
  /\ norm [0%float] = 0%float
  /\ match calculateCosineSimilarity [0%float] [1e200%float] with
     | Ok r => PrimFloat.is_nan r
     | Err _ => false
     end = true.
Proof. repeat split; vm_compute; reflexivity. Qed.

(** C6 (amended): [calculateCosineSimilarity] throws exactly when the
    lengths differ, and the error carries both lengths; on equal lengths it
    returns [dot / (norm a * norm b)] in binary64 arithmetic, and exactly 0
    when that magnitude compares equal to 0, which is the case when one
    vector holds only zeros and the norm of the other is finite. During
    scoring, a length mismatch on an image that the filter keeps makes
    [findBestImageMatch] throw, and the batch records the [error] result for
    that meal alone. *)
Theorem calculateCosineSimilarity_spec :
  (forall a b, length a <> length b <-> exists e, calculateCosineSimilarity a b = Err e)
  /\ (forall a b,
        length a <> length b ->
        calculateCosineSimilarity a b = Err (VectorLengthMismatch (length a) (length b)))
  /\ (forall a b,
        length a = length b ->
        calculateCosineSimilarity a b =
          Ok (if (norm a * norm b =? 0)%float then 0%float
              else (dot a b / (norm a * norm b))%float))
  /\ (forall a b,
        length a = length b ->
        (Forall isZero a /\ isFinite (norm b) = true)
        \/ (Forall isZero b /\ isFinite (norm a) = true) ->
        calculateCosineSimilarity a b = Ok 0%float)
  /\ (forall CONFIG mealName mealEmbedding mealIsVegetarian st image,
        mealIsVegetarian && negb (imageIsVegetarian image) = false ->
        length mealEmbedding <> length (img_embedding image) ->
        matchStep CONFIG mealName mealEmbedding mealIsVegetarian st image
          = Err (VectorLengthMismatch (length mealEmbedding)
                   (length (img_embedding image))))
  /\ (forall (World : Type)
        (generateMealEmbedding : string -> World -> result (list float) * World)
        CONFIG cuisineMap images before meal after w w1 w2 w3 rs1 rs2
        mealEmbedding lengthA lengthB,
        processMealBatch generateMealEmbedding CONFIG cuisineMap before images w = (rs1, w1) ->
        generateMealEmbedding (meal_name meal) w1 = (Ok mealEmbedding, w2) ->
        findBestImageMatch CONFIG cuisineMap (meal_name meal) mealEmbedding
          (meal_isVegetarian meal) images = Err (VectorLengthMismatch lengthA lengthB) ->
        processMealBatch generateMealEmbedding CONFIG cuisineMap after images w2 = (rs2, w3) ->
        processMealBatch generateMealEmbedding CONFIG cuisineMap
          (before ++ meal :: after) images w
          = (rs1 ++ errorResult meal (VectorLengthMismatch lengthA lengthB) :: rs2, w3)).
Proof.
  split; [|split; [|split; [|split; [|split]]]].
  - intros a b. split.
    + intros Hne. eexists. apply calculateCosineSimilarity_mismatch, Hne.
    + intros [e He] Heq. rewrite (calculateCosineSimilarity_match _ _ Heq) in He.
      discriminate.
  - exact calculateCosineSimilarity_mismatch.
  - exact calculateCosineSimilarity_match.
  - intros a b Hlen Hzero. rewrite (calculateCosineSimilarity_match _ _ Hlen).
    destruct Hzero as [[Ha Hb] | [Hb Ha]].
    + unfold norm at 1 3. rewrite (sumSquares_zero _ Ha).
      change (PrimFloat.sqrt 0) with 0%float.
      destruct (zero_mul_finite _ Hb) as [-> _]. reflexivity.
    + unfold norm at 2 4. rewrite (sumSquares_zero _ Hb).
      change (PrimFloat.sqrt 0) with 0%float.
      destruct (zero_mul_finite _ Ha) as [_ ->]. reflexivity.
  - intros CONFIG mealName mealEmbedding mealIsVegetarian st image Hkept Hne.
    unfold matchStep. rewrite Hkept, (calculateCosineSimilarity_mismatch _ _ Hne).
    reflexivity.
  - intros World generateMealEmbedding CONFIG cuisineMap images before meal after
      w w1 w2 w3 rs1 rs2 mealEmbedding lengthA lengthB Hbefore Hgen Herr Hafter.
    apply (processMealBatch_split _ _ _ _ _ _ _ _ w1 w2 _ _ _ _ Hbefore); [|exact Hafter].
    exact (processMeal_match_error _ _ _ _ _ _ _ _ _ Hgen Herr).
Qed.

Lemma calculateCosineSimilarity_spec_witness :
  calculateCosineSimilarity [0%float; (-0)%float] [3%float; 4%float] = Ok 0%float
  /\ map r_method
       (processMealBatch Samples.generateMealEmbedding defaultConfig Samples.cuisines
          [Samples.meal "Paneer Tikka"; Samples.meal "Chicken Curry"; Samples.meal "Dal"]
          [Samples.shortImage; Samples.paneerImage] tt).1
     = [cosine; error; cosine].
Proof.
  destruct calculateCosineSimilarity_spec as (_ & _ & _ & Hzero & _ & Hbatch).
  split.
  - apply (Hzero [0%float; (-0)%float] [3%float; 4%float] eq_refl).
    left. split; [|vm_compute; reflexivity].
    apply Forall_cons; split; [left; reflexivity|].
    apply Forall_cons; split; [right; reflexivity | apply Forall_nil_2].
  - erewrite (Hbatch unit Samples.generateMealEmbedding defaultConfig Samples.cuisines
                [Samples.shortImage; Samples.paneerImage]
                [Samples.meal "Paneer Tikka"] (Samples.meal "Chicken Curry")
                [Samples.meal "Dal"]);
      [| vm_compute; reflexivity ..].
    vm_compute. reflexivity.
Defined.

(** ** The handler *)

Lemma processRequestMealsFrom_names (mealNames : list requestedName) (index : nat)
    (meals : list Meal) :
  processRequestMealsFrom index mealNames = Ok meals ->
  map NameString (map meal_name meals) = mealNames.
Proof.
  revert index meals. induction mealNames as [|[name|] rest IH]; intros index meals.
  - intros [= <-]. reflexivity.
  - cbn [processRequestMealsFrom].
    destruct (processRequestMealsFrom (S index) rest) as [others|e] eqn:Hrest;
      cbn [bind]; [|discriminate].
    intros [= <-]. cbn [map]. rewrite (IH _ _ Hrest). reflexivity.
  - discriminate.
Qed.

Lemma processRequestMealsFrom_throws (mealNames : list requestedName) (index : nat)
    (e : exn) :
  processRequestMealsFrom index mealNames = Err e -> NameUnconvertible ∈ mealNames.
Proof.
  revert index. induction mealNames as [|[name|] rest IH]; intros index.
  - discriminate.
  - cbn [processRequestMealsFrom].
    destruct (processRequestMealsFrom (S index) rest) as [others|e'] eqn:Hrest;
      cbn [bind]; [discriminate|].
    intros [= ->]. apply list_elem_of_further. exact (IH _ Hrest).
  - intros _. apply list_elem_of_here.
Qed.

Section HandlerFacts.
Context {World : Type}.
Variable generateMealEmbedding : string -> World -> result (list float) * World.
Variable fetchUnmappedMeals : World -> result (list Meal) * World.
Variable addDoc : MappingResult -> World -> result unit * World.
Variable getRemainingTimeInMillis : World -> Z * World.
Variable fetchCuisines : World -> option (list Cuisine) * World.
Variable loadEmbeddings : World -> result (list ImageEmbedding) * World.
Variable CONFIG : Config.

Abbreviation handle :=
  (handler generateMealEmbedding fetchUnmappedMeals addDoc getRemainingTimeInMillis
     fetchCuisines loadEmbeddings CONFIG).
Abbreviation handleWith :=
  (handleLoaded generateMealEmbedding fetchUnmappedMeals addDoc
     getRemainingTimeInMillis CONFIG).

(** With a positive batch size the loop ends within one iteration per
    meal. *)
Lemma batchLoop_returns (fuel : nat) (cuisineMap : gmap string Cuisine)
    (images : list ImageEmbedding) (meals : list Meal) (i : Z)
    (allResults : list MappingResult) (processedCount : nat) (w : World) :
  (0 < MAX_MEALS_PER_BATCH CONFIG)%Z -> (0 <= i)%Z ->
  length (drop (Z.to_nat i) meals) <= fuel ->
  is_Some
    (batchLoop generateMealEmbedding addDoc getRemainingTimeInMillis CONFIG fuel
       cuisineMap images meals i allResults processedCount w).
Proof.
  intros Hpos. revert i allResults processedCount w.
  induction fuel as [|fuel IH]; intros i allResults processedCount w Hi Hfuel;
    rewrite length_drop in Hfuel;
    cbn [batchLoop]; destruct (Z.ltb_spec i (Z.of_nat (length meals))) as [Hlt|Hge];
    try (eexists; reflexivity); try lia.
  destruct (getRemainingTimeInMillis w) as [t w0].
  destruct (t <? 30000)%Z; [eexists; reflexivity|].
  destruct (processMealBatch _ _ _ _ _ _) as [batchResults w1].
  destruct (updateFirestoreMappings addDoc batchResults w1) as [[u|e] w2];
    [|eexists; reflexivity].
  apply IH; [lia|]. rewrite length_drop. lia.
Qed.

(** An empty [mealNames] array is handled as no body at all. *)
Lemma handler_empty_mealNames (fuel : nat) (globals : Globals) (w : World) :
  handle fuel (Parsed (Some [])) globals w = handle fuel NoBody globals w.
Proof. reflexivity. Qed.

(** The message of an empty request mode is sent only after
    [processRequestMeals] has thrown. *)
Lemma handleLoaded_message (fuel : nat) (eventBody : requestBody)
    (cuisineMap : gmap string Cuisine) (images : list ImageEmbedding) (w w' : World)
    (response : Response) :
  handleWith fuel eventBody cuisineMap images w = Some (response, w') ->
  responseMessage (body response) = Some "No meal names provided in request" ->
  exists mealNames,
    eventBody = Parsed (Some mealNames) /\ NameUnconvertible ∈ mealNames
    /\ response = {| statusCode := 200;
                     body := NothingToProcess "No meal names provided in request"
                               request 0 |}.
Proof.
  unfold handleLoaded.
  destruct eventBody as [| |[[|mealName mealNames]|]].
  1-3, 5: (destruct (fetchUnmappedMeals w) as [[[|m ms]|e] w0];
           [|destruct (batchLoop _ _ _ _ _ _ _ _ _ _ _ _) as [[[[rs n]|[e' n]] w1]|]|];
           intros [= <- <-]; discriminate).
  destruct (processRequestMeals (mealName :: mealNames)) as [[|m ms]|e] eqn:Hmeals.
  - apply processRequestMealsFrom_names in Hmeals. discriminate.
  - destruct (batchLoop _ _ _ _ _ _ _ _ _ _ _ _) as [[[[rs n]|[e' n]] w1]|];
      intros [= <- <-]; discriminate.
  - intros [= <- <-] _. exists (mealName :: mealNames). split; [reflexivity|].
    split; [|reflexivity]. exact (processRequestMealsFrom_throws _ _ _ Hmeals).
Qed.

(** An empty [mealNames] array is answered, within one iteration of the
    batch loop per meal of the store when the batch size is positive. *)
Lemma handler_empty_returns (fuel : nat) (globals : Globals) (w : World) :
  (0 < MAX_MEALS_PER_BATCH CONFIG)%Z ->
  (forall meals w0 w1, fetchUnmappedMeals w0 = (Ok meals, w1) -> length meals <= fuel) ->
  is_Some (handle fuel (Parsed (Some [])) globals w).
Proof.
  intros Hpos Hfuel.
  assert (Hloaded : forall cuisineMap images w0,
            is_Some (handleWith fuel (Parsed (Some [])) cuisineMap images w0)).
  { intros cuisineMap images w0. unfold handleLoaded.
    destruct (fetchUnmappedMeals w0) as [[[|m ms]|e] w1] eqn:Hfetch;
      try (eexists; reflexivity).
    destruct (batchLoop_returns fuel cuisineMap images (m :: ms) 0 [] 0 w1 Hpos
                (Z.le_refl 0)) as [[outcome w2] Hrun].
    { change (Z.to_nat 0) with 0. rewrite drop_0. exact (Hfuel _ _ _ Hfetch). }
    rewrite Hrun. destruct outcome as [[results count]|[e count]]; eexists; reflexivity. }
  unfold handler. destruct globals as [[cuisineMap images]|].
  - destruct (Hloaded cuisineMap images w) as [[r w0] ->]. eexists; reflexivity.
  - destruct (fetchCuisines w) as [cuisines w0].
    destruct (loadEmbeddings w0) as [[images|e] w1]; [|eexists; reflexivity].
    destruct (Hloaded (loadCuisineMap cuisines) images w1) as [[r w2] ->].
    eexists; reflexivity.
Qed.

Lemma handler_message (fuel : nat) (eventBody : requestBody) (globals globals' : Globals)
    (w w' : World) (response : Response) :
  handle fuel eventBody globals w = Some (response, globals', w') ->
  responseMessage (body response) = Some "No meal names provided in request" ->
  exists mealNames,
    eventBody = Parsed (Some mealNames) /\ NameUnconvertible ∈ mealNames
    /\ response = {| statusCode := 200;
                     body := NothingToProcess "No meal names provided in request"
                               request 0 |}.
Proof.
  unfold handler. destruct globals as [[cuisineMap images]|].
  - destruct (handleWith fuel eventBody cuisineMap images w) as [[r w0]|] eqn:H;
      [|discriminate].
    intros [= <- <- <-]. exact (handleLoaded_message _ _ _ _ _ _ _ H).
  - destruct (fetchCuisines w) as [cuisines w0].
    destruct (loadEmbeddings w0) as [[images|e] w1].
    + destruct (handleWith fuel eventBody (loadCuisineMap cuisines) images w1)
        as [[r w2]|] eqn:H; [|discriminate].
      intros [= <- <- <-]. exact (handleLoaded_message _ _ _ _ _ _ _ H).
    + intros [= <- <- <-]. discriminate.
Qed.

End HandlerFacts.

(** C3: a body that parses to an empty [mealNames] array does not reach
    request mode: the test [mealNames.length > 0] fails, the mode stays
    [fetch], and the invocation does whatever an invocation without a body
    does. With an unmapped meal in the store it processes that meal and
    reports [processedCount = 1]; with none it answers with fetch mode's
    own "No unmapped meals found". With a positive batch size it does
    answer, within one iteration of the batch loop per meal of the store.
    The message "No meal names provided in request" is sent in one case
    only: the array is not empty and holds an
    element on which [processRequestMeals] throws, so that request mode is
    entered and no meal is left to process. *)
Theorem empty_mealNames_runs_fetch_mode :
  (forall (World : Type) generateMealEmbedding fetchUnmappedMeals addDoc
      getRemainingTimeInMillis fetchCuisines loadEmbeddings CONFIG fuel globals
      (w : World),
     handler generateMealEmbedding fetchUnmappedMeals addDoc getRemainingTimeInMillis
       fetchCuisines loadEmbeddings CONFIG fuel (Parsed (Some [])) globals w
     = handler generateMealEmbedding fetchUnmappedMeals addDoc getRemainingTimeInMillis
         fetchCuisines loadEmbeddings CONFIG fuel NoBody globals w)
  /\ (forall (World : Type) generateMealEmbedding fetchUnmappedMeals addDoc
        getRemainingTimeInMillis fetchCuisines loadEmbeddings CONFIG fuel globals
        (w : World),
        (0 < MAX_MEALS_PER_BATCH CONFIG)%Z ->
        (forall meals w0 w1,
           fetchUnmappedMeals w0 = (Ok meals, w1) -> length meals <= fuel) ->
        is_Some
          (handler generateMealEmbedding fetchUnmappedMeals addDoc
             getRemainingTimeInMillis fetchCuisines loadEmbeddings CONFIG fuel
             (Parsed (Some [])) globals w))
  /\ (forall (World : Type) generateMealEmbedding fetchUnmappedMeals addDoc
        getRemainingTimeInMillis fetchCuisines loadEmbeddings CONFIG fuel eventBody
        globals (w : World) response globals' w',
        handler generateMealEmbedding fetchUnmappedMeals addDoc
          getRemainingTimeInMillis fetchCuisines loadEmbeddings CONFIG fuel
          eventBody globals w = Some (response, globals', w') ->
        responseMessage (body response) = Some "No meal names provided in request" ->
        exists mealNames,
          eventBody = Parsed (Some mealNames) /\ NameUnconvertible ∈ mealNames
          /\ response = {| statusCode := 200;
                           body := NothingToProcess "No meal names provided in request"
                                     request 0 |})
  /\ (handler Samples.generateMealEmbedding Samples.fetchUnmappedMeals Samples.addDoc
        Samples.getRemainingTimeInMillis Samples.fetchCuisines Samples.loadEmbeddings
        defaultConfig 1 (Parsed (Some [])) None tt
      ≫= fun '(response, _, _) =>
            Some (statusCode response, responseMode (body response),
                  responseProcessedCount (body response),
                  responseMessage (body response)))
     = Some (200%Z, fetch, 1, Some "Meal-image mapping completed")
  /\ (handler Samples.generateMealEmbedding Samples.fetchNoMeals Samples.addDoc
        Samples.getRemainingTimeInMillis Samples.fetchCuisines Samples.loadEmbeddings
        defaultConfig 1 (Parsed (Some [])) None tt
      ≫= fun '(response, _, _) =>
            Some (statusCode response, responseMode (body response),
                  responseProcessedCount (body response),
                  responseMessage (body response)))
     = Some (200%Z, fetch, 0, Some "No unmapped meals found")
  /\ (handler Samples.generateMealEmbedding Samples.fetchUnmappedMeals Samples.addDoc
        Samples.getRemainingTimeInMillis Samples.fetchCuisines Samples.loadEmbeddings
        defaultConfig 1 (Parsed (Some [NameString "Dal"; NameUnconvertible])) None tt
      ≫= fun '(response, _, _) =>
            Some (statusCode response, responseMode (body response),
                  responseProcessedCount (body response),
                  responseMessage (body response)))
     = Some (200%Z, request, 0, Some "No meal names provided in request").
Proof.
  split; [|split; [|split; [|split; [|split]]]].
  - intros. apply handler_empty_mealNames.
  - intros. apply handler_empty_returns; assumption.
  - intros. eapply handler_message; eassumption.
  - vm_compute. reflexivity.
  - vm_compute. reflexivity.
  - vm_compute. reflexivity.
Qed.

(** * Further properties of the code *)

Import VegetarianTools MealStore Resolved.

(** ** The classifier and its tools *)

Lemma lowerChar_idempotent (c : ascii) : lowerChar (lowerChar c) = lowerChar c.
Proof. destruct c as [[] [] [] [] [] [] [] []]; reflexivity. Qed.

Lemma toLowerCase_idempotent (s : string) : toLowerCase (toLowerCase s) = toLowerCase s.
Proof.
  induction s as [|c s IH]; [reflexivity|].
  cbn [toLowerCase]. rewrite lowerChar_idempotent, IH. reflexivity.
Qed.

Lemma toLowerCase_app (s t : string) :
  toLowerCase (s ++ t) = (toLowerCase s ++ toLowerCase t)%string.
Proof.
  induction s as [|c s IH]; [reflexivity|].
  rewrite append_cons. cbn [toLowerCase]. rewrite IH, append_cons. reflexivity.
Qed.

Lemma truthy_toLowerCase (s : string) : truthy (toLowerCase s) = truthy s.
Proof. destruct s; reflexivity. Qed.

Lemma append_assoc (s t u : string) : ((s ++ t) ++ u)%string = (s ++ t ++ u)%string.
Proof.
  induction s as [|c s IH]; [reflexivity|].
  rewrite !append_cons, IH. reflexivity.
Qed.

Lemma detectMealVegetarian_lower (mealName description : string) :
  detectMealVegetarian mealName description =
    (if truthy (toLowerCase mealName)
     then classifyText (toLowerCase mealName ++ " " ++ toLowerCase description)
     else true).
Proof.
  unfold detectMealVegetarian, mealText.
  rewrite truthy_toLowerCase, !toLowerCase_app.
  destruct (truthy mealName); reflexivity.
Qed.

Lemma detectImageVegetarian_lower (imageUrl imageName description : string) :
  detectImageVegetarian imageUrl imageName description =
    (if truthy (toLowerCase imageUrl)
     then classifyText (toLowerCase imageUrl ++ " " ++ toLowerCase imageName
                          ++ " " ++ toLowerCase description)
     else true).
Proof.
  unfold detectImageVegetarian, imageText.
  rewrite truthy_toLowerCase, !toLowerCase_app.
  destruct (truthy imageUrl); reflexivity.
Qed.

(** X1: both detectors ignore the case of ASCII letters: texts that agree
    once lower-cased are classified alike. *)
Theorem classification_ignores_case :
  (forall mealName mealName' description description',
     toLowerCase mealName = toLowerCase mealName' ->
     toLowerCase description = toLowerCase description' ->
     detectMealVegetarian mealName description
       = detectMealVegetarian mealName' description')
  /\ (forall imageUrl imageUrl' imageName imageName' description description',
        toLowerCase imageUrl = toLowerCase imageUrl' ->
        toLowerCase imageName = toLowerCase imageName' ->
        toLowerCase description = toLowerCase description' ->
        detectImageVegetarian imageUrl imageName description
          = detectImageVegetarian imageUrl' imageName' description').
Proof.
  split.
  - intros n n' d d' Hn Hd. rewrite !detectMealVegetarian_lower, Hn, Hd. reflexivity.
  - intros u u' n n' d d' Hu Hn Hd.
    rewrite !detectImageVegetarian_lower, Hu, Hn, Hd. reflexivity.
Qed.

Lemma classification_ignores_case_witness :
  detectMealVegetarian "PANEER Butter Masala" "With NAAN"
  = detectMealVegetarian "paneer butter masala" "with naan".
Proof.
  destruct classification_ignores_case as [Hmeal _].
  apply Hmeal; reflexivity.
Defined.

(** X2: the image detector is the meal detector run on the url and the
    name joined by a space, as long as the url is not empty; with an empty
    url it answers [true] whatever the name and the description say. *)
Theorem image_detector_is_meal_detector :
  (forall imageUrl imageName description,
     imageUrl <> "" ->
     detectImageVegetarian imageUrl imageName description
       = detectMealVegetarian (imageUrl ++ " " ++ imageName) description)
  /\ (forall imageName description,
        detectImageVegetarian "" imageName description = true).
Proof.
  split; [|reflexivity].
  intros imageUrl imageName description Hurl.
  unfold detectImageVegetarian, detectMealVegetarian, imageText, mealText.
  destruct imageUrl as [|c imageUrl]; [contradiction|].
  rewrite append_cons. cbn [truthy negb].
  rewrite <- append_cons, !append_assoc. reflexivity.
Qed.

Lemma image_detector_is_meal_detector_witness :
  detectImageVegetarian "https://cdn.example/fish-curry.jpg" "Curry" ""
  = detectMealVegetarian "https://cdn.example/fish-curry.jpg Curry" "".
Proof.
  destruct image_detector_is_meal_detector as [Hsame _].
  apply (Hsame "https://cdn.example/fish-curry.jpg" "Curry" ""). discriminate.
Defined.

Lemma confidenceLoop_spec (lowerText : string) (weight : nat)
    (indicators : list string) (score total : nat) :
  confidenceLoop lowerText weight indicators (score, total)
  = (score + weight * countIndicators lowerText indicators,
     total + weight * countIndicators lowerText indicators).
Proof.
  unfold confidenceLoop, countIndicators.
  revert score total. induction indicators as [|indicator indicators IH];
    intros score total; cbn [fold_left].
  - rewrite Nat.mul_0_r, !Nat.add_0_r. reflexivity.
  - rewrite filter_cons.
    destruct (includes lowerText indicator) eqn:Hinc.
    + rewrite IH, decide_True by reflexivity. cbn [length]. f_equal; lia.
    + rewrite IH, decide_False by discriminate. reflexivity.
Qed.

Lemma countIndicators_bound (text : string) (indicators : list string) :
  countIndicators text indicators <= length indicators.
Proof. unfold countIndicators. apply length_filter. Qed.

Lemma countIndicators_zero (text : string) (indicators : list string) :
  countIndicators text indicators = 0 <-> existsb (includes text) indicators = false.
Proof.
  unfold countIndicators. induction indicators as [|indicator indicators IH];
    [split; reflexivity|].
  rewrite filter_cons. cbn [existsb].
  destruct (includes text indicator).
  - rewrite decide_True by reflexivity. cbn [length orb]. split; discriminate.
  - rewrite decide_False by discriminate. exact IH.
Qed.

Lemma ratio_one (n : nat) : 0 < n <= 300 -> (ofNat n / ofNat n)%float = 1%float.
Proof.
  intros H.
  assert (Hall : forallb (fun n => PrimFloat.Leibniz.eqb (ofNat n / ofNat n)%float 1%float)
                   (seq 1 300) = true) by (vm_compute; reflexivity).
  rewrite forallb_forall in Hall.
  apply FloatAxioms.Leibniz.eqb_spec, Hall, in_seq. lia.
Qed.

(** X3: [getVegetarianConfidence] knows two values only. Its two counters
    grow together, so the quotient is 1 as soon as one indicator of the asked
    class, plain or strong, occurs in the lower-cased text, and 0 otherwise. *)
Theorem getVegetarianConfidence_is_0_or_1 (text : string) (isVegetarian : bool) :
  getVegetarianConfidence text isVegetarian =
    if existsb (includes (toLowerCase text))
         (if isVegetarian
          then VEGETARIAN_INDICATORS ++ STRONG_VEGETARIAN_INDICATORS
          else NON_VEGETARIAN_INDICATORS ++ STRONG_NON_VEGETARIAN_INDICATORS)
    then 1%float else 0%float.
Proof.
  unfold getVegetarianConfidence, confidenceCounters.
  assert (Hgen : forall plain strong,
            length plain + 2 * length strong <= 300 ->
            (let '(score, totalIndicators) :=
               confidenceLoop (toLowerCase text) 2 strong
                 (confidenceLoop (toLowerCase text) 1 plain (0, 0)) in
             if (0 <? totalIndicators)%nat
             then (ofNat score / ofNat totalIndicators)%float else 0%float)
            = if existsb (includes (toLowerCase text)) (plain ++ strong)
              then 1%float else 0%float).
  { intros plain strong Hlen. rewrite !confidenceLoop_spec.
    pose proof (countIndicators_bound (toLowerCase text) plain) as Hp.
    pose proof (countIndicators_bound (toLowerCase text) strong) as Hs.
    pose proof (countIndicators_zero (toLowerCase text) plain) as Hzp.
    pose proof (countIndicators_zero (toLowerCase text) strong) as Hzs.
    rewrite existsb_app.
    set (p := countIndicators (toLowerCase text) plain) in *.
    set (q := countIndicators (toLowerCase text) strong) in *.
    destruct (Nat.ltb_spec 0 (0 + 1 * p + 2 * q)) as [Hpos|Hzero].
    - rewrite ratio_one by lia.
      destruct (existsb (includes (toLowerCase text)) plain);
        [reflexivity|].
      destruct (existsb (includes (toLowerCase text)) strong);
        [reflexivity|].
      assert (p = 0) by (apply Hzp; reflexivity).
      assert (q = 0) by (apply Hzs; reflexivity). lia.
    - assert (Hp0 : p = 0) by lia. assert (Hq0 : q = 0) by lia.
      apply Hzp in Hp0. apply Hzs in Hq0. rewrite Hp0, Hq0. reflexivity. }
  destruct isVegetarian; apply Hgen; vm_compute; lia.
Qed.

Lemma annotate_flag (image : ImageEmbedding) :
  img_isVegetarian (f_image (annotate image)) = Some (imageIsVegetarian image).
Proof. unfold annotate, imageIsVegetarian. destruct (img_isVegetarian image); reflexivity. Qed.

Lemma allowed_annotate (mealVegetarian : bool) (image : ImageEmbedding) :
  allowed mealVegetarian (annotate image) = kept mealVegetarian image.
Proof.
  unfold allowed, kept. rewrite annotate_flag.
  destruct mealVegetarian, (imageIsVegetarian image); reflexivity.
Qed.

Lemma filter_allowed_annotate (mealVegetarian : bool) (images : list ImageEmbedding) :
  filter (fun image' => allowed mealVegetarian image' = true) (map annotate images)
  = map annotate
      (filter (fun image => negb mealVegetarian || imageIsVegetarian image = true)
         images).
Proof.
  induction images as [|image images IH]; [reflexivity|].
  cbn [map]. rewrite !filter_cons, IH.
  assert (Hsame : allowed mealVegetarian (annotate image)
                  = negb mealVegetarian || imageIsVegetarian image).
  { unfold allowed. rewrite annotate_flag. reflexivity. }
  rewrite Hsame.
  destruct (negb mealVegetarian || imageIsVegetarian image).
  - rewrite !decide_True by reflexivity. reflexivity.
  - rewrite !decide_False by discriminate. reflexivity.
Qed.

(** X4: [filterImagesByVegetarianConstraint] returns, in catalog order, the
    annotated images whose resolved flag is [true] when the meal is detected
    vegetarian, and all of them otherwise: it is the annotation of the
    catalog's sublist of such images, so neither the order nor the number of
    copies of an image changes. On an image without a catalog flag it lets
    through exactly what [validateVegetarianConstraint] calls valid, while a
    catalog flag overrides what validation detects. *)
Theorem catalog_filter_spec :
  (forall images mealName description,
     filterImagesByVegetarianConstraint images mealName description
     = map annotate
         (filter
            (fun image =>
               negb (detectMealVegetarian mealName description)
               || imageIsVegetarian image = true)
            images))
  /\ (forall images mealName description image',
        image' ∈ filterImagesByVegetarianConstraint images mealName description <->
        exists image,
          image ∈ images /\ image' = annotate image
          /\ (detectMealVegetarian mealName description = true ->
              imageIsVegetarian image = true))
  /\ (forall images mealName description,
        detectMealVegetarian mealName description = false ->
        filterImagesByVegetarianConstraint images mealName description
          = map annotate images)
  /\ (forall mealName description image,
        img_isVegetarian image = None ->
        isValid (validateVegetarianConstraint mealName description (img_url image)
                   (default "" (img_name image)) (img_description image))
        = allowed (detectMealVegetarian mealName description) (annotate image))
  /\ (forall mealName description image catalogFlag,
        img_isVegetarian image = Some catalogFlag ->
        allowed (detectMealVegetarian mealName description) (annotate image)
        = negb (detectMealVegetarian mealName description) || catalogFlag)
  /\ (let flagged name flag :=
        {| img_name := Some name; img_url := ""; img_description := "";
           img_embedding := []; img_isVegetarian := Some flag |} in
      map (fun image' => img_name (f_image image'))
        (filterImagesByVegetarianConstraint
           [flagged "c" true; flagged "a" false; flagged "b" true; flagged "c" true]
           "Dal" "")
      = [Some "c"; Some "b"; Some "c"]).
Proof.
  split; [|split; [|split; [|split; [|split]]]].
  - intros images mealName description. apply filter_allowed_annotate.
  - intros images mealName description image'.
    unfold filterImagesByVegetarianConstraint.
    rewrite list_elem_of_filter, list_elem_of_In, in_map_iff. split.
    + intros [Hallowed (image & <- & Hin)]. exists image.
      split; [apply list_elem_of_In; exact Hin|]. split; [reflexivity|].
      intros Hveg. rewrite allowed_annotate in Hallowed. unfold kept in Hallowed.
      rewrite Hveg in Hallowed. destruct (imageIsVegetarian image); [reflexivity|discriminate].
    + intros (image & Hin & -> & Hveg). split.
      * rewrite allowed_annotate. unfold kept.
        destruct (detectMealVegetarian mealName description); [|reflexivity].
        rewrite Hveg; reflexivity.
      * exists image. split; [reflexivity | apply list_elem_of_In; exact Hin].
  - intros images mealName description Hnon.
    unfold filterImagesByVegetarianConstraint. rewrite Hnon.
    induction (map annotate images) as [|x l IH]; [reflexivity|].
    rewrite filter_cons, decide_True by reflexivity. rewrite IH. reflexivity.
  - intros mealName description image Hnone.
    unfold validateVegetarianConstraint, allowed, annotate. rewrite Hnone. reflexivity.
  - intros mealName description image catalogFlag Hflag.
    unfold allowed, annotate. rewrite Hflag. reflexivity.
  - vm_compute. reflexivity.
Qed.

(** ** The similarity scorers *)

Lemma jaccardIndex_comm (A B : gset string) : jaccardIndex A B = jaccardIndex B A.
Proof.
  unfold jaccardIndex.
  rewrite (comm_L (∩) A B), (comm_L (∪) A B).
  repeat case_decide; try reflexivity; exfalso; tauto.
Qed.

(** X6: the text score is symmetric in its two arguments, and it reads a
    text only through the characters that lower-casing and stripping leave:
    two texts that agree on them score alike against any text. White space
    is among these characters, so a no-break space separates two words where
    no character does not. *)
Theorem calculateTextSimilarity_symmetric_and_stripped :
  (forall text1 text2,
     calculateTextSimilarity text1 text2 = calculateTextSimilarity text2 text1)
  /\ (forall text1 text1' text2,
        stripChars (flat_map lowerCharacter (characters text1))
        = stripChars (flat_map lowerCharacter (characters text1')) ->
        calculateTextSimilarity text1 text2 = calculateTextSimilarity text1' text2)
  /\ calculateTextSimilarity ("paneer" ++ ofBytes [194; 160] ++ "tikka")%string "tikka"
     = 0.5%float
  /\ calculateTextSimilarity "paneertikka" "tikka" = 0%float.
Proof.
  split; [|split; [|split]].
  - intros text1 text2. rewrite !calculateTextSimilarity_eq_jaccard.
    apply jaccardIndex_comm.
  - intros text1 text1' text2 H.
    unfold calculateTextSimilarity, normalize. rewrite H. reflexivity.
  - vm_compute. reflexivity.
  - vm_compute. reflexivity.
Qed.

Lemma calculateTextSimilarity_symmetric_and_stripped_witness :
  calculateTextSimilarity "Paneer-Tikka (2 pcs)" "tikka"
  = calculateTextSimilarity "PANEERTIKKA 2 PCS" "tikka".
Proof.
  destruct calculateTextSimilarity_symmetric_and_stripped as (_ & Hstrip & _).
  apply Hstrip. vm_compute. reflexivity.
Defined.

Lemma float_mul_comm (x y : float) : (x * y)%float = (y * x)%float.
Proof.
  apply Prim2SF_inj. rewrite !FloatAxioms.mul_spec.
  unfold SF64mul, SFmul.
  destruct (Prim2SF x) as [sx|sx| |sx mx ex], (Prim2SF y) as [sy|sy| |sy my ey];
    try reflexivity; try (rewrite xorb_comm; reflexivity).
  rewrite xorb_comm, Pos.mul_comm, Z.add_comm. reflexivity.
Qed.

Lemma dot_comm_from (a b : list float) (acc : float) :
  fold_left (fun acc '(x, y) => (acc + x * y)%float) (zip a b) acc
  = fold_left (fun acc '(x, y) => (acc + x * y)%float) (zip b a) acc.
Proof.
  revert b acc. induction a as [|x a IH]; intros [|y b] acc; try reflexivity.
  cbn [zip zip_with fold_left]. rewrite (float_mul_comm x y). apply IH.
Qed.

(** X7: the cosine score is symmetric, bit for bit: on vectors of equal
    length the two orders give the same number, and on vectors of different
    length both throw, each naming the lengths in its own order. *)
Theorem calculateCosineSimilarity_symmetric :
  (forall a b,
     length a = length b ->
     calculateCosineSimilarity a b = calculateCosineSimilarity b a)
  /\ (forall a b,
        length a <> length b ->
        calculateCosineSimilarity a b = Err (VectorLengthMismatch (length a) (length b))
        /\ calculateCosineSimilarity b a = Err (VectorLengthMismatch (length b) (length a))).
Proof.
  split.
  - intros a b Hlen.
    rewrite (calculateCosineSimilarity_match a b Hlen).
    rewrite (calculateCosineSimilarity_match b a (eq_sym Hlen)).
    rewrite (float_mul_comm (norm b) (norm a)).
    unfold dot. rewrite (dot_comm_from b a). reflexivity.
  - intros a b Hne. split; apply calculateCosineSimilarity_mismatch; congruence.
Qed.

Lemma calculateCosineSimilarity_symmetric_witness :
  calculateCosineSimilarity [0.1%float; 0.7%float; (-0.3)%float]
    [0.5%float; 0.2%float; 0.9%float]
  = calculateCosineSimilarity [0.5%float; 0.2%float; 0.9%float]
      [0.1%float; 0.7%float; (-0.3)%float].
Proof.
  destruct calculateCosineSimilarity_symmetric as [Hsym _].
  apply Hsym. reflexivity.
Defined.

(** ** More on the match selector *)

Lemma float_ltb_trans (a b c : float) :
  (a <? b)%float = true -> (b <? c)%float = true -> (a <? c)%float = true.
Proof.
  rewrite !FloatAxioms.ltb_spec. unfold SFltb, SFcompare.
  destruct (Prim2SF a) as [sa|sa| |sa ma ea], (Prim2SF b) as [sb|sb| |sb mb eb],
    (Prim2SF c) as [sc|sc| |sc mc ec];
    try discriminate; try reflexivity;
    destruct sa, sb, sc; try discriminate; try reflexivity.
  all: rewrite ?Pos.compare_cont_spec; cbn [Pos.switch_Eq];
    destruct (Z.compare_spec ea eb), (Z.compare_spec eb ec); try discriminate;
    destruct (Pos.compare_spec ma mb), (Pos.compare_spec mb mc); try discriminate;
    intros _ _; subst;
    repeat match goal with
    | |- context [Z.compare ?x ?y] => destruct (Z.compare_spec x y); try lia
    | |- context [Pos.compare ?x ?y] => destruct (Pos.compare_spec x y); try lia
    end; try reflexivity.
Qed.

Lemma float_ltb_irrefl (a : float) : (a <? a)%float = false.
Proof.
  rewrite FloatAxioms.ltb_spec. unfold SFltb, SFcompare.
  destruct (Prim2SF a) as [s|s| |s m e]; try reflexivity; destruct s; try reflexivity;
    rewrite Z.compare_refl, Pos.compare_cont_refl; reflexivity.
Qed.

Section SelectorMore.
Variable CONFIG : Config.
Variable mealName : string.
Variable mealEmbedding : list float.
Variable mealIsVegetarian : bool.

Abbreviation step := (matchStep CONFIG mealName mealEmbedding mealIsVegetarian).
Abbreviation loop := (matchLoop CONFIG mealName mealEmbedding mealIsVegetarian).
Abbreviation cosineThreshold := (COSINE_SIMILARITY_THRESHOLD CONFIG).
Abbreviation textThreshold := (TEXT_SIMILARITY_THRESHOLD CONFIG).
Abbreviation textOf :=
  (fun image => calculateTextSimilarity mealName (default "" (img_name image))).

Lemma kept_false (image : ImageEmbedding) :
  kept mealIsVegetarian image = false <->
  mealIsVegetarian && negb (imageIsVegetarian image) = true.
Proof. unfold kept. destruct (mealIsVegetarian && negb (imageIsVegetarian image)); split; auto. Qed.

Lemma kept_true (image : ImageEmbedding) :
  kept mealIsVegetarian image = true <->
  mealIsVegetarian && negb (imageIsVegetarian image) = false.
Proof. unfold kept. destruct (mealIsVegetarian && negb (imageIsVegetarian image)); split; auto. Qed.

Lemma matchStep_skip (st : MatchState) (image : ImageEmbedding) :
  kept mealIsVegetarian image = false -> step st image = Ok st.
Proof. intros H%kept_false. unfold matchStep. rewrite H. reflexivity. Qed.

(** Every way an iteration can end, with all the tests it made. *)
Lemma matchStep_cases (st : MatchState) (image : ImageEmbedding) :
  (kept mealIsVegetarian image = false /\ step st image = Ok st)
  \/ (kept mealIsVegetarian image = true
      /\ length mealEmbedding <> length (img_embedding image)
      /\ step st image
         = Err (VectorLengthMismatch (length mealEmbedding) (length (img_embedding image))))
  \/ (kept mealIsVegetarian image = true
      /\ exists c,
           calculateCosineSimilarity mealEmbedding (img_embedding image) = Ok c
           /\ (((cosineThreshold <=? c)%float = true
                /\ (st_bestCosineScore st <? c)%float = true
                /\ step st image = Ok (selectCosine CONFIG st image c))
               \/ ((cosineThreshold <=? c)%float && (st_bestCosineScore st <? c)%float = false
                   /\ st_method st <> cosine
                   /\ (textThreshold <=? textOf image)%float = true
                   /\ (st_bestTextScore st <? textOf image)%float = true
                   /\ step st image = Ok (selectText CONFIG st image (textOf image)))
               \/ ((cosineThreshold <=? c)%float && (st_bestCosineScore st <? c)%float = false
                   /\ step st image = Ok st))).
Proof.
  destruct (kept mealIsVegetarian image) eqn:Hkept.
  2: { left. split; [reflexivity | apply matchStep_skip, Hkept]. }
  right. pose proof Hkept as Hk%kept_true.
  destruct (Nat.eq_dec (length mealEmbedding) (length (img_embedding image))) as [Hlen|Hlen].
  2: { left. split; [reflexivity|]. split; [exact Hlen|].
       unfold matchStep. rewrite Hk, (calculateCosineSimilarity_mismatch _ _ Hlen).
       reflexivity. }
  right. split; [reflexivity|].
  pose proof (calculateCosineSimilarity_match _ _ Hlen) as Hcos.
  eexists. split; [exact Hcos|].
  unfold matchStep. rewrite Hk, Hcos. cbn [bind].
  set (c := if (norm mealEmbedding * norm (img_embedding image) =? 0)%float
            then 0%float
            else (dot mealEmbedding (img_embedding image)
                  / (norm mealEmbedding * norm (img_embedding image)))%float).
  destruct (cosineThreshold <=? c)%float eqn:Hq, (st_bestCosineScore st <? c)%float eqn:Hb;
    cbn [andb]; [left; repeat split; reflexivity | | |].
  all: right.
  all: destruct (st_method st) eqn:Hm; cbn [method_eqb negb andb];
    try (right; split; reflexivity).
  all: destruct (textThreshold <=? textOf image)%float eqn:Ht,
         (st_bestTextScore st <? textOf image)%float eqn:Hbt; cbn [andb];
    try (right; split; reflexivity).
  all: left; repeat split; try reflexivity; discriminate.
Qed.

(** Images that the filter skips do not take part in the loop. *)
Lemma matchLoop_filter_kept (images : list ImageEmbedding) (st : MatchState) :
  loop (filter (fun image => kept mealIsVegetarian image = true) images) st
  = loop images st.
Proof.
  revert st. induction images as [|image images IH]; intros st; [reflexivity|].
  rewrite filter_cons. destruct (kept mealIsVegetarian image) eqn:Hkept.
  - rewrite decide_True by reflexivity. cbn [matchLoop].
    destruct (step st image); [cbn [bind]; apply IH | reflexivity].
  - rewrite decide_False by discriminate. cbn [matchLoop].
    rewrite (matchStep_skip _ _ Hkept). cbn [bind]. apply IH.
Qed.

Lemma imageIsVegetarian_resolve (image : ImageEmbedding) :
  imageIsVegetarian (resolveImage image) = imageIsVegetarian image.
Proof.
  unfold resolveImage, annotate, imageIsVegetarian.
  destruct (img_isVegetarian image); reflexivity.
Qed.

Lemma matchStep_resolve (st : MatchState) (image : ImageEmbedding) :
  step (resolveState st) (resolveImage image) = mapResult resolveState (step st image).
Proof.
  unfold matchStep. rewrite imageIsVegetarian_resolve.
  destruct (mealIsVegetarian && negb (imageIsVegetarian image)); [reflexivity|].
  change (img_embedding (resolveImage image)) with (img_embedding image).
  change (img_name (resolveImage image)) with (img_name image).
  destruct (calculateCosineSimilarity mealEmbedding (img_embedding image)) as [c|e];
    [|reflexivity].
  cbn [bind resolveState st_bestCosineScore st_method st_bestTextScore].
  destruct ((cosineThreshold <=? c)%float && (st_bestCosineScore st <? c)%float);
    [reflexivity|].
  destruct (negb (method_eqb (st_method st) cosine)
            && (textThreshold <=? textOf image)%float
            && (st_bestTextScore st <? textOf image)%float); reflexivity.
Qed.

Lemma matchLoop_resolve (images : list ImageEmbedding) (st : MatchState) :
  loop (map resolveImage images) (resolveState st)
  = mapResult resolveState (loop images st).
Proof.
  revert st. induction images as [|image images IH]; intros st; [reflexivity|].
  cbn [map matchLoop]. rewrite matchStep_resolve.
  destruct (step st image) as [st'|e]; [cbn [mapResult bind]; apply IH | reflexivity].
Qed.

(** The scores and the reason of the state describe the image held. *)
Lemma matchStep_scoresReported (st st' : MatchState) (image : ImageEmbedding) :
  scoresReported CONFIG mealName mealEmbedding st ->
  step st image = Ok st' ->
  scoresReported CONFIG mealName mealEmbedding st'.
Proof.
  intros Hst Hstep.
  destruct (matchStep_cases st image)
    as [[_ H] | [(_ & _ & H) | (_ & c & Hcos & [(Hq & _ & H) | [(Hno & Hm & Ht & _ & H) | [_ H]]])]];
    rewrite H in Hstep; try discriminate; injection Hstep as <-; try exact Hst.
  - unfold scoresReported. cbn. exists image. repeat split; assumption.
  - unfold scoresReported in *. cbn. exists image.
    destruct (st_method st); try contradiction; try (exfalso; apply Hm; reflexivity).
    + destruct Hst as (_ & Hzero & _). repeat split; assumption.
    + destruct Hst as (_ & _ & _ & _ & Hzero & _). repeat split; assumption.
Qed.

Lemma matchLoop_scoresReported (images : list ImageEmbedding) (st st' : MatchState) :
  scoresReported CONFIG mealName mealEmbedding st ->
  loop images st = Ok st' ->
  scoresReported CONFIG mealName mealEmbedding st'.
Proof.
  revert st. induction images as [|image images IH]; intros st Hst; cbn [matchLoop].
  - intros [= <-]. exact Hst.
  - destruct (step st image) as [st1|e] eqn:Hstep; [|discriminate].
    cbn [bind]. apply IH. exact (matchStep_scoresReported _ _ _ Hst Hstep).
Qed.

(** The best cosine score never falls below a score it has passed. *)
Lemma matchStep_best_grows (st st' : MatchState) (image : ImageEmbedding) (c : float) :
  step st image = Ok st' ->
  (st_bestCosineScore st <? c)%float = false ->
  (st_bestCosineScore st' <? c)%float = false.
Proof.
  intros Hstep Hc.
  destruct (matchStep_cases st image)
    as [[_ H] | [(_ & _ & H) | (_ & c' & Hcos & [(_ & Hb & H) | [(_ & _ & _ & _ & H) | [_ H]]])]];
    rewrite H in Hstep; try discriminate; injection Hstep as <-; try exact Hc.
  cbn. destruct (c' <? c)%float eqn:Hlt; [|reflexivity].
  rewrite (float_ltb_trans _ _ _ Hb Hlt) in Hc. discriminate.
Qed.

Lemma matchLoop_best_grows (images : list ImageEmbedding) (st st' : MatchState) (c : float) :
  loop images st = Ok st' ->
  (st_bestCosineScore st <? c)%float = false ->
  (st_bestCosineScore st' <? c)%float = false.
Proof.
  revert st. induction images as [|image images IH]; intros st; cbn [matchLoop].
  - intros [= <-]. auto.
  - destruct (step st image) as [st1|e] eqn:Hstep; [|discriminate].
    cbn [bind]. intros Hloop Hc. apply (IH st1 Hloop).
    exact (matchStep_best_grows _ _ _ _ Hstep Hc).
Qed.

Lemma matchStep_passes (st st' : MatchState) (image : ImageEmbedding) (c : float) :
  step st image = Ok st' ->
  kept mealIsVegetarian image = true ->
  calculateCosineSimilarity mealEmbedding (img_embedding image) = Ok c ->
  (cosineThreshold <=? c)%float = true ->
  (st_bestCosineScore st' <? c)%float = false.
Proof.
  intros Hstep Hkept Hcos Hq.
  destruct (matchStep_cases st image)
    as [[Hk _] | [(_ & _ & H) | (_ & c' & Hcos' & Hcases)]].
  - rewrite Hkept in Hk. discriminate.
  - rewrite H in Hstep. discriminate.
  - rewrite Hcos in Hcos'. injection Hcos' as <-.
    destruct Hcases as [(_ & _ & H) | [(Hno & _ & _ & _ & H) | [Hno H]]];
      rewrite H in Hstep; injection Hstep as <-; cbn.
    + apply float_ltb_irrefl.
    + rewrite Hq in Hno. exact Hno.
    + rewrite Hq in Hno. exact Hno.
Qed.

Lemma matchLoop_passes (images : list ImageEmbedding) (st st' : MatchState)
    (image : ImageEmbedding) (c : float) :
  loop images st = Ok st' ->
  image ∈ images ->
  kept mealIsVegetarian image = true ->
  calculateCosineSimilarity mealEmbedding (img_embedding image) = Ok c ->
  (cosineThreshold <=? c)%float = true ->
  (st_bestCosineScore st' <? c)%float = false.
Proof.
  revert st. induction images as [|x images IH]; intros st Hloop Hin Hkept Hcos Hq.
  - apply elem_of_nil in Hin. contradiction.
  - cbn [matchLoop] in Hloop.
    destruct (step st x) as [st1|e] eqn:Hstep; [|discriminate]. cbn [bind] in Hloop.
    apply elem_of_cons in Hin as [-> | Hin].
    + apply (matchLoop_best_grows _ _ _ _ Hloop).
      exact (matchStep_passes _ _ _ _ Hstep Hkept Hcos Hq).
    + exact (IH st1 Hloop Hin Hkept Hcos Hq).
Qed.

(** A kept image whose embedding has another length than the meal's makes
    the loop throw. *)
Lemma matchLoop_bad_embedding (images : list ImageEmbedding) (st : MatchState)
    (image : ImageEmbedding) :
  image ∈ images ->
  kept mealIsVegetarian image = true ->
  length mealEmbedding <> length (img_embedding image) ->
  exists n, n <> length mealEmbedding
            /\ loop images st = Err (VectorLengthMismatch (length mealEmbedding) n).
Proof.
  revert st. induction images as [|x images IH]; intros st Hin Hkept Hlen.
  - apply elem_of_nil in Hin. contradiction.
  - cbn [matchLoop].
    destruct (matchStep_cases st x)
      as [[Hk H] | [(_ & Hne & H) | (_ & c & Hcos & Hcases)]].
    + rewrite H. cbn [bind].
      apply elem_of_cons in Hin as [-> | Hin]; [congruence | apply IH; assumption].
    + rewrite H. cbn [bind]. eexists. split; [|reflexivity]. congruence.
    + assert (Hok : exists st1, step st x = Ok st1).
      { destruct Hcases as [(_ & _ & H) | [(_ & _ & _ & _ & H) | [_ H]]]; eauto. }
      destruct Hok as [st1 H]. rewrite H. cbn [bind].
      apply elem_of_cons in Hin as [-> | Hin]; [|apply IH; assumption].
      rewrite (calculateCosineSimilarity_mismatch _ _ Hlen) in Hcos. discriminate.
Qed.

End SelectorMore.

(** X8: images that the vegetarian filter skips are invisible to
    [findBestImageMatch]: taking them out of the catalog changes neither the
    result nor the exception, whatever their names and embeddings are (an
    embedding of the wrong length on a skipped image does no harm). *)
Theorem skipped_images_are_invisible :
  forall CONFIG cuisineMap mealName mealEmbedding mealIsVegetarian images,
    findBestImageMatch CONFIG cuisineMap mealName mealEmbedding mealIsVegetarian
      (filter (fun image => kept mealIsVegetarian image = true) images)
    = findBestImageMatch CONFIG cuisineMap mealName mealEmbedding mealIsVegetarian images.
Proof.
  intros. unfold findBestImageMatch. rewrite matchLoop_filter_kept. reflexivity.
Qed.

Lemma skipped_images_are_invisible_aux (CONFIG : Config)
    (cuisineMap : gmap string Cuisine) (mealName : string) (mealEmbedding : list float)
    (mealIsVegetarian : bool) (images : list ImageEmbedding) :
  findBestImageMatch CONFIG cuisineMap mealName mealEmbedding mealIsVegetarian
    (filter (fun image => kept mealIsVegetarian image = true) images)
  = findBestImageMatch CONFIG cuisineMap mealName mealEmbedding mealIsVegetarian images.
Proof. unfold findBestImageMatch. rewrite matchLoop_filter_kept. reflexivity. Qed.

Lemma filtered_catalog (images : list ImageEmbedding) (mealName description : string) :
  map f_image (filterImagesByVegetarianConstraint images mealName description)
  = filter (fun image => kept (detectMealVegetarian mealName description) image = true)
      (map resolveImage images).
Proof.
  unfold filterImagesByVegetarianConstraint.
  induction images as [|image images IH]; [reflexivity|].
  cbn [map]. rewrite !filter_cons.
  assert (Hsame : kept (detectMealVegetarian mealName description) (resolveImage image)
                  = allowed (detectMealVegetarian mealName description) (annotate image)).
  { rewrite allowed_annotate. unfold kept. rewrite imageIsVegetarian_resolve. reflexivity. }
  rewrite Hsame.
  destruct (allowed (detectMealVegetarian mealName description) (annotate image)).
  - rewrite !decide_True by reflexivity. cbn [map]. rewrite IH. reflexivity.
  - rewrite !decide_False by discriminate. exact IH.
Qed.

(** X5: filtering the catalog with [filterImagesByVegetarianConstraint]
    before matching changes nothing: for the flag that
    [detectMealVegetarian] gives the meal, [findBestImageMatch] on the
    filtered catalog returns the same method, scores, reason and url, and the
    same image with its resolved flag written in; it throws the same
    exception when it throws. *)
Theorem matching_after_catalog_filter :
  forall CONFIG cuisineMap mealName description mealEmbedding images,
    findBestImageMatch CONFIG cuisineMap mealName mealEmbedding
      (detectMealVegetarian mealName description)
      (map f_image (filterImagesByVegetarianConstraint images mealName description))
    = mapResult resolveResult
        (findBestImageMatch CONFIG cuisineMap mealName mealEmbedding
           (detectMealVegetarian mealName description) images).
Proof.
  intros. rewrite filtered_catalog, skipped_images_are_invisible_aux.
  unfold findBestImageMatch.
  change initialState with (resolveState initialState) at 1.
  rewrite matchLoop_resolve.
  destruct (matchLoop CONFIG mealName mealEmbedding
              (detectMealVegetarian mealName description) images initialState)
    as [st|e]; [|reflexivity].
  cbn [mapResult bind resolveState st_bestMatch].
  destruct (st_bestMatch st) as [image|]; [|reflexivity].
  cbn [fmap option_fmap option_map].
  change (img_name (resolveImage image)) with (img_name image).
  destruct (getProperty cuisineMap (propertyKey (img_name image))); reflexivity.
Qed.

(** X9: what a returned result reports. The image is one of the catalog
    that the filter kept. Under the method [cosine] the reported cosine
    score is the cosine score of that image and reaches the threshold (the
    text score beside it may come from another image). Under the method
    [text] the reported text score is the text score of that image and
    reaches the text threshold, and the reported cosine score is 0 whatever
    the cosine score of the image is. *)
Theorem reported_scores (CONFIG : Config) (cuisineMap : gmap string Cuisine)
    (mealName : string) (mealEmbedding : list float) (mealIsVegetarian : bool)
    (images : list ImageEmbedding) (r : MatchResult) :
  findBestImageMatch CONFIG cuisineMap mealName mealEmbedding mealIsVegetarian images = Ok r ->
  exists image,
    bestMatch r = Some image /\ image ∈ images /\ kept mealIsVegetarian image = true
    /\ ((matchMethod r = cosine
         /\ calculateCosineSimilarity mealEmbedding (img_embedding image)
            = Ok (cosineScore r)
         /\ (COSINE_SIMILARITY_THRESHOLD CONFIG <=? cosineScore r)%float = true
         /\ matchReason r
            = CosineReason (cosineScore r) (COSINE_SIMILARITY_THRESHOLD CONFIG))
        \/ (matchMethod r = text
            /\ textScore r = calculateTextSimilarity mealName (default "" (img_name image))
            /\ (TEXT_SIMILARITY_THRESHOLD CONFIG <=? textScore r)%float = true
            /\ cosineScore r = 0%float
            /\ matchReason r
               = TextReason (textScore r) (TEXT_SIMILARITY_THRESHOLD CONFIG))).
Proof.
  intros Hr. unfold findBestImageMatch in Hr.
  destruct (matchLoop CONFIG mealName mealEmbedding mealIsVegetarian images initialState)
    as [st|e] eqn:Hloop; [|discriminate].
  cbn [bind] in Hr.
  destruct (st_bestMatch st) as [image|] eqn:Hbest; [|discriminate].
  assert (Hscores : scoresReported CONFIG mealName mealEmbedding st).
  { refine (matchLoop_scoresReported _ _ _ _ _ _ _ _ Hloop).
    unfold scoresReported. cbn. repeat split. }
  destruct (matchLoop_bestMatch _ _ _ _ _ _ _ _ Hloop Hbest) as [H | [Hin Hkept]];
    [discriminate|].
  exists image.
  assert (Hfields : bestMatch r = Some image /\ cosineScore r = st_bestCosineScore st
                    /\ textScore r = st_bestTextScore st /\ matchMethod r = st_method st
                    /\ matchReason r = st_reason st).
  { destruct (getProperty cuisineMap (propertyKey (img_name image)));
      [| |discriminate]; injection Hr as <-; cbn; auto. }
  destruct Hfields as (Hb & Hc & Ht & Hm & Hre).
  split; [exact Hb|]. split; [exact Hin|]. split; [apply kept_true, Hkept|].
  unfold scoresReported in Hscores. rewrite Hc, Ht, Hm, Hre.
  destruct (st_method st).
  - destruct Hscores as [Hnone _]. congruence.
  - left. destruct Hscores as (image' & Hb' & Hcos & Hq & Hreason).
    assert (image' = image) by congruence. subst image'. auto.
  - right. destruct Hscores as (image' & Hb' & Htext & Hq & Hzero & Hreason).
    assert (image' = image) by congruence. subst image'. auto.
  - contradiction.
Qed.

Lemma reported_scores_witness :
  exists r image,
    findBestImageMatch defaultConfig Samples.cuisines "Dal" Samples.mealEmbedding false
      [Samples.dalImage] = Ok r
    /\ bestMatch r = Some image
    /\ matchMethod r = text
    /\ cosineScore r = 0%float
    /\ calculateCosineSimilarity Samples.mealEmbedding (img_embedding image)
       = Ok (-0.19611613513818404)%float.
Proof.
  destruct (findBestImageMatch defaultConfig Samples.cuisines "Dal" Samples.mealEmbedding
              false [Samples.dalImage]) as [r|e] eqn:Hr;
    [|vm_compute in Hr; discriminate].
  destruct (reported_scores _ _ _ _ _ _ _ Hr)
    as (image & Hbest & Hin & _ & [(Hm & _) | (Hm & _ & _ & Hzero & _)]).
  - vm_compute in Hr. injection Hr as <-. discriminate.
  - exists r, image. repeat split; try assumption.
    apply list_elem_of_singleton in Hin as ->. vm_compute. reflexivity.
Defined.

(** X10: the reported cosine score is never beaten: no image of the
    catalog that the filter kept has a cosine score that reaches the
    threshold and lies above the cosine score of the result. With X9, a
    [cosine] result holds an image whose score is the highest of the
    qualifying ones. *)
Theorem cosine_score_is_highest (CONFIG : Config) (cuisineMap : gmap string Cuisine)
    (mealName : string) (mealEmbedding : list float) (mealIsVegetarian : bool)
    (images : list ImageEmbedding) (r : MatchResult) (image : ImageEmbedding) (c : float) :
  findBestImageMatch CONFIG cuisineMap mealName mealEmbedding mealIsVegetarian images = Ok r ->
  image ∈ images ->
  kept mealIsVegetarian image = true ->
  calculateCosineSimilarity mealEmbedding (img_embedding image) = Ok c ->
  (COSINE_SIMILARITY_THRESHOLD CONFIG <=? c)%float = true ->
  (cosineScore r <? c)%float = false.
Proof.
  intros Hr Hin Hkept Hcos Hq. unfold findBestImageMatch in Hr.
  destruct (matchLoop CONFIG mealName mealEmbedding mealIsVegetarian images initialState)
    as [st|e] eqn:Hloop; [|discriminate].
  cbn [bind] in Hr.
  assert (Hc : cosineScore r = st_bestCosineScore st).
  { destruct (st_bestMatch st) as [best|]; [|discriminate].
    destruct (getProperty cuisineMap (propertyKey (img_name best)));
      [| |discriminate]; injection Hr as <-; reflexivity. }
  rewrite Hc. exact (matchLoop_passes _ _ _ _ _ _ _ _ _ Hloop Hin Hkept Hcos Hq).
Qed.

Lemma cosine_score_is_highest_witness :
  exists r,
    findBestImageMatch defaultConfig Samples.cuisines "Dal" Samples.mealEmbedding false
      [Samples.dalImage; Samples.paneerImage; Samples.chickenImage] = Ok r
    /\ (cosineScore r <? 1)%float = false.
Proof.
  destruct (findBestImageMatch defaultConfig Samples.cuisines "Dal" Samples.mealEmbedding
              false [Samples.dalImage; Samples.paneerImage; Samples.chickenImage])
    as [r|e] eqn:Hr; [|vm_compute in Hr; discriminate].
  exists r. split; [reflexivity|].
  apply (cosine_score_is_highest _ _ _ _ _ _ _ Samples.chickenImage _ Hr);
    [| reflexivity | vm_compute; reflexivity | vm_compute; reflexivity].
  apply list_elem_of_further, list_elem_of_further, list_elem_of_here.
Defined.

(** X11: one catalog image with an embedding of another length than the
    meal's makes [findBestImageMatch] throw the length-mismatch error for
    every meal whose flag lets that image pass the filter, whatever the other
    images are and even when another image has matched before. *)
Theorem wrong_length_embedding_throws (CONFIG : Config)
    (cuisineMap : gmap string Cuisine) (mealName : string) (mealEmbedding : list float)
    (mealIsVegetarian : bool) (images : list ImageEmbedding) (image : ImageEmbedding) :
  image ∈ images ->
  kept mealIsVegetarian image = true ->
  length mealEmbedding <> length (img_embedding image) ->
  exists n,
    n <> length mealEmbedding
    /\ findBestImageMatch CONFIG cuisineMap mealName mealEmbedding mealIsVegetarian images
       = Err (VectorLengthMismatch (length mealEmbedding) n).
Proof.
  intros Hin Hkept Hlen.
  destruct (matchLoop_bad_embedding CONFIG mealName mealEmbedding mealIsVegetarian
              images initialState image Hin Hkept Hlen) as (n & Hn & Hloop).
  exists n. split; [exact Hn|].
  unfold findBestImageMatch. rewrite Hloop. reflexivity.
Qed.

Lemma wrong_length_embedding_throws_witness :
  exists n,
    n <> 2
    /\ findBestImageMatch defaultConfig Samples.cuisines "Chicken Curry"
         Samples.mealEmbedding false [Samples.paneerImage; Samples.shortImage]
       = Err (VectorLengthMismatch 2 n).
Proof.
  apply (wrong_length_embedding_throws defaultConfig Samples.cuisines "Chicken Curry"
           Samples.mealEmbedding false [Samples.paneerImage; Samples.shortImage]
           Samples.shortImage).
  - apply list_elem_of_further, list_elem_of_here.
  - reflexivity.
  - discriminate.
Defined.

(** ** More on batches and persistence *)

Section BatchMore.
Context {World : Type}.
Variable generateMealEmbedding : string -> World -> result (list float) * World.
Variable addDoc : MappingResult -> World -> result unit * World.
Variable getRemainingTimeInMillis : World -> Z * World.
Variable CONFIG : Config.

Abbreviation persist := (updateFirestoreMappings addDoc).
Abbreviation runBatches :=
  (batchLoop generateMealEmbedding addDoc getRemainingTimeInMillis CONFIG).
Abbreviation batchSize := (MAX_MEALS_PER_BATCH CONFIG).
Abbreviation resultKey := (fun r : MappingResult => (r_mealId r, r_mealName r)).
Abbreviation mealKey := (fun m : Meal => (meal_id m, meal_name m)).

Lemma updateFirestoreMappings_filter (results : list MappingResult) (w : World) :
  persist results w = persist (filter (fun r => isMapped r = true) results) w.
Proof.
  revert w. induction results as [|r results IH]; intros w; [reflexivity|].
  rewrite filter_cons. cbn [updateFirestoreMappings].
  destruct (isMapped r) eqn:Hr.
  - rewrite decide_True by reflexivity. cbn [updateFirestoreMappings]. rewrite Hr.
    destruct (addDoc r w) as [[u|e] w']; [apply IH | reflexivity].
  - rewrite decide_False by discriminate. apply IH.
Qed.

Lemma updateFirestoreMappings_ok (results : list MappingResult) (w : World) :
  (forall r w0, (addDoc r w0).1 = Ok tt) ->
  (persist results w).1 = Ok tt.
Proof.
  intros Hok. revert w. induction results as [|r results IH]; intros w; [reflexivity|].
  cbn [updateFirestoreMappings]. destruct (isMapped r); [|apply IH].
  specialize (Hok r w). destruct (addDoc r w) as [[u|e] w']; [apply IH | discriminate].
Qed.

Lemma processMealBatch_keys (cuisineMap : gmap string Cuisine)
    (images : list ImageEmbedding) (meals : list Meal) (w : World) :
  map resultKey
    (processMealBatch generateMealEmbedding CONFIG cuisineMap meals images w).1
  = map mealKey meals.
Proof.
  revert w. induction meals as [|meal meals IH]; intros w; [reflexivity|].
  cbn [processMealBatch].
  pose proof (processMeal_id generateMealEmbedding CONFIG cuisineMap images meal w)
    as [Hid Hname].
  destruct (processMeal generateMealEmbedding CONFIG cuisineMap images meal w) as [r w1].
  specialize (IH w1).
  destruct (processMealBatch generateMealEmbedding CONFIG cuisineMap meals images w1)
    as [rs w2].
  cbn in *. rewrite Hid, Hname, IH. reflexivity.
Qed.

Lemma updateFirestoreMappings_nil (w : World) (e : exn) (w' : World) :
  persist [] w <> (Err e, w').
Proof. discriminate. Qed.

(** [slice] on the indices the loop reaches. *)
Lemma slice_forward {A : Type} (array : list A) (i n : Z) :
  (0 <= i)%Z -> (0 < n)%Z ->
  slice array i (i + n) = take (Z.to_nat n) (drop (Z.to_nat i) array).
Proof.
  intros Hi Hn. unfold slice.
  destruct (Z.ltb_spec i 0); [lia|]. destruct (Z.ltb_spec (i + n) 0); [lia|].
  destruct (Z_le_gt_dec i (Z.of_nat (length array))) as [Hin|Hout].
  - rewrite (Z.min_l i) by lia.
    destruct (Z_le_gt_dec (i + n) (Z.of_nat (length array))) as [Hfull|Hshort].
    + rewrite Z.min_l by lia. replace (i + n - i)%Z with n by lia. reflexivity.
    + rewrite Z.min_r by lia.
      rewrite !take_ge; [reflexivity | rewrite length_drop; lia | rewrite length_drop; lia].
  - rewrite !Z.min_r by lia. rewrite Z.sub_diag. cbn [Z.to_nat take].
    rewrite (drop_ge array (Z.to_nat i)) by lia. rewrite take_nil. reflexivity.
Qed.

Lemma slice_backward {A : Type} (array : list A) (i n : Z) :
  ((i < 0 /\ n < 0) \/ n = 0)%Z -> slice array i (i + n) = [].
Proof.
  intros H. unfold slice.
  match goal with |- take (Z.to_nat ?d) _ = _ => assert (Hd : Z.to_nat d = 0) end.
  { destruct (Z.ltb_spec i 0), (Z.ltb_spec (i + n) 0); lia. }
  rewrite Hd. reflexivity.
Qed.

Lemma slice_first {A : Type} (array : list A) (n : Z) :
  (n < 0)%Z ->
  slice array 0 (0 + n) = take (Z.to_nat (Z.of_nat (length array) + n)) array.
Proof.
  intros Hn. rewrite Z.add_0_l. unfold slice. cbn [Z.ltb Z.compare].
  destruct (Z.ltb_spec n 0); [|lia].
  rewrite Z.min_l by lia. cbn [Z.to_nat drop].
  match goal with |- take ?a _ = take ?b _ => replace a with b by lia end.
  reflexivity.
Qed.

(** What the batch loop has done when it stops: a positive batch size. *)
Lemma batchLoop_forward (fuel : nat) (cuisineMap : gmap string Cuisine)
    (images : list ImageEmbedding) (meals : list Meal) (i : Z)
    (allResults : list MappingResult) (processedCount : nat) (w w' : World)
    (outcome : list MappingResult * nat + exn * nat) :
  (0 < batchSize)%Z -> (0 <= i)%Z ->
  runBatches fuel cuisineMap images meals i allResults processedCount w
  = Some (outcome, w') ->
  match outcome with
  | inl (results, count) =>
      exists added,
        results = allResults ++ added
        /\ count = processedCount + length added
        /\ map resultKey added
           = map mealKey (take (length added) (drop (Z.to_nat i) meals))
        /\ length added <= length (drop (Z.to_nat i) meals)
        /\ (length added = length (drop (Z.to_nat i) meals)
            \/ Nat.divide (Z.to_nat batchSize) (length added))
  | inr (_, count) =>
      processedCount < count <= processedCount + length (drop (Z.to_nat i) meals)
  end.
Proof.
  intros Hpos. revert i allResults processedCount w.
  assert (Hstop : forall i allResults processedCount,
            (Z.of_nat (length meals) <= i)%Z ->
            exists added : list MappingResult,
              allResults = allResults ++ added
              /\ processedCount = processedCount + length added
              /\ map resultKey added
                 = map mealKey (take (length added) (drop (Z.to_nat i) meals))
              /\ length added <= length (drop (Z.to_nat i) meals)
              /\ (length added = length (drop (Z.to_nat i) meals)
                  \/ Nat.divide (Z.to_nat batchSize) (length added))).
  { intros i allResults processedCount Hge. exists [].
    rewrite app_nil_r, Nat.add_0_r, length_drop. cbn [length take map].
    repeat split; [lia | left; lia]. }
  induction fuel as [|fuel IH]; intros i allResults processedCount w Hi;
    cbn [batchLoop]; destruct (Z.ltb_spec i (Z.of_nat (length meals))) as [Hlt|Hge];
    try discriminate; try (intros [= <- <-]; apply Hstop; exact Hge).
  destruct (getRemainingTimeInMillis w) as [t w0].
  destruct (t <? 30000)%Z.
  { intros [= <- <-]. exists [].
    rewrite app_nil_r, Nat.add_0_r. cbn [length take map].
    repeat split; [lia | right; apply Nat.divide_0_r]. }
  rewrite slice_forward by lia.
  set (remaining := drop (Z.to_nat i) meals).
  assert (Hrem : 0 < length remaining).
  { unfold remaining. rewrite length_drop. lia. }
  pose proof (processMealBatch_keys cuisineMap images
                (take (Z.to_nat batchSize) remaining) w0) as Hkeys.
  destruct (processMealBatch generateMealEmbedding CONFIG cuisineMap
              (take (Z.to_nat batchSize) remaining) images w0) as [batchResults w1].
  cbn [fst] in Hkeys.
  assert (Hlen : length batchResults = length (take (Z.to_nat batchSize) remaining)).
  { apply (f_equal length) in Hkeys. rewrite !length_map in Hkeys. exact Hkeys. }
  assert (Htake : 0 < length (take (Z.to_nat batchSize) remaining) <= length remaining).
  { rewrite length_take. lia. }
  destruct (persist batchResults w1) as [[u|e] w2].
  2: { intros [= <- <-]. lia. }
  intros Hrun. apply IH in Hrun; [|lia].
  assert (Hdrop : drop (Z.to_nat (i + batchSize)) meals
                  = drop (Z.to_nat batchSize) remaining).
  { unfold remaining. rewrite drop_drop. f_equal. lia. }
  rewrite Hdrop in Hrun.
  destruct outcome as [[results count]|[e count]].
  - destruct Hrun as (added & -> & -> & Hadded & Hle & Hwhole).
    rewrite length_drop in Hle.
    exists (batchResults ++ added).
    rewrite length_app, map_app, Hkeys, Hadded, Hlen, <- app_assoc.
    split; [reflexivity|]. split; [lia|].
    destruct (le_lt_dec (Z.to_nat batchSize) (length remaining)) as [Hfull|Hshort].
    + rewrite (length_take_le _ _ Hfull) in *.
      rewrite <- map_app, take_take_drop. split; [reflexivity|]. split; [lia|].
      destruct Hwhole as [Hall|Hdiv].
      * left. rewrite length_drop in Hall. lia.
      * right. apply Nat.divide_add_r; [apply Nat.divide_refl | exact Hdiv].
    + assert (Hadd0 : length added = 0) by lia.
      rewrite (take_ge remaining (Z.to_nat batchSize)) in * by lia.
      rewrite Hadd0, Nat.add_0_r.
      destruct added; [|discriminate]. cbn [take map].
      rewrite app_nil_r, firstn_all. repeat split; [lia | left; reflexivity].
  - rewrite length_drop in Hrun. rewrite length_take in *. lia.
Qed.

(** With a batch size of 0, or with a negative one once [i] is negative,
    every batch is empty: the loop changes nothing and ends only on the
    time check. *)
Lemma batchLoop_idle (fuel : nat) (cuisineMap : gmap string Cuisine)
    (images : list ImageEmbedding) (meals : list Meal) (i : Z)
    (allResults : list MappingResult) (processedCount : nat) (w w' : World)
    (outcome : list MappingResult * nat + exn * nat) :
  ((i < 0 /\ batchSize < 0) \/ batchSize = 0)%Z ->
  runBatches fuel cuisineMap images meals i allResults processedCount w
  = Some (outcome, w') ->
  outcome = inl (allResults, processedCount).
Proof.
  revert i allResults processedCount w.
  induction fuel as [|fuel IH]; intros i allResults processedCount w Hidle;
    cbn [batchLoop]; destruct (i <? Z.of_nat (length meals))%Z;
    try discriminate; try (intros [= <- <-]; reflexivity).
  destruct (getRemainingTimeInMillis w) as [t w0].
  destruct (t <? 30000)%Z; [intros [= <- <-]; reflexivity|].
  rewrite slice_backward by exact Hidle.
  cbn [processMealBatch updateFirestoreMappings length].
  rewrite app_nil_r, Nat.add_0_r. apply IH. lia.
Qed.

(** What the batch loop has done when it stops: a negative batch size.
    The first batch is the meals but the last [-batchSize]. *)
Lemma batchLoop_backward (fuel : nat) (cuisineMap : gmap string Cuisine)
    (images : list ImageEmbedding) (meals : list Meal) (w w' : World)
    (outcome : list MappingResult * nat + exn * nat) :
  (batchSize < 0)%Z ->
  runBatches fuel cuisineMap images meals 0 [] 0 w = Some (outcome, w') ->
  match outcome with
  | inl (results, count) =>
      count = length results
      /\ map resultKey results = map mealKey (take count meals)
      /\ (count = 0 \/ Z.of_nat count = (Z.of_nat (length meals) + batchSize)%Z)
  | inr (_, count) => 0 < count <= length meals
  end.
Proof.
  intros Hneg. destruct fuel as [|fuel]; cbn [batchLoop];
    destruct (0 <? Z.of_nat (length meals))%Z;
    try discriminate; try (intros [= <- <-]; repeat split; left; reflexivity).
  destruct (getRemainingTimeInMillis w) as [t w0].
  destruct (t <? 30000)%Z; [intros [= <- <-]; repeat split; left; reflexivity|].
  rewrite slice_first by exact Hneg.
  set (k := Z.to_nat (Z.of_nat (length meals) + batchSize)).
  pose proof (processMealBatch_keys cuisineMap images (take k meals) w0) as Hkeys.
  destruct (processMealBatch generateMealEmbedding CONFIG cuisineMap
              (take k meals) images w0) as [batchResults w1].
  cbn [fst] in Hkeys.
  assert (Hlen : length batchResults = length (take k meals)).
  { apply (f_equal length) in Hkeys. rewrite !length_map in Hkeys. exact Hkeys. }
  assert (Hk : length (take k meals) = k).
  { rewrite length_take. lia. }
  destruct (persist batchResults w1) as [[u|e] w2] eqn:Hpersist.
  - intros Hrun. apply batchLoop_idle in Hrun; [|lia]. subst outcome.
    cbn [app Nat.add]. rewrite Hlen, Hk. repeat split.
    + rewrite Hkeys. reflexivity.
    + destruct (decide (k = 0)); [left; assumption | right; lia].
  - intros [= <- <-]. cbn [Nat.add].
    destruct batchResults as [|r rs]; [discriminate Hpersist|].
    cbn [length] in Hlen. lia.
Qed.

(** With time left at every check and every write succeeding, the loop
    consumes all the meals when the batch size is positive. *)
Lemma batchLoop_completes (fuel : nat) (cuisineMap : gmap string Cuisine)
    (images : list ImageEmbedding) (meals : list Meal) (i : Z)
    (allResults : list MappingResult) (processedCount : nat) (w : World) :
  (forall w0, (30000 <= (getRemainingTimeInMillis w0).1)%Z) ->
  (forall r w0, (addDoc r w0).1 = Ok tt) ->
  (0 < batchSize)%Z -> (0 <= i)%Z ->
  length (drop (Z.to_nat i) meals) <= fuel ->
  exists results w',
    runBatches fuel cuisineMap images meals i allResults processedCount w
    = Some (inl (results, processedCount + length (drop (Z.to_nat i) meals)), w').
Proof.
  intros Htime Hwrite Hpos. revert i allResults processedCount w.
  induction fuel as [|fuel IH]; intros i allResults processedCount w Hi Hfuel;
    pose proof Hfuel as Hfuel'; rewrite length_drop in Hfuel';
    cbn [batchLoop]; destruct (Z.ltb_spec i (Z.of_nat (length meals))) as [Hlt|Hge];
    try lia;
    try (eexists _, _; rewrite length_drop;
         replace (length meals - Z.to_nat i) with 0 by lia;
         rewrite Nat.add_0_r; reflexivity).
  specialize (Htime w) as Ht.
  destruct (getRemainingTimeInMillis w) as [t w0]. cbn [fst] in Ht.
  destruct (Z.ltb_spec t 30000); [lia|].
  rewrite slice_forward by lia.
  set (remaining := drop (Z.to_nat i) meals) in *.
  destruct (processMealBatch generateMealEmbedding CONFIG cuisineMap
              (take (Z.to_nat batchSize) remaining) images w0) as [batchResults w1].
  pose proof (updateFirestoreMappings_ok batchResults w1 Hwrite) as Hok.
  destruct (persist batchResults w1) as [[[]|e] w2]; cbn [fst] in Hok; [|discriminate].
  assert (Hdrop : drop (Z.to_nat (i + batchSize)) meals
                  = drop (Z.to_nat batchSize) remaining).
  { unfold remaining. rewrite drop_drop. f_equal. lia. }
  destruct (IH (i + batchSize)%Z (allResults ++ batchResults)
              (processedCount + length (take (Z.to_nat batchSize) remaining)) w2)
    as (results & w' & Hrun).
  { lia. }
  { rewrite Hdrop, length_drop. lia. }
  exists results, w'. rewrite Hrun, Hdrop.
  assert (Hcount : processedCount + length (take (Z.to_nat batchSize) remaining)
                   + length (drop (Z.to_nat batchSize) remaining)
                   = processedCount + length remaining).
  { rewrite <- Nat.add_assoc, <- length_app, take_drop. reflexivity. }
  rewrite Hcount. reflexivity.
Qed.

(** With a batch size that is not positive, time left at every check and
    every write succeeding, the loop over a non-empty list never ends. *)
Lemma batchLoop_spins (fuel : nat) (cuisineMap : gmap string Cuisine)
    (images : list ImageEmbedding) (meals : list Meal) (i : Z)
    (allResults : list MappingResult) (processedCount : nat) (w : World) :
  (forall w0, (30000 <= (getRemainingTimeInMillis w0).1)%Z) ->
  (forall r w0, (addDoc r w0).1 = Ok tt) ->
  (batchSize <= 0)%Z -> (i <= 0)%Z -> meals <> [] ->
  runBatches fuel cuisineMap images meals i allResults processedCount w = None.
Proof.
  intros Htime Hwrite Hneg. revert i allResults processedCount w.
  induction fuel as [|fuel IH]; intros i allResults processedCount w Hi Hmeals;
    cbn [batchLoop]; destruct (Z.ltb_spec i (Z.of_nat (length meals))) as [Hlt|Hge];
    try reflexivity;
    try (destruct meals; [contradiction | cbn [length] in Hge; lia]).
  specialize (Htime w) as Ht.
  destruct (getRemainingTimeInMillis w) as [t w0]. cbn [fst] in Ht.
  destruct (Z.ltb_spec t 30000); [lia|].
  destruct (processMealBatch _ _ _ _ _ _) as [batchResults w1].
  pose proof (updateFirestoreMappings_ok batchResults w1 Hwrite) as Hok.
  destruct (persist batchResults w1) as [[[]|e] w2]; cbn [fst] in Hok; [|discriminate].
  apply IH; [lia | exact Hmeals].
Qed.

(** The accounting of the loop from its start, for any batch size. *)
Lemma batchLoop_account (fuel : nat) (cuisineMap : gmap string Cuisine)
    (images : list ImageEmbedding) (meals : list Meal) (w w' : World)
    (outcome : list MappingResult * nat + exn * nat) :
  runBatches fuel cuisineMap images meals 0 [] 0 w = Some (outcome, w') ->
  match outcome with
  | inl (results, count) =>
      count = length results
      /\ count <= length meals
      /\ map resultKey results = map mealKey (take count meals)
      /\ ((0 < batchSize)%Z ->
          count = length meals \/ Nat.divide (Z.to_nat batchSize) count)
      /\ ((batchSize < 0)%Z ->
          count = 0 \/ Z.of_nat count = (Z.of_nat (length meals) + batchSize)%Z)
  | inr (_, count) => 0 < count <= length meals
  end.
Proof.
  intros Hrun.
  destruct (Z.lt_trichotomy batchSize 0) as [Hneg|[Hzero|Hpos]].
  - pose proof (batchLoop_backward _ _ _ _ _ _ _ Hneg Hrun) as H.
    destruct outcome as [[results count]|[e count]]; [|exact H].
    destruct H as (Hcount & Hkeys & Hfirst).
    split; [exact Hcount|]. split; [lia|]. split; [exact Hkeys|].
    split; [lia | intros _; exact Hfirst].
  - apply batchLoop_idle in Hrun; [|right; exact Hzero]. subst outcome.
    repeat split; lia.
  - pose proof (batchLoop_forward _ _ _ _ _ _ _ _ _ _ Hpos (Z.le_refl 0) Hrun) as H.
    change (Z.to_nat 0) with 0 in H. rewrite drop_0 in H.
    destruct outcome as [[results count]|[e count]]; [|lia].
    destruct H as (added & -> & -> & Hkeys & Hle & Hwhole).
    cbn [app Nat.add]. split; [reflexivity|]. split; [exact Hle|].
    split; [exact Hkeys|]. split; [intros _; exact Hwhole | lia].
Qed.

End BatchMore.

(** X12: persistence sees the mapped results only. Writing a batch is the
    same as writing the results that have an image url and a method other
    than [error]; the [error] result of a failed meal is never written, a
    matched result is written only when the cuisine gave a non-empty url, and
    the first failing write ends the batch's persistence with its error. *)
Theorem only_mapped_results_are_written :
  forall (World : Type) (addDoc : MappingResult -> World -> result unit * World),
    (forall results w,
       updateFirestoreMappings addDoc results w
       = updateFirestoreMappings addDoc (filter (fun r => isMapped r = true) results) w)
    /\ (forall meal e, isMapped (errorResult meal e) = false)
    /\ (forall meal matchResult,
          isMapped (matchedResult meal matchResult) = true <->
          (exists imageUrl, url matchResult = Some imageUrl /\ imageUrl <> "")
          /\ matchMethod matchResult <> error)
    /\ (forall r rest w e w',
          isMapped r = true -> addDoc r w = (Err e, w') ->
          updateFirestoreMappings addDoc (r :: rest) w = (Err e, w')).
Proof.
  intros World addDoc. split; [|split; [|split]].
  - apply updateFirestoreMappings_filter.
  - reflexivity.
  - intros meal matchResult. unfold isMapped, matchedResult, orNull. cbn.
    destruct (url matchResult) as [[|c imageUrl]|]; cbn.
    + split; [discriminate|]. intros [(imageUrl & [= <-] & H) _]. contradiction.
    + split.
      * intros H. split; [eexists; split; [reflexivity|discriminate]|].
        intros Hm. rewrite Hm in H. discriminate.
      * intros [_ Hm]. destruct (matchMethod matchResult); try reflexivity. contradiction.
    + split; [discriminate|]. intros [(imageUrl & [=] & _) _].
  - intros r rest w e w' Hr Hdoc. cbn [updateFirestoreMappings]. rewrite Hr, Hdoc.
    reflexivity.
Qed.

(** X13: the accounting of the batch loop, for any batch size. When the
    loop stops without an error, [processedCount] is the number of results
    and the results answer the first [processedCount] meals in their order
    (id and name). With a positive batch size the count is the number of
    meals or a whole number of batches. With a negative batch size only the
    first batch holds meals, all but the last [-batchSize] of them, so the
    count is 0 or the number of meals plus the batch size. When a write
    fails, the count includes the batch whose write failed. With a positive
    batch size the loop ends within one iteration per meal. *)
Theorem batch_loop_accounting :
  forall (World : Type) generateMealEmbedding addDoc getRemainingTimeInMillis CONFIG
    cuisineMap images meals (w : World),
    (forall fuel outcome w',
       batchLoop generateMealEmbedding addDoc getRemainingTimeInMillis CONFIG fuel
         cuisineMap images meals 0 [] 0 w = Some (outcome, w') ->
       match outcome with
       | inl (results, processedCount) =>
           processedCount = length results
           /\ processedCount <= length meals
           /\ map (fun r => (r_mealId r, r_mealName r)) results
              = map (fun m => (meal_id m, meal_name m)) (take processedCount meals)
           /\ ((0 < MAX_MEALS_PER_BATCH CONFIG)%Z ->
               processedCount = length meals
               \/ Nat.divide (Z.to_nat (MAX_MEALS_PER_BATCH CONFIG)) processedCount)
           /\ ((MAX_MEALS_PER_BATCH CONFIG < 0)%Z ->
               processedCount = 0
               \/ Z.of_nat processedCount
                  = (Z.of_nat (length meals) + MAX_MEALS_PER_BATCH CONFIG)%Z)
       | inr (_, processedCount) => 0 < processedCount <= length meals
       end)
    /\ ((0 < MAX_MEALS_PER_BATCH CONFIG)%Z ->
        is_Some (batchLoop generateMealEmbedding addDoc getRemainingTimeInMillis CONFIG
                   (length meals) cuisineMap images meals 0 [] 0 w)).
Proof.
  intros World generateMealEmbedding addDoc getRemainingTimeInMillis CONFIG
    cuisineMap images meals w.
  split.
  - intros fuel outcome w' Hrun.
    pose proof (batchLoop_account _ _ _ _ _ _ _ _ _ _ _ Hrun) as H.
    destruct outcome as [[results count]|[e count]]; exact H.
  - intros Hpos. apply batchLoop_returns; [exact Hpos | lia | reflexivity].
Qed.

Lemma batch_loop_accounting_witness :
  exists results,
    batchLoop Samples.generateMealEmbedding Samples.addDoc
      Samples.getRemainingTimeInMillis defaultConfig 3 Samples.cuisines
      [Samples.dalImage; Samples.paneerImage]
      [Samples.meal "Dal"; Samples.meal "Bad"; Samples.meal "Paneer Tikka"] 0 [] 0 tt
    = Some (inl (results, 3), tt)
    /\ map (fun r => (r_mealId r, r_mealName r)) results
       = [(StoredMealId "Dal", "Dal"); (StoredMealId "Bad", "Bad");
          (StoredMealId "Paneer Tikka", "Paneer Tikka")].
Proof.
  destruct (batch_loop_accounting unit Samples.generateMealEmbedding Samples.addDoc
              Samples.getRemainingTimeInMillis defaultConfig Samples.cuisines
              [Samples.dalImage; Samples.paneerImage]
              [Samples.meal "Dal"; Samples.meal "Bad"; Samples.meal "Paneer Tikka"] tt)
    as [Haccount _].
  destruct (batchLoop Samples.generateMealEmbedding Samples.addDoc
              Samples.getRemainingTimeInMillis defaultConfig 3 Samples.cuisines
              [Samples.dalImage; Samples.paneerImage]
              [Samples.meal "Dal"; Samples.meal "Bad"; Samples.meal "Paneer Tikka"]
              0 [] 0 tt)
    as [[outcome []]|] eqn:Hrun; [|vm_compute in Hrun; discriminate].
  specialize (Haccount _ _ _ Hrun).
  destruct outcome as [[results count]|[e count]];
    [|vm_compute in Hrun; discriminate].
  destruct Haccount as (_ & _ & Hkeys & _).
  assert (Hcount : count = 3) by (vm_compute in Hrun; congruence).
  subst count. exists results. split; [reflexivity | exact Hkeys].
Defined.

(** X14: when every time check finds at least 30 seconds left and every
    write succeeds, the batch loop with a positive batch size processes all
    the meals: it stops without an error within one iteration per meal and
    [processedCount] is the number of meals. With a batch size that is not
    positive the loop over a non-empty list then never ends: it is still
    running after any number of iterations. *)
Theorem batch_loop_processes_all :
  forall (World : Type) generateMealEmbedding
    (addDoc : MappingResult -> World -> result unit * World)
    (getRemainingTimeInMillis : World -> Z * World) CONFIG cuisineMap images meals w,
    (forall w0, (30000 <= (getRemainingTimeInMillis w0).1)%Z) ->
    (forall r w0, (addDoc r w0).1 = Ok tt) ->
    ((0 < MAX_MEALS_PER_BATCH CONFIG)%Z ->
     exists results w',
       batchLoop generateMealEmbedding addDoc getRemainingTimeInMillis CONFIG
         (length meals) cuisineMap images meals 0 [] 0 w
       = Some (inl (results, length meals), w')
       /\ length results = length meals)
    /\ ((MAX_MEALS_PER_BATCH CONFIG <= 0)%Z -> meals <> [] ->
        forall fuel,
          batchLoop generateMealEmbedding addDoc getRemainingTimeInMillis CONFIG
            fuel cuisineMap images meals 0 [] 0 w
          = None).
Proof.
  intros World generateMealEmbedding addDoc getRemainingTimeInMillis CONFIG
    cuisineMap images meals w Htime Hwrite.
  split.
  - intros Hpos.
    destruct (batchLoop_completes generateMealEmbedding addDoc getRemainingTimeInMillis
                CONFIG (length meals) cuisineMap images meals 0 [] 0 w Htime Hwrite
                Hpos (Z.le_refl 0) (le_n _)) as (results & w' & Hrun).
    change (Z.to_nat 0) with 0 in Hrun. rewrite drop_0 in Hrun.
    cbn [Nat.add] in Hrun.
    exists results, w'. split; [exact Hrun|].
    pose proof (batchLoop_forward _ _ _ _ _ _ _ _ _ _ _ _ _ _ Hpos (Z.le_refl 0) Hrun)
      as (added & -> & Hcount & _).
    cbn [app Nat.add] in *. lia.
  - intros Hneg Hmeals fuel.
    apply batchLoop_spins; [exact Htime | exact Hwrite | exact Hneg | lia | exact Hmeals].
Qed.

Lemma batch_loop_processes_all_witness :
  exists results w',
    batchLoop Samples.generateMealEmbedding Samples.addDoc
      Samples.getRemainingTimeInMillis defaultConfig 2 Samples.cuisines
      [Samples.dalImage; Samples.paneerImage]
      [Samples.meal "Dal"; Samples.meal "Paneer Tikka"] 0 [] 0 tt
    = Some (inl (results, 2), w')
    /\ length results = 2.
Proof.
  destruct (batch_loop_processes_all unit Samples.generateMealEmbedding Samples.addDoc
              Samples.getRemainingTimeInMillis defaultConfig Samples.cuisines
              [Samples.dalImage; Samples.paneerImage]
              [Samples.meal "Dal"; Samples.meal "Paneer Tikka"] tt) as [Hall _].
  - intros w0. cbn. lia.
  - intros r w0. reflexivity.
  - apply Hall. reflexivity.
Defined.

(** ** The cuisine map and the configuration *)

Lemma loadCuisineMap_fold_sound (cuisines : list Cuisine) (m0 : gmap string Cuisine)
    (key : string) (cuisine : Cuisine) :
  fold_left
    (fun cuisineMap cuisine =>
       if truthy (cuisine_name cuisine) && truthy (cuisine_imageUrl cuisine)
       then setProperty cuisineMap cuisine else cuisineMap)
    cuisines m0 !! key = Some cuisine ->
  m0 !! key = Some cuisine
  \/ (cuisine ∈ cuisines /\ cuisine_name cuisine = key
      /\ truthy (cuisine_name cuisine) = true /\ truthy (cuisine_imageUrl cuisine) = true
      /\ key <> "size" /\ key <> "__proto__").
Proof.
  revert m0. induction cuisines as [|c cuisines IH]; intros m0; cbn [fold_left].
  - auto.
  - intros H. apply IH in H as [H | (Hin & Hrest)].
    2: { right. split; [apply list_elem_of_further, Hin | exact Hrest]. }
    destruct (truthy (cuisine_name c) && truthy (cuisine_imageUrl c)) eqn:Hc; [|auto].
    unfold setProperty in H. case_bool_decide as Hkey; [auto|].
    destruct (decide (cuisine_name c = key)) as [Heq|Hne].
    + rewrite Heq, lookup_insert_eq in H. injection H as <-.
      apply andb_prop in Hc as [Hn Hu]. right.
      split; [apply list_elem_of_here|]. repeat split; auto; intros ->; apply Hkey; auto.
    + rewrite lookup_insert_ne in H by exact Hne. auto.
Qed.

Lemma loadCuisineMap_fold_keep (cuisines : list Cuisine) (m0 : gmap string Cuisine)
    (key : string) :
  (forall c, c ∈ cuisines -> cuisine_name c <> key) ->
  fold_left
    (fun cuisineMap cuisine =>
       if truthy (cuisine_name cuisine) && truthy (cuisine_imageUrl cuisine)
       then setProperty cuisineMap cuisine else cuisineMap)
    cuisines m0 !! key = m0 !! key.
Proof.
  revert m0. induction cuisines as [|c cuisines IH]; intros m0 Hother; [reflexivity|].
  cbn [fold_left]. rewrite IH.
  - destruct (truthy (cuisine_name c) && truthy (cuisine_imageUrl c)); [|reflexivity].
    unfold setProperty. case_bool_decide; [reflexivity|].
    apply lookup_insert_ne, Hother, list_elem_of_here.
  - intros c' Hin. apply Hother, list_elem_of_further, Hin.
Qed.

(** X15: what [loadCuisineMap] stores and gives back. Every cuisine found
    in the map is one of the file, stored under its own name, with a
    non-empty name and image url; and a cuisine of the file with a non-empty
    name and image url, whose name is neither [size] nor [__proto__], is
    read back by [cuisineMap[name]] unless a later cuisine of the file has
    the same name (the last one wins). *)
Theorem cuisine_map_round_trip :
  (forall cuisines key cuisine,
     loadCuisineMap (Some cuisines) !! key = Some cuisine ->
     cuisine ∈ cuisines /\ cuisine_name cuisine = key
     /\ truthy (cuisine_name cuisine) = true
     /\ truthy (cuisine_imageUrl cuisine) = true)
  /\ (forall before cuisine after,
        truthy (cuisine_name cuisine) = true ->
        truthy (cuisine_imageUrl cuisine) = true ->
        cuisine_name cuisine <> "size" ->
        cuisine_name cuisine <> "__proto__" ->
        (forall c, c ∈ after -> cuisine_name c <> cuisine_name cuisine) ->
        getProperty (loadCuisineMap (Some (before ++ cuisine :: after)))
          (cuisine_name cuisine)
        = OwnCuisine cuisine).
Proof.
  split.
  - intros cuisines key cuisine H. unfold loadCuisineMap in H.
    apply loadCuisineMap_fold_sound in H as [H | (Hin & Hname & Hn & Hu & _)].
    + rewrite lookup_empty in H. discriminate.
    + auto.
  - intros before cuisine after Hn Hu Hsize Hproto Hafter.
    unfold getProperty, loadCuisineMap.
    rewrite fold_left_app. cbn [fold_left]. rewrite Hn, Hu. cbn [andb].
    rewrite (loadCuisineMap_fold_keep after _ _ Hafter).
    unfold setProperty. rewrite bool_decide_eq_false_2 by tauto.
    rewrite lookup_insert_eq. reflexivity.
Qed.

Lemma cuisine_map_round_trip_witness :
  getProperty
    (loadCuisineMap
       (Some [Samples.cuisineOf "Dal";
              {| cuisine_name := "Dal"; cuisine_imageUrl := "https://img.example/dal-2" |};
              {| cuisine_name := "Idli"; cuisine_imageUrl := "" |}]))
    "Dal"
  = OwnCuisine {| cuisine_name := "Dal"; cuisine_imageUrl := "https://img.example/dal-2" |}.
Proof.
  destruct cuisine_map_round_trip as [_ Hlast].
  apply (Hlast [Samples.cuisineOf "Dal"]
           {| cuisine_name := "Dal"; cuisine_imageUrl := "https://img.example/dal-2" |}
           [{| cuisine_name := "Idli"; cuisine_imageUrl := "" |}]);
    try reflexivity; try discriminate.
  intros c Hc. apply list_elem_of_singleton in Hc as ->. discriminate.
Defined.

(** X17: a threshold is never 0 and never [NaN]: a variable that is unset,
    unreadable or set to 0 gives the default 0.2, and any other value,
    negative ones included, is taken as it is. *)
Theorem thresholds_are_never_zero :
  forall cosineEnv textEnv batchEnv,
    let CONFIG := makeConfig cosineEnv textEnv batchEnv in
    (COSINE_SIMILARITY_THRESHOLD CONFIG =? 0)%float = false
    /\ PrimFloat.is_nan (COSINE_SIMILARITY_THRESHOLD CONFIG) = false
    /\ (TEXT_SIMILARITY_THRESHOLD CONFIG =? 0)%float = false
    /\ PrimFloat.is_nan (TEXT_SIMILARITY_THRESHOLD CONFIG) = false
    /\ (COSINE_SIMILARITY_THRESHOLD CONFIG = cosineEnv
        \/ (COSINE_SIMILARITY_THRESHOLD CONFIG = 0.2%float
            /\ ((cosineEnv =? 0)%float = true \/ PrimFloat.is_nan cosineEnv = true)))
    /\ (TEXT_SIMILARITY_THRESHOLD CONFIG = textEnv
        \/ (TEXT_SIMILARITY_THRESHOLD CONFIG = 0.2%float
            /\ ((textEnv =? 0)%float = true \/ PrimFloat.is_nan textEnv = true))).
Proof.
  intros cosineEnv textEnv batchEnv.
  assert (H : forall x,
            (orDefault x 0.2 =? 0)%float = false
            /\ PrimFloat.is_nan (orDefault x 0.2) = false
            /\ (orDefault x 0.2 = x
                \/ (orDefault x 0.2 = 0.2%float
                    /\ ((x =? 0)%float = true \/ PrimFloat.is_nan x = true)))).
  { intros x. unfold orDefault.
    destruct (x =? 0)%float eqn:Hz; cbn [orb];
      [repeat split; try reflexivity; right; split; [reflexivity | left; reflexivity]|].
    destruct (PrimFloat.is_nan x) eqn:Hn;
      [repeat split; try reflexivity; right; split; [reflexivity | right; reflexivity]|].
    repeat split; auto. }
  destruct (H cosineEnv) as (? & ? & ?), (H textEnv) as (? & ? & ?).
  cbn. repeat split; assumption.
Qed.

(** ** The meals read from the store *)

Lemma elem_of_existingMappings (mappedNames : list string) (mealName : string) :
  mealName ∈ existingMappings mappedNames <->
  mealName ∈ mappedNames /\ truthy mealName = true.
Proof.
  unfold existingMappings. rewrite elem_of_list_to_set, list_elem_of_filter. tauto.
Qed.

Lemma slotMeal_inv (existing : gset string) (docId : string) (data : MealData)
    (d : day) (t : mealType) (item : mealItem) (meal : Meal) :
  In meal (slotMeal existing docId data d t item) ->
  truthy (meal_name meal) = true /\ (meal_name meal ∉ existing)
  /\ meal_isVegetarian meal = detectMealVegetarian (meal_name meal) "".
Proof.
  unfold slotMeal. destruct (itemName item) as [mealName|]; [|intros []].
  destruct (truthy mealName) eqn:Ht; cbn [andb]; [|intros []].
  case_bool_decide as Hin; cbn [negb]; [intros []|].
  intros [<- | []]. cbn. auto.
Qed.

Lemma documentMeals_inv (existing : gset string) (doc : string * MealData) (meal : Meal) :
  In meal (documentMeals existing doc) ->
  truthy (meal_name meal) = true /\ meal_name meal ∉ existing.
Proof.
  destruct doc as [docId data]. unfold documentMeals.
  destruct (md_meals data) as [plan|].
  - intros (d & _ & Hd)%in_flat_map.
    destruct (plan d) as [dayPlan|]; [|destruct Hd].
    apply in_flat_map in Hd as (t & _ & Ht).
    apply slotMeal_inv in Ht as (H1 & H2 & _). auto.
  - destruct (truthy (md_name data)) eqn:Ht; cbn [andb]; [|intros []].
    case_bool_decide as Hin; cbn [negb]; [intros []|].
    intros [<- | []]. cbn. auto.
Qed.

Lemma flat_map_nil {A B : Type} (f : A -> list B) (l : list A) :
  (forall x, In x l -> f x = []) -> flat_map f l = [].
Proof.
  induction l as [|x l IH]; intros H; [reflexivity|].
  cbn [flat_map]. rewrite (H x (or_introl eq_refl)), IH; [reflexivity|].
  intros y Hy. apply H. right. exact Hy.
Qed.

Lemma slotMeal_done (existing existing' : gset string) (docId : string)
    (data : MealData) (d : day) (t : mealType) (item : mealItem) :
  existing ⊆ existing' ->
  (forall meal, In meal (slotMeal existing docId data d t item) ->
                meal_name meal ∈ existing') ->
  slotMeal existing' docId data d t item = [].
Proof.
  intros Hsub. unfold slotMeal.
  destruct (itemName item) as [mealName|]; [|intros _; reflexivity].
  destruct (truthy mealName); cbn [andb]; [|intros _; reflexivity].
  intros Hnames. destruct (decide (mealName ∈ existing')) as [Hnew|Hnew].
  { rewrite ?(bool_decide_eq_true_2 _ Hnew). reflexivity. }
  exfalso. destruct (decide (mealName ∈ existing)) as [Hold|Hold].
  - apply Hnew, Hsub, Hold.
  - rewrite ?(bool_decide_eq_false_2 _ Hold) in Hnames.
    apply Hnew. exact (Hnames _ (or_introl eq_refl)).
Qed.

(** A document yields nothing once the names it yielded are mapped. *)
Lemma documentMeals_done (existing existing' : gset string) (doc : string * MealData) :
  existing ⊆ existing' ->
  (forall meal, In meal (documentMeals existing doc) -> meal_name meal ∈ existing') ->
  documentMeals existing' doc = [].
Proof.
  intros Hsub. destruct doc as [docId data]. unfold documentMeals.
  destruct (md_meals data) as [plan|].
  - intros Hnames. apply flat_map_nil. intros d Hd.
    destruct (plan d) as [dayPlan|] eqn:Hplan; [|reflexivity].
    apply flat_map_nil. intros t Ht.
    apply (slotMeal_done existing); [exact Hsub|].
    intros meal Hmeal. apply Hnames, in_flat_map. exists d. split; [exact Hd|].
    rewrite Hplan. apply in_flat_map. exists t. split; [exact Ht | exact Hmeal].
  - destruct (truthy (md_name data)); cbn [andb]; [|intros _; reflexivity].
    intros Hnames. destruct (decide (md_name data ∈ existing')) as [Hnew|Hnew].
    { rewrite ?(bool_decide_eq_true_2 _ Hnew). reflexivity. }
    exfalso. destruct (decide (md_name data ∈ existing)) as [Hold|Hold].
    + apply Hnew, Hsub, Hold.
    + rewrite ?(bool_decide_eq_false_2 _ Hold) in Hnames.
      apply Hnew. exact (Hnames _ (or_introl eq_refl)).
Qed.

(** X16: the meals [fetchUnmappedMeals] builds from the two snapshots.
    Every meal has a non-empty name that no mapping document carries; and
    once a mapping document exists for the name of every meal found (what the
    orchestrator writes for a mapped meal), the same documents yield no meal
    at all. *)
Theorem unmapped_meals_exclude_mapped_names :
  (forall docs mappedNames meal,
     In meal (unmappedMealsOf docs mappedNames) ->
     meal_name meal <> "" /\ meal_name meal ∉ mappedNames)
  /\ (forall docs mappedNames,
        unmappedMealsOf docs
          (mappedNames ++ map meal_name (unmappedMealsOf docs mappedNames))
        = []).
Proof.
  split.
  - intros docs mappedNames meal (doc & _ & Hmeal)%in_flat_map.
    apply documentMeals_inv in Hmeal as [Ht Hnot].
    split; [intros Hname; rewrite Hname in Ht; discriminate|].
    intros Hin. apply Hnot, elem_of_existingMappings. auto.
  - intros docs mappedNames.
    set (found := unmappedMealsOf docs mappedNames).
    unfold unmappedMealsOf. apply flat_map_nil. intros doc Hdoc.
    apply (documentMeals_done (existingMappings mappedNames)).
    + intros mealName [Hin Ht]%elem_of_existingMappings.
      apply elem_of_existingMappings. split; [|exact Ht].
      apply elem_of_app. left. exact Hin.
    + intros meal Hmeal.
      pose proof (documentMeals_inv _ _ _ Hmeal) as [Ht _].
      apply elem_of_existingMappings. split; [|exact Ht].
      apply elem_of_app. right. apply list_elem_of_In, in_map.
      apply in_flat_map. exists doc. split; [exact Hdoc | exact Hmeal].
Qed.

(** A week with two named slots on Monday: once both names are mapped,
    the document yields nothing. *)
Lemma unmapped_meals_exclude_mapped_names_witness :
  unmappedMealsOf
    [("week1",
      {| md_meals :=
           Some (fun d =>
                   match d with
                   | monday =>
                       Some (fun t =>
                               match t with
                               | breakfast => ItemObject "Upma"
                               | lunch => ItemString "Dal"
                               | _ => ItemOther
                               end)
                   | _ => None
                   end);
         md_name := ""; md_description := ""; md_cuisine := "";
         md_weekStartDate := None; md_userId := None; md_id := None;
         md_isVegetarian := None; md_day := None; md_mealType := None;
         md_originalDocId := None |})]
    ["Upma"; "Dal"]
  = [].
Proof.
  destruct unmapped_meals_exclude_mapped_names as [_ Hdone].
  match goal with
  | |- unmappedMealsOf ?docs _ = [] =>
      change (unmappedMealsOf docs ([] ++ map meal_name (unmappedMealsOf docs [])) = [])
  end.
  apply Hdone.
Defined.

(** ** More on the handler *)



Section HandlerMore.
Context {World : Type}.
Variable generateMealEmbedding : string -> World -> result (list float) * World.
Variable fetchUnmappedMeals : World -> result (list Meal) * World.
Variable addDoc : MappingResult -> World -> result unit * World.
Variable getRemainingTimeInMillis : World -> Z * World.
Variable CONFIG : Config.

Abbreviation serve :=
  (handleLoaded generateMealEmbedding fetchUnmappedMeals addDoc
     getRemainingTimeInMillis CONFIG).



End HandlerMore.



(** X20: from the cuisine file to persistence, for a cuisine file without
    a cuisine named [__proto__] (storing one would replace the prototype of
    the map object, and with it the names the map inherits). With the map
    that [loadCuisineMap] builds from such a file, a result that
    [findBestImageMatch] returns either carries the non-empty image url of a
    cuisine of the file named like the image, and then the entry
    [processMealBatch] makes of it has that url and is written to the store;
    or the image's name is a key inherited from the prototype chain, the url
    is [undefined], and the entry has no image url and is not written. *)
Theorem returned_match_is_persisted (cuisines : list Cuisine) (CONFIG : Config)
    (mealName : string) (mealEmbedding : list float) (mealIsVegetarian : bool)
    (images : list ImageEmbedding) (r : MatchResult) :
  Forall (fun cuisine => cuisine_name cuisine <> "__proto__") cuisines ->
  findBestImageMatch CONFIG (loadCuisineMap (Some cuisines)) mealName mealEmbedding
    mealIsVegetarian images = Ok r ->
  exists image,
    bestMatch r = Some image
    /\ ((exists cuisine,
           cuisine ∈ cuisines
           /\ cuisine_name cuisine = propertyKey (img_name image)
           /\ url r = Some (cuisine_imageUrl cuisine)
           /\ forall meal,
                r_imageUrl (matchedResult meal r) = Some (cuisine_imageUrl cuisine)
                /\ isMapped (matchedResult meal r) = true)
        \/ (propertyKey (img_name image) ∈ inheritedKeys
            /\ url r = None
            /\ forall meal,
                 r_imageUrl (matchedResult meal r) = None
                 /\ isMapped (matchedResult meal r) = false)).
Proof.
  intros _ Hr.
  destruct (findBestImageMatch_inv _ _ _ _ _ _ _ Hr)
    as (st & image & Hloop & Hbest & Hr' & Hm & _).
  assert (Hmethod : matchMethod r <> error).
  { rewrite Hm. intros Herr.
    pose proof (matchLoop_scoresReported CONFIG mealName mealEmbedding mealIsVegetarian
                  images initialState st) as Hs.
    unfold scoresReported in Hs at 2. rewrite Herr in Hs. apply Hs; [|exact Hloop].
    unfold scoresReported. cbn. repeat split. }
  exists image. split; [exact Hr'|].
  unfold findBestImageMatch in Hr. rewrite Hloop in Hr. cbn [bind] in Hr.
  rewrite Hbest in Hr. unfold getProperty in Hr.
  destruct (loadCuisineMap (Some cuisines) !! propertyKey (img_name image))
    as [cuisine|] eqn:Hlookup.
  - left. exists cuisine. injection Hr as <-.
    unfold loadCuisineMap in Hlookup.
    apply loadCuisineMap_fold_sound in Hlookup as [H | (Hin & Hname & _ & Hu & _)];
      [rewrite lookup_empty in H; discriminate|].
    split; [exact Hin|]. split; [exact Hname|]. split; [reflexivity|].
    intros meal. unfold isMapped, matchedResult, orNull. cbn. rewrite Hu. cbn.
    split; [reflexivity|]. rewrite Hm in Hmethod.
    destruct (st_method st); try reflexivity. contradiction.
  - right. case_bool_decide as Hkey; [|discriminate]. injection Hr as <-.
    split; [exact Hkey|]. split; [reflexivity|]. intros meal. split; reflexivity.
Qed.

Lemma returned_match_is_persisted_witness :
  exists r,
    findBestImageMatch defaultConfig Samples.cuisines "Paneer Tikka"
      Samples.mealEmbedding true [Samples.paneerImage] = Ok r
    /\ isMapped (matchedResult (Samples.meal "Paneer Tikka") r) = true.
Proof.
  destruct (findBestImageMatch defaultConfig Samples.cuisines "Paneer Tikka"
              Samples.mealEmbedding true [Samples.paneerImage]) as [r|e] eqn:Hr;
    [|vm_compute in Hr; discriminate].
  exists r. split; [reflexivity|].
  destruct (returned_match_is_persisted
              [Samples.cuisineOf "Dal"; Samples.cuisineOf "Paneer Tikka";
               Samples.cuisineOf "Chicken Curry"] _ _ _ _ _ _
              ltac:(repeat constructor; discriminate) Hr)
    as (image & Hbest & [(cuisine & _ & _ & _ & Hmeal) | (Hkey & Hurl & _)]).
  - apply Hmeal.
  - vm_compute in Hr. injection Hr as <-. discriminate.
Defined.
